(** * aitutor: the concept graph and the hidden-Markov-model classifier

    A shallow embedding of [backend/app.py] ([Concept],
    [MathKnowledgeBase._build_network] and the concept table) and of
    [backend/hidden_markov_model.py] ([MathConceptHMM]), with the properties
    of the design document checked against them.

    Modelling choices.
    - Python [float]s are modelled by exact rationals ([Q]); a Python division
      raises [ZeroDivisionError] on a zero divisor, a numpy division returns
      a non-finite value instead.  Nothing here speaks about rounding.
    - Python [dict]s are insertion-ordered association lists with unique keys.
    - [str] is a byte string (UTF-8); the regular-expression engine and
      [str.lower] shipped below agree with Python's on ASCII text, and every
      general theorem holds for an arbitrary engine ([PyEnv]).
    - The iteration order of a Python [set] of strings is not specified; it
      is a component of [PyEnv]. *)

From Stdlib Require Import List String Ascii ZArith QArith Qfield Bool Lia Lqa.
From Stdlib Require Import Permutation Sorted Relations OrdersEx.
Import ListNotations.

Set Implicit Arguments.
Open Scope string_scope.
Open Scope list_scope.

(** ** The Python runtime the two modules rely on *)

Module Py.

(** The exceptions the modelled code can raise. *)
Inductive exn : Type :=
| ZeroDivisionError
| KeyError
| IndexError
| ValueError.

Inductive result (A : Type) : Type :=
| Ok (a : A)
| Raise (e : exn).
Arguments Ok {A} a.
Arguments Raise {A} e.

Definition bind {A B} (m : result A) (f : A -> result B) : result B :=
  match m with
  | Ok a => f a
  | Raise e => Raise e
  end.

(** [for x in l: acc = f(acc, x)], stopping at the first exception. *)
Fixpoint foldM {A S} (f : S -> A -> result S) (l : list A) (s : S) : result S :=
  match l with
  | [] => Ok s
  | x :: l' => bind (f s x) (foldM f l')
  end.

(** [[f(x) for x in l]]. *)
Fixpoint mapM {A B} (f : A -> result B) (l : list A) : result (list B) :=
  match l with
  | [] => Ok []
  | x :: l' => bind (f x) (fun y => bind (mapM f l') (fun ys => Ok (y :: ys)))
  end.

(** *** dict: insertion-ordered, string keys *)

Definition dict (V : Type) : Type := list (string * V).

Fixpoint get {V} (d : dict V) (k : string) : option V :=
  match d with
  | [] => None
  | (k', v) :: d' => if String.eqb k' k then Some v else get d' k
  end.

(** [d[k] = v]: an existing key keeps its position. *)
Fixpoint set {V} (d : dict V) (k : string) (v : V) : dict V :=
  match d with
  | [] => [(k, v)]
  | (k', v') :: d' =>
      if String.eqb k' k then (k, v) :: d' else (k', v') :: set d' k v
  end.

Definition keys {V} (d : dict V) : list string := map fst d.
Definition values {V} (d : dict V) : list V := map snd d.

(** [k in d]. *)
Definition contains {V} (d : dict V) (k : string) : bool :=
  match get d k with Some _ => true | None => false end.

(** [d[k]]. *)
Definition getitem {V} (d : dict V) (k : string) : result V :=
  match get d k with
  | Some v => Ok v
  | None => Raise KeyError
  end.

(** [d.get(k, default)]. *)
Definition get_default {V} (d : dict V) (k : string) (default : V) : V :=
  match get d k with
  | Some v => v
  | None => default
  end.

(** [d = {}; for k in ks: d[k] = f(k)]. *)
Definition dict_for {V} (ks : list string) (f : string -> result V)
  : result (dict V) :=
  foldM (fun d k => bind (f k) (fun v => Ok (set d k v))) ks [].

(** *** lists and sets of strings *)

(** [x in l]. *)
Definition str_in (x : string) (l : list string) : bool :=
  existsb (String.eqb x) l.

(** [set(l)], as a duplicate-free list; only [len] and [in] are used on it. *)
Definition set_of (l : list string) : list string := nodup string_dec l.

(** [a.union(b)]. *)
Definition union (a b : list string) : list string := nodup string_dec (a ++ b).

(** [len(l)], a Python int. *)
Definition len {A} (l : list A) : Z := Z.of_nat (List.length l).

(** *** floats *)

(** [x / y] on Python numbers. *)
Definition div (x y : Q) : result Q :=
  if Qeq_bool y 0 then Raise ZeroDivisionError else Ok (x / y).

(** [x > y]. *)
Definition gt (x y : Q) : bool :=
  match Qcompare x y with Gt => true | _ => false end.

(** [sum(l)]: starts from [0] and adds from the left. *)
Definition sum (l : list Q) : Q := fold_left Qplus l 0.

(** [s > t] on [str]: the lexicographic order of the code points. *)
Definition str_gt (s t : string) : bool :=
  match String_as_OT.compare s t with Gt => true | _ => false end.

(** Comparison of [(float, str)] tuples, [a > b]: the first components
    decide unless they are equal, then the strings decide. *)
Definition tuple_gt (a b : Q * string) : bool :=
  if Qeq_bool (fst a) (fst b) then str_gt (snd a) (snd b)
  else gt (fst a) (fst b).

(** [max(iterable)] on such tuples: the first item is the running maximum,
    a later item replaces it when it is strictly greater. *)
Definition max_tuple (l : list (Q * string)) : result (Q * string) :=
  match l with
  | [] => Raise ValueError
  | x :: l' => Ok (fold_left (fun best item =>
                             if tuple_gt item best then item else best) l' x)
  end.

(** *** numpy scalars *)

(** A [numpy.float64]: a finite value, an infinity or NaN. *)
Inductive float64 : Type :=
| Fin (q : Q)
| Inf (positive : bool)
| NaN.

(** [x / y] on numpy scalars with finite operands: no exception, a zero
    divisor (here always [+0.0]) gives an infinity or NaN. *)
Definition np_div (x y : Q) : float64 :=
  if Qeq_bool y 0 then
    match Qcompare x 0 with
    | Eq => NaN
    | Gt => Inf true
    | Lt => Inf false
    end
  else Fin (x / y).

(** [numpy.mean] of a non-empty list of finite floats. *)
Definition np_mean (l : list Q) : Q := sum l / inject_Z (len l).

(** [a < b] on numpy scalars; every comparison with NaN is false. *)
Definition np_lt (a b : float64) : bool :=
  match a, b with
  | NaN, _ | _, NaN => false
  | Fin x, Fin y => gt y x
  | Fin _, Inf p => p
  | Inf p, Fin _ => negb p
  | Inf p, Inf p' => negb p && p'
  end.

(** [l.sort(key=key, reverse=True)]: stable, descending.  Keys that are
    not NaN are totally ordered and the result is then the one Python
    produces; with NaN keys Python's result depends on its merge strategy
    and is not modelled. *)
Fixpoint insert_desc {A} (key : A -> float64) (x : A) (l : list A) : list A :=
  match l with
  | [] => [x]
  | y :: l' =>
      if np_lt (key x) (key y) then y :: insert_desc key x l' else x :: y :: l'
  end.

Definition sort_desc {A} (key : A -> float64) (l : list A) : list A :=
  fold_right (insert_desc key) [] l.

End Py.

Import Py.

Notation "x <- m ;; k" := (Py.bind m (fun x => k))
  (at level 61, m at next level, right associativity).
Notation "' p <- m ;; k" := (Py.bind m (fun p => k))
  (at level 61, p pattern, m at next level, right associativity).

(** ** The fragment of Python's [re] the extractor uses *)

Module Re.

Inductive regex : Type :=
| Eps
| Chr (c : ascii)                      (* a literal character *)
| Cls (negated : bool) (cs : list ascii) (* [[...]] and [[^...]] *)
| Word                                 (* [\w] *)
| Digit                                (* [\d] *)
| Dot                                  (* [.], anything but a newline *)
| Cat (r1 r2 : regex)
| Alt (r1 r2 : regex)
| Star (r : regex)                     (* [r*] and [r*?] match the same texts *)
| Boundary                             (* [\b] *)
| NotAhead (r : regex).                (* [(?!r)] *)

Definition Plus (r : regex) : regex := Cat r (Star r).
Definition Opt (r : regex) : regex := Alt r Eps.

(** The regex matching exactly the text [s]: what [re.escape(s)] denotes. *)
Fixpoint escape (s : string) : regex :=
  match s with
  | EmptyString => Eps
  | String c s' => Cat (Chr c) (escape s')
  end.

(** A compiled pattern: the expression and the [re.IGNORECASE] flag. *)
Record pattern : Type := compile { expr : regex; ignorecase : bool }.

Definition between (lo hi : nat) (c : ascii) : bool :=
  let n := nat_of_ascii c in (lo <=? n)%nat && (n <=? hi)%nat.

Definition is_digit (c : ascii) : bool := between 48 57 c.
Definition is_upper (c : ascii) : bool := between 65 90 c.
Definition is_lower (c : ascii) : bool := between 97 122 c.

(** [\w] on ASCII: letters, digits and the underscore. *)
Definition is_word (c : ascii) : bool :=
  is_digit c || is_upper c || is_lower c || Ascii.eqb c "_"%char.

Definition lower_ascii (c : ascii) : ascii :=
  if is_upper c then ascii_of_nat (nat_of_ascii c + 32) else c.

Definition is_word_opt (c : option ascii) : bool :=
  match c with Some a => is_word a | None => false end.

(** [matches ic r prev s k]: [r] matches a prefix of [s] (the character
    before [s] being [prev]) and the continuation [k] accepts what is left.
    Backtracking is complete, so greedy and lazy repetition coincide. *)
Fixpoint matches (ic : bool) (r : regex) (prev : option ascii) (s : list ascii)
         (k : option ascii -> list ascii -> bool) {struct r} : bool :=
  let one (ok : ascii -> bool) :=
    match s with
    | a :: s' => if ok a then k (Some a) s' else false
    | [] => false
    end in
  match r with
  | Eps => k prev s
  | Chr c =>
      one (fun a => if ic then Ascii.eqb (lower_ascii a) (lower_ascii c)
                    else Ascii.eqb a c)
  | Cls negated cs => one (fun a => xorb negated (existsb (Ascii.eqb a) cs))
  | Word => one is_word
  | Digit => one is_digit
  | Dot => one (fun a => negb (Ascii.eqb a "010"%char))
  | Cat r1 r2 => matches ic r1 prev s (fun p' s' => matches ic r2 p' s' k)
  | Alt r1 r2 => matches ic r1 prev s k || matches ic r2 prev s k
  | Star r' =>
      (fix loop (fuel : nat) (prev : option ascii) (s : list ascii) : bool :=
         k prev s ||
         match fuel with
         | O => false
         | S fuel' =>
             matches ic r' prev s
               (fun p' s' =>
                  if (List.length s' <? List.length s)%nat
                  then loop fuel' p' s' else false)
         end) (List.length s) prev s
  | Boundary =>
      if xorb (is_word_opt prev) (is_word_opt (hd_error s)) then k prev s
      else false
  | NotAhead r' =>
      if matches ic r' prev s (fun _ _ => true) then false else k prev s
  end.

Fixpoint search_from (ic : bool) (r : regex) (prev : option ascii)
         (s : list ascii) : bool :=
  matches ic r prev s (fun _ _ => true) ||
  match s with
  | [] => false
  | a :: s' => search_from ic r (Some a) s'
  end.

(** [p.search(text)] as a truth value. *)
Definition search (p : pattern) (text : string) : bool :=
  search_from (ignorecase p) (expr p) None (list_ascii_of_string text).

(** [text.lower()]. *)
Fixpoint lower (text : string) : string :=
  match text with
  | EmptyString => EmptyString
  | String c s => String (lower_ascii c) (lower s)
  end.

End Re.

(** What the interpreter supplies: the regex engine, [str.lower], and the
    order in which a set of strings is iterated ([list(set(l))]), of which
    only the two laws below are known. *)
Record PyEnv : Type := {
  re_search : Re.pattern -> string -> bool;
  str_lower : string -> string;
  set_iter : list string -> list string;
  set_iter_NoDup : forall l, NoDup (set_iter l);
  set_iter_In : forall l x, In x (set_iter l) <-> In x l
}.

(** An interpreter: the engine above, sets iterated in order of first
    insertion. *)
Definition ascii_env : PyEnv :=
  {| re_search := Re.search;
     str_lower := Re.lower;
     set_iter := nodup string_dec;
     set_iter_NoDup := NoDup_nodup string_dec;
     set_iter_In := fun l x => nodup_In string_dec l x |}.

(** ** [backend/app.py]: concepts and the prerequisite network *)

Record Concept : Type := {
  name : string;
  keywords : list string;
  prerequisites : list string;
  difficulty : Q;
  probability : Q;
  template_params : dict (list Z)
}.

(** An entry of [MathKnowledgeBase.network]:
    [{'children': [...], 'parents': [...]}]. *)
Record Node : Type := { children : list string; parents : list string }.

(** The table built by [MathKnowledgeBase._initialize_concepts]. *)
Definition _initialize_concepts : dict Concept :=
  [ ("basic_arithmetic",
     {| name := "basic_arithmetic";
        keywords := ["add"; "subtract"; "multiply"; "divide"; "sum"; "difference";
                     "product"; "quotient"; "calculate"; "compute"; "evaluate";
                     "operation"; "+"; "-"; "*"; "/"];
        prerequisites := [];
        difficulty := 0.2;
        probability := 0.4;
        template_params := [("a", [1; 100]); ("b", [1; 100])]%Z |});
    ("linear_equations",
     {| name := "linear_equations";
        keywords := ["linear"; "x"; "variable"; "constant"; "unknown"; "expression";
                     "linear equation"];
        prerequisites := ["basic_arithmetic"];
        difficulty := 0.4;
        probability := 0.3;
        template_params := [("a", [-10; 10]); ("b", [-20; 20]); ("c", [-50; 50])]%Z |});
    ("quadratic_equations",
     {| name := "quadratic_equations";
        keywords := ["quadratic"; "second degree"; "square"; "squared"; "roots"; "^2";
                     "polynomial"; "x^2"];
        prerequisites := ["linear_equations"];
        difficulty := 0.6;
        probability := 0.4;
        template_params := [("a", [-5; 5]); ("b", [-10; 10]); ("c", [-15; 15])]%Z |});
    ("geometry_basics",
     {| name := "geometry_basics";
        keywords := ["angle"; "triangle"; "circle"; "rectangle"; "perimeter"; "area";
                     "circumference"; "radius"; "height"; "width"; "length"; "square";
                     "measure"; "compute"];
        prerequisites := ["basic_arithmetic"];
        difficulty := 0.4;
        probability := 0.4;
        template_params := [("side", [1; 20]); ("radius", [1; 15]);
                            ("height", [1; 20]); ("width", [1; 20])]%Z |});
    ("trigonometry",
     {| name := "trigonometry";
        keywords := ["sin"; "cos"; "tan"; "angle"; "triangle"; "hypotenuse"; "opposite";
                     "adjacent"; "sine"; "cosine"; "tangent"; "cotangent"; "cosecant";
                     "secant"; "cot"; "csc"; "sec"; "right triangle"; "calculate";
                     "evaluate"];
        prerequisites := ["geometry_basics"];
        difficulty := 0.7;
        probability := 0.875;
        template_params := [("angle", [0; 360]); ("side", [1; 20])]%Z |});
    ("derivatives",
     {| name := "derivatives";
        keywords := ["derivative"; "derivate"; "rate of change"; "differentiate";
                     "slope"; "tangent line"; "function"; "d/dx"; "dx"; "dy/dx";
                     "calculus"; "instantaneous rate"; "evaluate"];
        prerequisites := ["quadratic_equations"; "trigonometry"];
        difficulty := 0.8;
        probability := 0.9;
        template_params := [("a", [-5; 5]); ("b", [-10; 10]); ("n", [2; 4])]%Z |});
    ("integrals",
     {| name := "integrals";
        keywords := ["integral"; "antiderivative"; "integrate"; "area under curve";
                     "definite integral"; "indefinite integral"; "integration";
                     "evaluate"; "calculus"; "dx"; "∫"; "limits"];
        prerequisites := ["derivatives"];
        difficulty := 0.9;
        probability := 0.9;
        template_params := [("a", [-5; 5]); ("b", [-10; 10]); ("n", [2; 4])]%Z |}) ].

(** The inner loop of [_build_network]: one prerequisite of [concept_name]. *)
Definition add_child (concept_name : string) (network : dict Node)
           (prereq : string) : dict Node :=
  match get network prereq with
  | Some node =>
      set network prereq
          {| children := children node ++ [concept_name]; parents := parents node |}
  | None =>
      set network prereq {| children := [concept_name]; parents := [] |}
  end.

(** The body of the outer loop of [_build_network]: the node of the concept
    is (re)set, then each prerequisite receives the concept as a child. *)
Definition network_step (network : dict Node) (item : string * Concept)
  : dict Node :=
  let '(concept_name, concept) := item in
  let network :=
    set network concept_name
        {| children := []; parents := prerequisites concept |} in
  fold_left (add_child concept_name) (prerequisites concept) network.

(** [MathKnowledgeBase._build_network], from the empty [self.network].  No
    statement of the loop can raise. *)
Definition _build_network (concepts : dict Concept) : result (dict Node) :=
  Ok (fold_left network_step concepts []).

(** What [MathConceptHMM] reads of the knowledge base ([self.kb]). *)
Record KnowledgeBase : Type := {
  concepts : dict Concept;
  network : dict Node
}.

(** ** [backend/hidden_markov_model.py] *)

Record HMMParams : Type := {
  states : list string;
  observations : list string;
  start_probabilities : dict Q;
  transition_matrix : dict (dict Q);
  emission_matrix : dict (dict Q)
}.

(** [concept.probability if concept.probability > 0 else (1 - concept.difficulty)] *)
Definition prior (concept : Concept) : Q :=
  if gt (probability concept) 0 then probability concept
  else 1 - difficulty concept.

(** [concept.probability if concept.probability > 0 else 1.0] *)
Definition eff_prob (concept : Concept) : Q :=
  if gt (probability concept) 0 then probability concept else 1.0.

(** [children.union(parents)] for [self.kb.network[from_state]]. *)
Definition connected_states (node : Node) : list string :=
  union (set_of (children node)) (set_of (parents node)).

(** One row of the transition matrix: the body of [for from_state in states]. *)
Definition transition_row (kb : KnowledgeBase) (states : list string)
           (from_state : string) : result (dict Q) :=
  node <- getitem (network kb) from_state ;;
  let connected_states := connected_states node in
  base_prob <- div 0.1 (inject_Z (len states - 1)) ;;
  connected_prob <- div 0.9 (inject_Z (Z.max (len connected_states) 1)) ;;
  dict_for states (fun to_state =>
    concept <- getitem (concepts kb) to_state ;;
    let concept_prob := eff_prob concept in
    if String.eqb to_state from_state then Ok (0.7 * concept_prob)
    else if str_in to_state connected_states
         then Ok (connected_prob * 0.3 * concept_prob)
         else Ok (base_prob * 0.3 * concept_prob)).

(** One row of the emission matrix: the body of [for state in states]. *)
Definition emission_row (kb : KnowledgeBase) (observations : list string)
           (state : string) : result (dict Q) :=
  concept <- getitem (concepts kb) state ;;
  let scaling_factor := eff_prob concept in
  dict_for observations (fun obs =>
    if str_in obs (keywords concept)
    then q <- div 0.8 (inject_Z (len (keywords concept))) ;;
         Ok (q * scaling_factor)
    else q <- div 0.2 (inject_Z (len observations - len (keywords concept))) ;;
         Ok (q * scaling_factor)).

(** [observations]: the set of all keywords, listed in the set's order. *)
Definition vocabulary (env : PyEnv) (table : dict Concept) : list string :=
  set_iter env (flat_map keywords (values table)).

(** [total_prob]. *)
Definition total_prior (table : dict Concept) : Q :=
  sum (map prior (values table)).

(** [MathConceptHMM._initialize_hmm]. *)
Definition _initialize_hmm (env : PyEnv) (kb : KnowledgeBase) : result HMMParams :=
  let states := keys (concepts kb) in
  let observations := vocabulary env (concepts kb) in
  let total_prob := total_prior (concepts kb) in
  start_probabilities <-
    foldM (fun d '(name, concept) =>
             v <- (if gt (probability concept) 0
                   then div (probability concept) total_prob
                   else div (1 - difficulty concept) total_prob) ;;
             Ok (set d name v))
          (concepts kb) [] ;;
  transition_matrix <- dict_for states (transition_row kb states) ;;
  emission_matrix <- dict_for states (emission_row kb observations) ;;
  Ok {| states := states;
        observations := observations;
        start_probabilities := start_probabilities;
        transition_matrix := transition_matrix;
        emission_matrix := emission_matrix |}.

Record MathConceptHMM : Type := {
  kb : KnowledgeBase;
  hmm_params : HMMParams;
  patterns : dict Re.pattern;
  special_patterns : dict Re.pattern
}.

Definition re_seq (rs : list Re.regex) : Re.regex :=
  fold_right Re.Cat Re.Eps rs.

(** [r'\b' + re.escape(obs) + r'\b'], compiled with [re.IGNORECASE]. *)
Definition keyword_pattern (obs : string) : Re.pattern :=
  Re.compile (re_seq [Re.Boundary; Re.escape obs; Re.Boundary]) true.

(** The five entries of [self.special_patterns], in the order of the literal. *)
Definition the_special_patterns : dict Re.pattern :=
  [ ("equation",      (* [^><=]=(?!=) *)
     Re.compile (re_seq [Re.Cls true [">"; "<"; "="]%char; Re.Chr "=";
                         Re.NotAhead (Re.Chr "=")]) false);
    ("inequality",    (* [<>]=?|!= *)
     Re.compile (Re.Alt (re_seq [Re.Cls false ["<"; ">"]%char; Re.Opt (Re.Chr "=")])
                        (re_seq [Re.Chr "!"; Re.Chr "="])) false);
    ("squared",       (* \b\w+\^2\b|² *)
     Re.compile (Re.Alt (re_seq [Re.Boundary; Re.Plus Re.Word; Re.Chr "^";
                                 Re.Chr "2"; Re.Boundary])
                        (Re.escape "²")) false);
    ("fraction",      (* /|\bover\b|\bdivided by\b *)
     Re.compile (Re.Alt (Re.Chr "/")
                   (Re.Alt (re_seq [Re.Boundary; Re.escape "over"; Re.Boundary])
                           (re_seq [Re.Boundary; Re.escape "divided by";
                                    Re.Boundary]))) false);
    ("function",      (* \b[fg]\(.*?\) *)
     Re.compile (re_seq [Re.Boundary; Re.Cls false ["f"; "g"]%char; Re.Chr "(";
                         Re.Star Re.Dot; Re.Chr ")"]) false) ].

(** [r'\b\d+\b'] *)
Definition number_pattern : Re.pattern :=
  Re.compile (re_seq [Re.Boundary; Re.Plus Re.Digit; Re.Boundary]) false.

(** [MathConceptHMM._compile_observation_patterns]: the two dicts. *)
Definition _compile_observation_patterns (params : HMMParams)
  : dict Re.pattern * dict Re.pattern :=
  (fold_left (fun patterns obs => set patterns obs (keyword_pattern obs))
             (observations params) [],
   the_special_patterns).

(** [MathConceptHMM.__init__]. *)
Definition MathConceptHMM_init (env : PyEnv) (knowledge_base : KnowledgeBase)
  : result MathConceptHMM :=
  params <- _initialize_hmm env knowledge_base ;;
  let '(patterns, special_patterns) := _compile_observation_patterns params in
  Ok {| kb := knowledge_base;
        hmm_params := params;
        patterns := patterns;
        special_patterns := special_patterns |}.

(** [MathKnowledgeBase.__init__], up to the construction of [self.hmm_model],
    for a given concept table. *)
Definition MathKnowledgeBase_init (env : PyEnv) (table : dict Concept)
  : result MathConceptHMM :=
  network <- _build_network table ;;
  MathConceptHMM_init env {| concepts := table; network := network |}.

(** [[obs for obs, pattern in d.items() if pattern.search(question)]] *)
Definition hits (env : PyEnv) (d : dict Re.pattern) (question : string)
  : list string :=
  map fst (filter (fun '(_, pattern) => re_search env pattern question) d).

(** [MathConceptHMM._extract_observations]. *)
Definition _extract_observations (env : PyEnv) (self : MathConceptHMM)
           (question : string) : list string :=
  let observations :=
    hits env (patterns self) question
    ++ hits env (special_patterns self) question in
  match observations with
  | [] => if re_search env number_pattern question then ["operand"] else []
  | _ => observations
  end.

(** [l[i]] for [0 <= i]. *)
Definition index {A} (l : list A) (i : nat) : result A :=
  match nth_error l i with
  | Some x => Ok x
  | None => Raise IndexError
  end.

(** [l[-1]]. *)
Definition index_last {A} (l : list A) : result A :=
  match l with
  | [] => Raise IndexError
  | _ => index l (List.length l - 1)
  end.

(** [emission_matrix[state].get(obs, 1e-10)] *)
Definition emission (params : HMMParams) (state obs : string) : result Q :=
  row <- getitem (emission_matrix params) state ;;
  Ok (get_default row obs 1e-10).

(** [transition_matrix[prev_state][curr_state]] *)
Definition transition (params : HMMParams) (prev_state curr_state : string)
  : result Q :=
  row <- getitem (transition_matrix params) prev_state ;;
  getitem row curr_state.

(** The tuples over which the inner [max] of [viterbi] ranges, for one
    [curr_state] at one time step: one per [prev_state], in state order. *)
Definition candidates (params : HMMParams) (V_prev : dict Q) (obs_t : string)
           (curr_state : string) : result (list (Q * string)) :=
  mapM (fun prev_state =>
          v <- getitem V_prev prev_state ;;
          tr <- transition params prev_state curr_state ;;
          em <- emission params curr_state obs_t ;;
          Ok (v * tr * em, prev_state))
       (states params).

(** [max_prob, best_state = max(...)]: the value kept in [V[t][curr_state]]
    and the predecessor whose path is extended. *)
Definition best_predecessor (params : HMMParams) (V_prev : dict Q)
           (obs_t : string) (curr_state : string) : result (Q * string) :=
  cands <- candidates params V_prev obs_t curr_state ;;
  max_tuple cands.

(** The body of [for t in range(1, len(observations))]: from [V] (of length
    [t]) and [path] to [V] extended by [V[t]] and [newpath].  [V[t-1]] and
    [observations[t]] are read once per [curr_state]; in the loop neither
    index is out of range. *)
Definition viterbi_step (params : HMMParams) (observations : list string)
           (acc : list (dict Q) * dict (list string)) (t : nat)
  : result (list (dict Q) * dict (list string)) :=
  let '(V, path) := acc in
  rows <- dict_for (states params) (fun curr_state =>
            V_prev <- index V (t - 1) ;;
            obs_t <- index observations t ;;
            '(max_prob, best_state) <-
              best_predecessor params V_prev obs_t curr_state ;;
            best_path <- getitem path best_state ;;
            Ok (max_prob, best_path ++ [curr_state])) ;;
  Ok (V ++ [map (fun '(s, row) => (s, fst row)) rows],
      map (fun '(s, row) => (s, snd row)) rows).

(** The first loop of [viterbi]: [V[0]].  (The same loop sets
    [path[state] = [state]].) *)
Definition viterbi_init (params : HMMParams) (observations : list string)
  : result (dict Q) :=
  dict_for (states params) (fun state =>
    start <- getitem (start_probabilities params) state ;;
    row <- getitem (emission_matrix params) state ;;
    obs0 <- index observations 0 ;;
    Ok (start * get_default row obs0 1e-10)).

(** [MathConceptHMM.viterbi]. *)
Definition viterbi (self : MathConceptHMM) (observations : list string)
  : result (Q * list string) :=
  let params := hmm_params self in
  V0 <- viterbi_init params observations ;;
  let path := map (fun state => (state, [state])) (states params) in
  '(V, path) <- foldM (viterbi_step params observations)
                      (seq 1 (List.length observations - 1)) ([V0], path) ;;
  V_last <- index_last V ;;
  finals <- mapM (fun state => v <- getitem V_last state ;; Ok (v, state))
                 (states params) ;;
  '(prob, best_final_state) <- max_tuple finals ;;
  best_path <- getitem path best_final_state ;;
  Ok (prob, best_path).

(** An entry of ['related_concepts']. *)
Record RelatedConcept : Type := {
  rc_concept : string;
  rc_probability : float64;
  rc_difficulty : Q
}.

(** The two shapes of dict [analyze_question] returns. *)
Inductive Analysis : Type :=
| NoMatch (error : string) (concepts : list string)
| Match (main_concept : string) (confidence : Q)
        (prerequisites : list string)
        (related_concepts : list RelatedConcept)
        (observations : list string).

(** [transition_score]: the context of a concept given the decoded path. *)
Definition context_score (params : HMMParams) (state_sequence : list string)
           (concept : string) : result Q :=
  if (1 <? List.length state_sequence)%nat then
    prev_state <- index state_sequence (List.length state_sequence - 2) ;;
    transition params prev_state concept
  else getitem (start_probabilities params) concept.

(** The scoring loop of [analyze_question]: the entries appended to
    [related_concepts], with their raw score, and [total_score]. *)
Definition raw_scores (self : MathConceptHMM) (observations : list string)
           (state_sequence : list string)
  : result (list (string * Q * Q) * Q) :=
  let params := hmm_params self in
  foldM (fun '(related_concepts, total_score) concept =>
           row <- getitem (emission_matrix params) concept ;;
           let emission_score :=
             np_mean (map (fun obs => get_default row obs 1e-10) observations) in
           transition_score <- context_score params state_sequence concept ;;
           let score := emission_score * transition_score in
           c <- getitem (concepts (kb self)) concept ;;
           Ok (related_concepts ++ [(concept, score, difficulty c)],
               total_score + score))
        (states params) ([], 0).

(** [concept['probability'] /= total_score] for every entry. *)
Definition normalize (raw : list (string * Q * Q)) (total_score : Q)
  : list RelatedConcept :=
  map (fun '(concept, score, d) =>
         {| rc_concept := concept;
            rc_probability := np_div score total_score;
            rc_difficulty := d |}) raw.

Definition list_str_eqb (a b : list string) : bool :=
  if list_eq_dec string_dec a b then true else false.

(** [MathConceptHMM.analyze_question]. *)
Definition analyze_question (env : PyEnv) (self : MathConceptHMM)
           (question : string) : result Analysis :=
  let observations := _extract_observations env self (str_lower env question) in
  match observations with
  | [] => Ok (NoMatch "No relevant patterns found in question" [])
  | _ =>
    if list_str_eqb observations ["operand"] then
      Ok (Match "basic_arithmetic" 1.0 []
                [{| rc_concept := "basic_arithmetic";
                    rc_probability := Fin 1.0;
                    rc_difficulty := 0.2 |}]
                observations)
    else
      '(prob, state_sequence) <- viterbi self observations ;;
      final_concept <- index_last state_sequence ;;
      c <- getitem (concepts (kb self)) final_concept ;;
      let prerequisites := prerequisites c in
      '(raw, total_score) <- raw_scores self observations state_sequence ;;
      let related_concepts := normalize raw total_score in
      let related_concepts := sort_desc rc_probability related_concepts in
      Ok (Match final_concept prob prerequisites related_concepts observations)
  end.


(** ** The reference model and small concept tables used as test inputs *)

Definition empty_params : HMMParams :=
  {| states := []; observations := []; start_probabilities := [];
     transition_matrix := []; emission_matrix := [] |}.

(** The value of a computation known to succeed. *)
Definition built (r : result MathConceptHMM) : MathConceptHMM :=
  match r with
  | Ok h => h
  | Raise _ =>
      {| kb := {| concepts := []; network := [] |}; hmm_params := empty_params;
         patterns := []; special_patterns := [] |}
  end.

(** The model the application builds at start-up. *)
Definition reference_model : MathConceptHMM :=
  built (MathKnowledgeBase_init ascii_env _initialize_concepts).

Definition mk_concept (name : string) (keywords prerequisites : list string)
           (difficulty probability : Q) : Concept :=
  {| name := name; keywords := keywords; prerequisites := prerequisites;
     difficulty := difficulty; probability := probability;
     template_params := [] |}.

(** ** Notions of the design document *)

(** [c] lists [p] among its prerequisites. *)
Definition requires (table : dict Concept) (c p : string) : Prop :=
  exists concept, get table c = Some concept /\ In p (prerequisites concept).

(** The prerequisite relation has a cycle: some concept is reached from
    itself along one or more prerequisite edges. *)
Definition cyclic (table : dict Concept) : Prop :=
  exists c, clos_trans string (requires table) c c.

(** Two concepts, each the prerequisite of the other. *)
Definition cyclic_table : dict Concept :=
  [ ("a", mk_concept "a" ["alpha"] ["b"] 0.5 0.5);
    ("b", mk_concept "b" ["beta"] ["a"] 0.5 0.5) ].

(** The keywords of [concept] span the whole vocabulary. *)
Definition covers_vocabulary (env : PyEnv) (table : dict Concept)
           (concept : Concept) : Prop :=
  forall o, In o (vocabulary env table) -> In o (keywords concept).

(** Two concepts with the same single keyword: the vocabulary is that
    keyword, and each concept covers it. *)
Definition shared_keyword_table : dict Concept :=
  [ ("a", mk_concept "a" ["k"] [] 0.5 0.5);
    ("b", mk_concept "b" ["k"] ["a"] 0.5 0.5) ].

(** No non-keyword emission entry divides by zero: the divisor
    [len(observations) - len(concept.keywords)] is evaluated only for a
    vocabulary symbol that is not a keyword of the concept. *)
Definition emission_divisors_nonzero (env : PyEnv) (table : dict Concept) : Prop :=
  forall c concept o,
    get table c = Some concept ->
    In o (vocabulary env table) -> ~ In o (keywords concept) ->
    len (vocabulary env table) <> len (keywords concept).

(** The tie-break the design document asks of the decoder: among the
    candidates with the maximal value, the one met first in state order. *)
Definition earliest_argmax (cands : list (Q * string)) : option (Q * string) :=
  match cands with
  | [] => None
  | x :: l =>
      Some (fold_left (fun best item =>
                         if gt (fst item) (fst best) then item else best) l x)
  end.

(** Two concepts [a] and [b] with the same parameters, both prerequisites of
    a third concept [c] with a small prior. *)
Definition tie_table : dict Concept :=
  [ ("a", mk_concept "a" ["ka"] [] 0.5 1.0);
    ("b", mk_concept "b" ["kb"] [] 0.5 1.0);
    ("c", mk_concept "c" ["kc"] ["a"; "b"] 0.5 0.1) ].

Definition tie_model : MathConceptHMM :=
  built (MathKnowledgeBase_init ascii_env tie_table).

(** The tables of a model are indexed by its states. *)
Definition well_built (params : HMMParams) : Prop :=
  NoDup (states params)
  /\ keys (start_probabilities params) = states params
  /\ keys (transition_matrix params) = states params
  /\ (forall s row, get (transition_matrix params) s = Some row ->
                    keys row = states params)
  /\ keys (emission_matrix params) = states params.

(** What the loop of [viterbi] maintains when it enters step [t]: [V] has
    [t] entries, the last of them and [path] are indexed by the states, and
    every path is a non-empty list of states. *)
Definition viterbi_invariant (params : HMMParams)
           (acc : list (dict Q) * dict (list string)) (t : nat) : Prop :=
  List.length (fst acc) = t
  /\ (exists V_prev, index (fst acc) (t - 1) = Ok V_prev
                     /\ keys V_prev = states params)
  /\ keys (snd acc) = states params
  /\ forall s p, get (snd acc) s = Some p ->
                 p <> [] /\ Forall (fun x => In x (states params)) p.

(** The invariants of the data model: keywords form a set, difficulty and
    probability prior lie in [[0, 1]]. *)
Definition well_formed (concept : Concept) : Prop :=
  NoDup (keywords concept)
  /\ (0 <= difficulty concept <= 1)%Q
  /\ (0 <= probability concept <= 1)%Q.


(** A numpy scalar that is an infinity or NaN. *)
Definition non_finite (x : float64) : Prop :=
  match x with
  | Fin _ => False
  | _ => True
  end.

(** A table in which a keyword is listed three times: the keyword list of
    [alpha] is longer than the vocabulary, its non-keyword emission is
    negative, and the raw scores of the question ["two"] cancel. *)
Definition zero_sum_table : dict Concept :=
  [ ("alpha", mk_concept "alpha" ["one"; "one"; "one"] [] 0.5 1.0);
    ("beta", mk_concept "beta" ["two"] ["alpha"] 0.5 0.5) ].

Definition zero_sum_model : MathConceptHMM :=
  built (MathKnowledgeBase_init ascii_env zero_sum_table).

(** ** Decision procedures for the side conditions of the examples *)

Fixpoint nodupb (l : list string) : bool :=
  match l with
  | [] => true
  | x :: l' => negb (str_in x l') && nodupb l'
  end.

Definition well_formedb (concept : Concept) : bool :=
  nodupb (keywords concept)
  && Qle_bool 0 (difficulty concept) && Qle_bool (difficulty concept) 1
  && Qle_bool 0 (probability concept) && Qle_bool (probability concept) 1.

(** The concept stored under [c]. *)
Definition concept_of (table : dict Concept) (c : string) : Concept :=
  match get table c with
  | Some concept => concept
  | None => mk_concept c [] [] 0 0
  end.

Definition tie_observations : list string := ["equation"; "inequality"].

(** [V[0]] and [path] when the loop of [viterbi] is entered on
    [tie_observations], and what its first step returns. *)
Definition tie_V0 : dict Q :=
  match viterbi_init (hmm_params tie_model) tie_observations with
  | Ok V0 => V0
  | Raise _ => []
  end.

Definition tie_path0 : dict (list string) :=
  map (fun state => (state, [state])) (states (hmm_params tie_model)).

Definition tie_step : list (dict Q) * dict (list string) :=
  match viterbi_step (hmm_params tie_model) tie_observations
                     ([tie_V0], tie_path0) 1 with
  | Ok acc => acc
  | Raise _ => ([], [])
  end.


From Stdlib Require DecimalString.


(** ** Further notions used to describe the code *)

(** The entries of [table] from the one that defines [p] on. *)
Fixpoint from_key (p : string) (table : dict Concept) : dict Concept :=
  match table with
  | [] => []
  | (c, concept) :: table' =>
      if String.eqb c p then table else from_key p table'
  end.

(** The part of the table whose concepts can be recorded as children of
    [p]: the entries from the definition of [p] on, every entry when [p] is
    not a concept. *)
Definition since (p : string) (table : dict Concept) : dict Concept :=
  if str_in p (keys table) then from_key p table else table.

(** Every prerequisite that is itself a concept is defined, in the table,
    before the concepts that list it. *)
Fixpoint prerequisites_first (table : dict Concept) : Prop :=
  match table with
  | [] => True
  | (c, concept) :: table' =>
      (forall p, In p (prerequisites concept) -> ~ In p (c :: keys table'))
      /\ prerequisites_first table'
  end.

(** ** The joint probability the decoder maximises *)

(** The entries the decoder reads, [0] where a table has no entry. *)
Definition start_value (params : HMMParams) (s : string) : Q :=
  get_default (start_probabilities params) s 0.

Definition transition_value (params : HMMParams) (a b : string) : Q :=
  match transition params a b with
  | Ok v => v
  | Raise _ => 0
  end.

Definition emission_value (params : HMMParams) (s o : string) : Q :=
  match emission params s o with
  | Ok v => v
  | Raise _ => 0
  end.

(** The joint probability of the first [t + 1] states of [path] and the
    first [t + 1] observations: the start probability and the emission of
    the first state, then one transition and one emission per step,
    multiplied from the left as the decoder does. *)
Fixpoint path_probability (params : HMMParams) (observations path : list string)
         (t : nat) : Q :=
  match t with
  | O => start_value params (nth 0 path "")
         * emission_value params (nth 0 path "") (nth 0 observations "")
  | S t' => path_probability params observations path t'
            * transition_value params (nth t' path "") (nth t path "")
            * emission_value params (nth t path "") (nth t observations "")
  end.

(** What the loop of [viterbi] has computed when it enters step [t]: for
    every state, [V[t-1]] holds the probability of the stored path, which has
    [t] states, ends in that state, and is at least as probable as any other
    state sequence ending there. *)
Definition optimal_invariant (params : HMMParams) (observations : list string)
           (acc : list (dict Q) * dict (list string)) (t : nat) : Prop :=
  List.length (fst acc) = t
  /\ exists V_prev,
      index (fst acc) (t - 1) = Ok V_prev
      /\ forall s, In s (states params) ->
           exists v p,
             get V_prev s = Some v /\ get (snd acc) s = Some p
             /\ List.length p = t
             /\ Forall (fun x => In x (states params)) p
             /\ nth (t - 1) p "" = s
             /\ v = path_probability params observations p (t - 1)
             /\ forall p', Forall (fun x => In x (states params)) p' ->
                           (t <= List.length p')%nat ->
                           nth (t - 1) p' "" = s ->
                           (path_probability params observations p' (t - 1) <= v)%Q.

(** ** Another interpreter: sets iterated in the reverse order *)

Definition rev_env : PyEnv :=
  {| re_search := Re.search;
     str_lower := Re.lower;
     set_iter := fun l => rev (nodup string_dec l);
     set_iter_NoDup := fun l => NoDup_rev (NoDup_nodup string_dec l);
     set_iter_In := fun l x =>
       iff_trans (iff_sym (in_rev (nodup string_dec l) x))
                 (nodup_In string_dec l x) |}.

(** The reference model as that interpreter builds it. *)
Definition reversed_model : MathConceptHMM :=
  built (MathKnowledgeBase_init rev_env _initialize_concepts).

(** The main concept of a successful analysis. *)
Definition main_concept_of (r : result Analysis) : option string :=
  match r with
  | Ok (Match main_concept _ _ _ _) => Some main_concept
  | _ => None
  end.

(** ** Whole-word occurrences *)

(** The character before the position reached after reading [l], when the
    character before [l] is [prev]. *)
Definition last_char (prev : option ascii) (l : list ascii) : option ascii :=
  fold_left (fun _ a => Some a) l prev.

(** [\b] holds between [prev] and [next]: exactly one of them is a word
    character. *)
Definition word_boundary (prev next : option ascii) : bool :=
  xorb (Re.is_word_opt prev) (Re.is_word_opt next).

(** Equality of characters up to ASCII case. *)
Definition same_letter (a c : ascii) : bool :=
  Ascii.eqb (Re.lower_ascii a) (Re.lower_ascii c).

(** [text] is [pre ++ m ++ post] where [m] is the keyword [k] up to case,
    with a word boundary on each side of [m]. *)
Definition whole_word (k : string) (text : string) : Prop :=
  exists pre m post,
    list_ascii_of_string text = pre ++ m ++ post
    /\ Forall2 (fun a c => same_letter a c = true) m (list_ascii_of_string k)
    /\ word_boundary (last_char None pre) (hd_error (m ++ post)) = true
    /\ word_boundary (last_char None (pre ++ m)) (hd_error post) = true.

(** ** Inputs of the further examples *)

(** The decision procedure for [prerequisites_first]. *)
Fixpoint prerequisites_firstb (table : dict Concept) : bool :=
  match table with
  | [] => true
  | (c, concept) :: table' =>
      forallb (fun p => negb (str_in p (c :: keys table')))
              (prerequisites concept)
      && prerequisites_firstb table'
  end.

(** Two concepts listing a prerequisite, [ghost], that is not a concept. *)
Definition dangling_table : dict Concept :=
  [ ("a", mk_concept "a" ["alpha"] ["ghost"] 0.5 0.5);
    ("b", mk_concept "b" ["beta"] ["a"; "ghost"] 0.5 0.5) ].

(** The model built from the empty table. *)
Definition empty_model : MathConceptHMM :=
  built (MathKnowledgeBase_init ascii_env []).








(** The emission row of [basic_arithmetic] in the reference model. *)
Definition arithmetic_row : dict Q :=
  get_default (emission_matrix (hmm_params reference_model))
              "basic_arithmetic" [].

(** ** [backend/app.py]: the practice-test generator *)

(** A floating-point expression, as the source writes it over the integer
    parameters.  The generator only prints floats; what a printed float looks
    like is left to the interpreter ([PyLib]). *)
Inductive fexpr : Type :=
| FInt (z : Z)              (* an [int] operand *)
| FPi                       (* [math.pi] *)
| FDiv (x y : fexpr)        (* [x / y], [y] not zero *)
| FMul (x y : fexpr)
| FAdd (x y : fexpr)
| FSub (x y : fexpr)
| FPowHalf (x : fexpr)      (* [x ** 0.5] *)
| FRadians (x : fexpr)      (* [math.radians(x)] *)
| FSin (x : fexpr)
| FCos (x : fexpr)
| FTan (x : fexpr).

(** What the generator needs of the interpreter: the pseudo-random draws,
    read one after the other from a tape, and the two renderings of a
    float, [f"{x:.2f}"] and [f"{x}"]. *)
Record PyLib : Type := {
  draws : nat -> nat;
  fmt2 : fexpr -> string;
  fstr : fexpr -> string
}.

(** [random.randint(a, b)] at position [i] of the tape: [ValueError] on an
    empty range. *)
Definition randint (lib : PyLib) (a b : Z) (i : nat) : result (Z * nat) :=
  if (b <? a)%Z then Raise ValueError
  else Ok ((a + Z.of_nat (draws lib i) mod (b - a + 1))%Z, S i).

(** [random.choice(seq)]: [IndexError] on an empty sequence. *)
Definition choice {A} (lib : PyLib) (seq : list A) (i : nat) : result (A * nat) :=
  match nth_error seq (draws lib i mod List.length seq) with
  | Some x => Ok (x, S i)
  | None => Raise IndexError
  end.

(** [str(z)] for an [int]. *)
Definition str_int (z : Z) : string :=
  DecimalString.NilZero.string_of_int (Z.to_int z).

(** [needle in hay] on [str]. *)
Fixpoint str_contains (needle hay : string) : bool :=
  String.prefix needle hay
  || match hay with
     | EmptyString => false
     | String _ hay' => str_contains needle hay'
     end.

(** The dict built by [_generate_parameters]: the integers drawn for the
    template parameters, in insertion order, and for [basic_arithmetic] the
    operator stored under ['op'] (it replaces a drawn parameter of that
    name). *)
Record Params : Type := {
  numbers : dict Z;
  op : option string
}.

(** [k in params]. *)
Definition param_in (params : Params) (k : string) : bool :=
  contains (numbers params) k
  || (String.eqb k "op" && match op params with Some _ => true | None => false end).

(** [str(params[k])], as a replacement field prints it. *)
Definition param_str (params : Params) (k : string) : result string :=
  match (if String.eqb k "op" then op params else None) with
  | Some s => Ok s
  | None => z <- getitem (numbers params) k ;; Ok (str_int z)
  end.

(** [template.format], applied to the parameter dict as keyword
    arguments, for templates whose replacement fields are
    plain names between braces, as all templates of the source are: the
    text is read from the left, [field] holding the name being read inside
    a field. *)
Fixpoint format_from (template : string) (field : option string)
         (params : Params) : result string :=
  match template with
  | EmptyString =>
      match field with
      | None => Ok EmptyString
      | Some _ => Raise ValueError
      end
  | String c rest =>
      match field with
      | None =>
          if Ascii.eqb c "{" then format_from rest (Some EmptyString) params
          else if Ascii.eqb c "}" then Raise ValueError
          else s <- format_from rest None params ;; Ok (String c s)
      | Some name =>
          if Ascii.eqb c "}" then
            v <- param_str params name ;;
            s <- format_from rest None params ;;
            Ok (v ++ s)%string
          else format_from rest (Some (name ++ String c EmptyString)%string) params
      end
  end.

Definition format (template : string) (params : Params) : result string :=
  format_from template None params.

(** [PracticeTestGenerator._initialize_templates]. *)
Definition _initialize_templates : dict (list string) :=
  [ ("basic_arithmetic",
     [ "Calculate {a} {op} {b}";
       "What is the result of {a} {op} {b}?";
       "Evaluate the expression: {a} {op} {b}" ]);
    ("linear_equations",
     [ "Solve for x: {a}x + {b} = {c}";
       "Find x: {a}x = {b}";
       "What value of x satisfies {a}x + {b} = {c}?" ]);
    ("quadratic_equations",
     [ "Solve the quadratic equation: {a}x² + {b}x + {c} = 0";
       "Find the roots of {a}x² + {b}x + {c} = 0";
       "Determine the values of x: {a}x² + {b}x = {-c}" ]);
    ("geometry_basics",
     [ "Find the area of a rectangle with width {width} and height {height}";
       "Calculate the circumference of a circle with radius {radius}";
       "What is the perimeter of a square with side length {side}?" ]);
    ("trigonometry",
     [ "Find sin({angle}°) to 2 decimal places";
       "In a right triangle with hypotenuse {c} and angle {angle}°, find the opposite side";
       "Calculate tan({angle}°) to 2 decimal places" ]);
    ("derivatives",
     [ "Find d/dx [{a}x^{n} + {b}x]";
       "Calculate the derivative of {a}x^{n} + {b}x";
       "What is the slope of the tangent line to f(x) = {a}x^{n} at x = {b}?" ]);
    ("integrals",
     [ "Evaluate ∫({a}x^{n} + {b})dx";
       "Calculate the definite integral of {a}x^{n} from 0 to {b}";
       "Find ∫[{a}x^{n} - {b}x]dx" ]) ].

(** [x / y] printed with two decimals, for [int] operands. *)
Definition quotient2 (lib : PyLib) (x y : Z) : result string :=
  if (y =? 0)%Z then Raise ZeroDivisionError
  else Ok (fmt2 lib (FDiv (FInt x) (FInt y))).

(** [PracticeTestGenerator._generate_answer]. *)
Definition _generate_answer (lib : PyLib) (template : string) (params : Params)
           (concept : string) : result string :=
  let num := getitem (numbers params) in
  let solution_process_required := Ok "Solution process required" in
  if String.eqb concept "basic_arithmetic" then
    if param_in params "op" then
      match op params with
      | Some o =>
          if String.eqb o "+" then
            a <- num "a" ;; b <- num "b" ;; Ok (str_int (a + b))
          else if String.eqb o "-" then
            a <- num "a" ;; b <- num "b" ;; Ok (str_int (a - b))
          else if String.eqb o "*" then
            a <- num "a" ;; b <- num "b" ;; Ok (str_int (a * b))
          else if String.eqb o "/" then
            a <- num "a" ;; b <- num "b" ;; quotient2 lib a b
          else solution_process_required
      | None => solution_process_required
      end
    else solution_process_required
  else if String.eqb concept "linear_equations" then
    if str_contains "Solve" template then
      c <- num "c" ;; b <- num "b" ;; a <- num "a" ;;
      q <- quotient2 lib (c - b) a ;; Ok ("x = " ++ q)%string
    else if str_contains "Find" template then
      b <- num "b" ;; a <- num "a" ;;
      q <- quotient2 lib b a ;; Ok ("x = " ++ q)%string
    else if str_contains "value" template then
      c <- num "c" ;; b <- num "b" ;; a <- num "a" ;;
      q <- quotient2 lib (c - b) a ;; Ok ("x = " ++ q)%string
    else solution_process_required
  else if String.eqb concept "quadratic_equations" then
    a <- num "a" ;; b <- num "b" ;; c <- num "c" ;;
    let disc := (b ^ 2 - 4 * a * c)%Z in
    if (disc <? 0)%Z then Ok "No real solutions"
    else if (disc =? 0)%Z then
      q <- quotient2 lib (- b) (2 * a) ;; Ok ("x = " ++ q)%string
    else if (2 * a =? 0)%Z then Raise ZeroDivisionError
    else
      let x1 := FDiv (FAdd (FInt (- b)) (FPowHalf (FInt disc))) (FInt (2 * a)) in
      let x2 := FDiv (FSub (FInt (- b)) (FPowHalf (FInt disc))) (FInt (2 * a)) in
      Ok ("x = " ++ fmt2 lib x1 ++ " or x = " ++ fmt2 lib x2)%string
  else if String.eqb concept "geometry_basics" then
    if param_in params "width" && param_in params "height" then
      width <- num "width" ;; height <- num "height" ;;
      Ok (str_int (width * height))
    else if param_in params "radius" then
      radius <- num "radius" ;;
      Ok (fmt2 lib (FMul (FMul (FInt 2) FPi) (FInt radius)))
    else if param_in params "side" then
      side <- num "side" ;; Ok (str_int (4 * side))
    else solution_process_required
  else if String.eqb concept "trigonometry" then
    if param_in params "angle" then
      angle <- num "angle" ;;
      let angle_rad := FRadians (FInt angle) in
      if str_contains "sin" template then Ok (fmt2 lib (FSin angle_rad))
      else if str_contains "cos" template then Ok (fmt2 lib (FCos angle_rad))
      else if str_contains "tan" template then Ok (fmt2 lib (FTan angle_rad))
      else if param_in params "c" && param_in params "angle" then
        angle <- num "angle" ;;
        c <- num "c" ;;
        Ok (fmt2 lib (FMul (FInt c) (FSin (FRadians (FInt angle)))))
      else solution_process_required
    else solution_process_required
  else if String.eqb concept "derivatives" then
    if param_in params "a" && param_in params "n" then
      a <- num "a" ;; n <- num "n" ;; n' <- num "n" ;; b <- num "b" ;;
      Ok (str_int (a * n) ++ "x^" ++ str_int (n' - 1) ++ " + " ++ str_int b)%string
    else solution_process_required
  else if String.eqb concept "integrals" then
    if param_in params "a" && param_in params "n" then
      a <- num "a" ;; n <- num "n" ;;
      if (n + 1 =? 0)%Z then Raise ZeroDivisionError
      else
        n' <- num "n" ;; b <- num "b" ;;
        Ok ("(" ++ fstr lib (FDiv (FInt a) (FInt (n + 1))) ++ "x^"
            ++ str_int (n' + 1) ++ " + " ++ str_int b ++ "x) + C")%string
    else solution_process_required
  else solution_process_required.

(** [PracticeTestGenerator._generate_parameters], from position [i] of the
    tape. *)
Definition _generate_parameters (lib : PyLib) (table : dict Concept)
           (concept : string) (i : nat) : result (Params * nat) :=
  concept_data <- getitem table concept ;;
  '(numbers, i) <-
    foldM (fun '(numbers, i) '(param, range_vals) =>
             match range_vals with
             | [min_val; max_val] =>
                 '(v, i) <- randint lib min_val max_val i ;;
                 Ok (set numbers param v, i)
             | _ => Raise ValueError
             end)
          (template_params concept_data) ([], i) ;;
  if String.eqb concept "basic_arithmetic" then
    '(o, i) <- choice lib ["+"; "-"; "*"; "/"] i ;;
    Ok ({| numbers := numbers; op := Some o |}, i)
  else Ok ({| numbers := numbers; op := None |}, i).

Record TestQuestion : Type := {
  tq_question : string;
  tq_concept : string;
  tq_prerequisites : list string;
  tq_expected_answer : string;
  tq_template_used : string
}.

(** An entry of ['questions'] in the returned dict. *)
Record QuestionDict : Type := {
  qd_question : string;
  qd_concept : string;
  qd_prerequisites : list string;
  qd_expected_answer : string
}.

(** The dict [PracticeTestGenerator.generate_practice_test] returns. *)
Record PracticeTest : Type := {
  pt_concept : string;
  pt_num_questions : Z;
  pt_includes_prerequisites : bool;
  pt_questions : list QuestionDict;
  pt_concepts_covered : list string
}.

(** The [for prereq in ...] loop: a prerequisite not yet listed is appended. *)
Definition add_prerequisites (concepts_to_cover prereqs : list string)
  : list string :=
  fold_left (fun cover prereq =>
               if str_in prereq cover then cover else cover ++ [prereq])
            prereqs concepts_to_cover.

(** The [while] loop that collects the prerequisites, run for at most
    [fuel] iterations; [None] when the loop has not ended by then. *)
Fixpoint collect_prerequisites (fuel : nat) (table : dict Concept)
         (current : string) (concepts_to_cover : list string)
  : result (option (list string)) :=
  concept <- getitem table current ;;
  match prerequisites concept with
  | [] => Ok (Some concepts_to_cover)
  | first :: _ =>
      match fuel with
      | O => Ok None
      | S fuel' =>
          collect_prerequisites fuel' table first
            (add_prerequisites concepts_to_cover (prerequisites concept))
      end
  end.

(** [sum(d.values())] on integers. *)
Definition sum_Z (l : list Z) : Z := fold_left Z.add l 0%Z.

(** [questions_per_concept], after the adjustment of the main concept. *)
Definition questions_per_concept (concept : string) (num_questions : Z)
           (concepts_to_cover : list string) : result (dict Z) :=
  let total_concepts := len concepts_to_cover in
  per_concept <-
    dict_for concepts_to_cover (fun c =>
      if (total_concepts =? 0)%Z then Raise ZeroDivisionError
      else Ok (Z.max 2 (num_questions / total_concepts))) ;;
  own <- getitem per_concept concept ;;
  Ok (set per_concept concept
          (own + (num_questions - sum_Z (values per_concept)))%Z).

(** One pass of the innermost loop: [None] when the template names a
    parameter that was not generated and the question is skipped. *)
Definition generate_question (lib : PyLib) (table : dict Concept)
           (templates : dict (list string)) (c : string) (i : nat)
  : result (option TestQuestion * nat) :=
  choices <- getitem templates c ;;
  '(template, i) <- choice lib choices i ;;
  '(params, i) <- _generate_parameters lib table c i ;;
  match format template params with
  | Raise KeyError => Ok (None, i)
  | Raise e => Raise e
  | Ok question =>
      answer <- _generate_answer lib template params c ;;
      concept <- getitem table c ;;
      Ok (Some {| tq_question := question;
                  tq_concept := c;
                  tq_prerequisites := prerequisites concept;
                  tq_expected_answer := answer;
                  tq_template_used := template |}, i)
  end.

(** [for c in concepts_to_cover: for _ in range(num): ...]. *)
Definition generate_questions (lib : PyLib) (table : dict Concept)
           (templates : dict (list string)) (counts : dict Z)
           (concepts_to_cover : list string) (i : nat)
  : result (list TestQuestion * nat) :=
  foldM (fun '(test_questions, i) c =>
           num <- getitem counts c ;;
           foldM (fun '(test_questions, i) _ =>
                    '(q, i) <- generate_question lib table templates c i ;;
                    match q with
                    | Some q => Ok (test_questions ++ [q], i)
                    | None => Ok (test_questions, i)
                    end)
                 (seq 0 (Z.to_nat num)) (test_questions, i))
        concepts_to_cover ([], i).

(** [PracticeTestGenerator.generate_practice_test]; [None] when the
    prerequisite loop has not ended within [fuel] iterations. *)
Definition generate_practice_test (fuel : nat) (lib : PyLib)
           (table : dict Concept) (templates : dict (list string))
           (concept : string) (num_questions : Z) (include_prerequisites : bool)
           (i : nat) : result (option (PracticeTest * nat)) :=
  cover <- (if include_prerequisites
            then collect_prerequisites fuel table concept [concept]
            else Ok (Some [concept])) ;;
  match cover with
  | None => Ok None
  | Some concepts_to_cover =>
      counts <- questions_per_concept concept num_questions concepts_to_cover ;;
      '(test_questions, i) <-
        generate_questions lib table templates counts concepts_to_cover i ;;
      Ok (Some ({| pt_concept := concept;
                   pt_num_questions := len test_questions;
                   pt_includes_prerequisites := include_prerequisites;
                   pt_questions :=
                     map (fun q => {| qd_question := tq_question q;
                                      qd_concept := tq_concept q;
                                      qd_prerequisites := tq_prerequisites q;
                                      qd_expected_answer := tq_expected_answer q |})
                         test_questions;
                   pt_concepts_covered := concepts_to_cover |}, i))
  end.

(** The dict [MathKnowledgeBase.generate_practice_test] returns. *)
Record PracticeTests : Type := {
  tests : list PracticeTest;
  total_questions : Z;
  concepts_covered : list string
}.

(** [MathKnowledgeBase.generate_practice_test].  The generator is called
    without prerequisites, so its loop is not entered and no fuel is
    needed. *)
Definition kb_generate_practice_test (lib : PyLib) (table : dict Concept)
           (templates : dict (list string)) (concepts : list string)
           (num_questions : Z) (i : nat)
  : result (option (PracticeTests * nat)) :=
  match concepts with
  | [] => Raise ValueError
  | top_concept :: _ =>
      r <- generate_practice_test 0 lib table templates top_concept
                                  num_questions false i ;;
      match r with
      | None => Ok None
      | Some (test, i) =>
          concept <- getitem table top_concept ;;
          Ok (Some ({| tests := [test];
                       total_questions := pt_num_questions test;
                       concepts_covered :=
                         top_concept :: prerequisites concept |}, i))
      end
  end.

(** ** Notions used to describe the generator *)

(** Every prerequisite listed in the table is a concept of the table. *)
Definition closed (table : dict Concept) : Prop :=
  forall c concept p,
    get table c = Some concept -> In p (prerequisites concept) ->
    In p (keys table).

Definition closedb (table : dict Concept) : bool :=
  forallb (fun concept =>
             forallb (fun p => str_in p (keys table)) (prerequisites concept))
          (values table).

(** What [format] does with a template when only the names of the available
    parameters are known: [None] when it returns a text, the exception
    otherwise. *)
Fixpoint format_outcome (template : string) (field : option string)
         (available : string -> bool) : option exn :=
  match template with
  | EmptyString =>
      match field with
      | None => None
      | Some _ => Some ValueError
      end
  | String c rest =>
      match field with
      | None =>
          if Ascii.eqb c "{" then format_outcome rest (Some EmptyString) available
          else if Ascii.eqb c "}" then Some ValueError
          else format_outcome rest None available
      | Some name =>
          if Ascii.eqb c "}" then
            if available name then format_outcome rest None available
            else Some KeyError
          else format_outcome rest (Some (name ++ String c EmptyString)%string)
                              available
      end
  end.

(** The two templates of the source that name a parameter their concept
    does not have. *)
Definition dead_templates : list (string * string) :=
  [ ("quadratic_equations",
     "Determine the values of x: {a}x² + {b}x = {-c}");
    ("trigonometry",
     "In a right triangle with hypotenuse {c} and angle {angle}°, find the opposite side") ].

(** An interpreter for the examples: every draw is [10], floats are printed
    as a fixed text. *)
Definition constant_lib : PyLib :=
  {| draws := fun _ => 10%nat;
     fmt2 := fun _ => "0.00";
     fstr := fun _ => "0.0" |}.

(** The count a concept other than the main one receives. *)
Definition share (num_questions : Z) (concepts_to_cover : list string) : Z :=
  Z.max 2 (num_questions / len concepts_to_cover).

(** ** Inputs of the generator examples *)

(** The value of a computation known to succeed. *)
Definition parameters_of (r : result (Params * nat)) : Params * nat :=
  match r with
  | Ok p => p
  | Raise _ => ({| numbers := []; op := None |}, 0%nat)
  end.


(** The parameters drawn for [basic_arithmetic] and for [trigonometry], and
    the question generated for [geometry_basics], from the start of the
    tape of [constant_lib]. *)
Definition arithmetic_parameters : Params * nat :=
  parameters_of (_generate_parameters constant_lib _initialize_concepts
                                      "basic_arithmetic" 0).

Definition trigonometry_parameters : Params * nat :=
  parameters_of (_generate_parameters constant_lib _initialize_concepts
                                      "trigonometry" 0).


(** A request for four questions on [derivatives]. *)
Definition derivatives_request : result (option (PracticeTests * nat)) :=
  kb_generate_practice_test constant_lib _initialize_concepts
                            _initialize_templates ["derivatives"; "integrals"]
                            4 0.

(** An interpreter whose draws are all [0], and the test it gives for the
    default request (ten questions, prerequisites included) on
    [integrals]. *)
Definition zero_lib : PyLib :=
  {| draws := fun _ => 0%nat;
     fmt2 := fun _ => "0.00";
     fstr := fun _ => "0.0" |}.

Definition test_of (r : result (option (PracticeTest * nat)))
  : PracticeTest * nat :=
  match r with
  | Ok (Some p) => p
  | _ => ({| pt_concept := EmptyString; pt_num_questions := 0;
             pt_includes_prerequisites := false; pt_questions := [];
             pt_concepts_covered := [] |}, 0%nat)
  end.

Definition integrals_test : PracticeTest * nat :=
  test_of (generate_practice_test (List.length _initialize_concepts) zero_lib
                                  _initialize_concepts _initialize_templates
                                  "integrals" 10 true 0).

(** * Properties *)

(** ** The runtime: exceptions, loops and dicts *)

Lemma bind_Ok {A B} (m : result A) (f : A -> result B) (b : B) :
  bind m f = Ok b -> exists a, m = Ok a /\ f a = Ok b.
Proof. destruct m as [a|e]; simpl; [eauto | discriminate]. Qed.

Lemma bind_Raise {A B} (m : result A) (f : A -> result B) (e : exn) :
  bind m f = Raise e -> m = Raise e \/ exists a, m = Ok a /\ f a = Raise e.
Proof. destruct m as [a|e']; simpl; [eauto | intros [= ->]; auto]. Qed.

(** Decompose a hypothesis [x <- m ;; k = Ok r]. *)
Ltac inv_bind H :=
  let a := fresh "a" in
  let Ha := fresh "Ha" in
  apply bind_Ok in H; destruct H as (a & Ha & H).

Lemma mapM_Ok {A B} (f : A -> result B) (l : list A) (ys : list B) :
  mapM f l = Ok ys <-> Forall2 (fun x y => f x = Ok y) l ys.
Proof.
  revert ys; induction l as [|x l IH]; intros ys; simpl.
  - split; [intros [= <-]; constructor | inversion 1; reflexivity].
  - split.
    + intros H. inv_bind H. inv_bind H. injection H as <-.
      constructor; [assumption | now apply IH].
    + inversion 1 as [|? y ? ys' Hx Hl]; subst.
      rewrite Hx; simpl. apply IH in Hl. now rewrite Hl.
Qed.

Lemma mapM_total {A B} (f : A -> result B) (l : list A) :
  (forall x, In x l -> exists y, f x = Ok y) -> exists ys, mapM f l = Ok ys.
Proof.
  induction l as [|x l IH]; intros H; simpl; [eauto|].
  destruct (H x (or_introl eq_refl)) as (y & ->).
  destruct IH as (ys & ->); [intros; apply H; now right|].
  simpl; eauto.
Qed.

Lemma mapM_Raise {A B} (f : A -> result B) (l : list A) (e : exn) :
  mapM f l = Raise e -> exists x, In x l /\ f x = Raise e.
Proof.
  induction l as [|x l IH]; simpl; [discriminate|].
  intros H. apply bind_Raise in H as [H | (y & _ & H)]; [eauto|].
  apply bind_Raise in H as [H | (ys & _ & H)]; [|discriminate].
  destruct (IH H) as (x' & ? & ?); eauto.
Qed.

Lemma Forall2_In_l {A B} (R : A -> B -> Prop) l l' x :
  Forall2 R l l' -> In x l -> exists y, In y l' /\ R x y.
Proof.
  induction 1 as [|a b l l' Hab _ IH]; simpl; [tauto|].
  intros [<- | Hin]; [eauto|]. destruct (IH Hin) as (y & ? & ?); eauto.
Qed.

Lemma Forall2_In_r {A B} (R : A -> B -> Prop) l l' y :
  Forall2 R l l' -> In y l' -> exists x, In x l /\ R x y.
Proof.
  induction 1 as [|a b l l' Hab _ IH]; simpl; [tauto|].
  intros [<- | Hin]; [eauto|]. destruct (IH Hin) as (x & ? & ?); eauto.
Qed.

Lemma get_None {V} (d : dict V) k : get d k = None <-> ~ In k (keys d).
Proof.
  induction d as [|[k' v] d IH]; simpl; [tauto|].
  destruct (String.eqb_spec k' k); subst.
  - split; [discriminate | intros H; exfalso; auto].
  - rewrite IH. tauto.
Qed.

Lemma get_Some_In {V} (d : dict V) k v : get d k = Some v -> In (k, v) d.
Proof.
  induction d as [|[k' v'] d IH]; simpl; [discriminate|].
  destruct (String.eqb_spec k' k); subst; [intros [= ->]; auto | auto].
Qed.

Lemma In_get {V} (d : dict V) k v :
  NoDup (keys d) -> In (k, v) d -> get d k = Some v.
Proof.
  induction d as [|[k' v'] d IH]; simpl; [tauto|].
  intros Hnd [[= -> ->] | Hin]; [now rewrite String.eqb_refl|].
  inversion Hnd as [|? ? Hk' Hnd']; subst.
  destruct (String.eqb_spec k' k); subst; [|auto].
  exfalso; apply Hk'. apply (in_map fst) in Hin. exact Hin.
Qed.

Lemma In_keys_get {V} (d : dict V) k :
  In k (keys d) -> exists v, get d k = Some v.
Proof.
  intros H. destruct (get d k) eqn:E; [eauto|]. now apply get_None in E.
Qed.

Lemma set_fresh {V} (d : dict V) k v :
  ~ In k (keys d) -> set d k v = d ++ [(k, v)].
Proof.
  induction d as [|[k' v'] d IH]; simpl; [reflexivity|].
  intros H. destruct (String.eqb_spec k' k); subst; [tauto|].
  rewrite IH; tauto.
Qed.

Lemma get_set {V} (d : dict V) k v k' :
  get (set d k v) k' = if String.eqb k k' then Some v else get d k'.
Proof.
  induction d as [|[k0 v0] d IH]; simpl.
  - reflexivity.
  - destruct (String.eqb_spec k0 k); subst; simpl.
    + destruct (String.eqb_spec k k'); reflexivity.
    + rewrite IH. destruct (String.eqb_spec k0 k'); subst; [|reflexivity].
      destruct (String.eqb_spec k k'); congruence.
Qed.

Lemma keys_set {V} (d : dict V) k v :
  keys (set d k v) = if contains d k then keys d else keys d ++ [k].
Proof.
  unfold contains. induction d as [|[k0 v0] d IH]; simpl; [reflexivity|].
  destruct (String.eqb_spec k0 k); subst; simpl; [reflexivity|].
  rewrite IH. destruct (get d k); reflexivity.
Qed.

Lemma get_combine {V} (ks : list string) (vs : list V) (R : string -> V -> Prop) k :
  Forall2 R ks vs -> In k ks -> exists v, get (combine ks vs) k = Some v /\ R k v.
Proof.
  induction 1 as [|k0 v0 ks vs HR _ IH]; simpl; [tauto|].
  intros Hin. destruct (String.eqb_spec k0 k); subst; [eauto|].
  destruct Hin; [congruence | auto].
Qed.

Lemma keys_combine {V} (ks : list string) (vs : list V) :
  List.length ks = List.length vs -> keys (combine ks vs) = ks.
Proof.
  unfold keys.
  revert vs; induction ks as [|k ks IH]; intros [|v vs]; simpl; try discriminate;
    [reflexivity|]. intros [= H]. now rewrite IH.
Qed.

Lemma values_combine {V} (ks : list string) (vs : list V) :
  List.length ks = List.length vs -> values (combine ks vs) = vs.
Proof.
  unfold values.
  revert vs; induction ks as [|k ks IH]; intros [|v vs]; simpl; try discriminate;
    [reflexivity|]. intros [= H]. now rewrite IH.
Qed.

(** A loop that fills a dict from distinct keys builds the list of pairs. *)
Lemma fill_NoDup {A V} (key : A -> string) (f : A -> result V) (l : list A)
      (d0 : dict V) :
  NoDup (map key l) -> (forall x, In x l -> ~ In (key x) (keys d0)) ->
  foldM (fun d x => v <- f x ;; Ok (set d (key x) v)) l d0
  = (vs <- mapM f l ;; Ok (d0 ++ combine (map key l) vs)).
Proof.
  revert d0; induction l as [|x l IH]; intros d0 Hnd Hfresh; simpl.
  - now rewrite app_nil_r.
  - inversion Hnd as [|? ? Hx Hnd']; subst.
    destruct (f x) as [v|e]; simpl; [|reflexivity].
    rewrite IH; [|assumption|].
    + destruct (mapM f l) as [vs|e]; simpl; [|reflexivity].
      rewrite set_fresh by (apply Hfresh; now left).
      now rewrite <- app_assoc.
    + intros y Hy. rewrite keys_set.
      assert (Hne : key y <> key x)
        by (intros E; apply Hx; rewrite <- E; now apply in_map).
      destruct (contains d0 (key x)).
      * apply Hfresh; now right.
      * rewrite in_app_iff; simpl. intros [H | [H | []]]; [|congruence].
        revert H. apply Hfresh; now right.
Qed.

Lemma dict_for_NoDup {V} (ks : list string) (f : string -> result V) :
  NoDup ks ->
  dict_for ks f = (vs <- mapM f ks ;; Ok (combine ks vs)).
Proof.
  intros Hnd. unfold dict_for.
  rewrite (fill_NoDup (fun k => k) f ks []); rewrite ?map_id; auto.
Qed.

(** Reading a dict filled by [dict_for]. *)
Lemma dict_for_get {V} (ks : list string) (f : string -> result V) d k :
  NoDup ks -> dict_for ks f = Ok d -> In k ks ->
  exists v, get d k = Some v /\ f k = Ok v.
Proof.
  intros Hnd H Hin. rewrite dict_for_NoDup in H by assumption.
  inv_bind H. injection H as <-. apply mapM_Ok in Ha.
  exact (get_combine k Ha Hin).
Qed.

Lemma dict_for_keys {V} (ks : list string) (f : string -> result V) d :
  NoDup ks -> dict_for ks f = Ok d -> keys d = ks.
Proof.
  intros Hnd H. rewrite dict_for_NoDup in H by assumption.
  inv_bind H. injection H as <-. apply mapM_Ok in Ha.
  apply keys_combine. eapply Forall2_length; eauto.
Qed.

Lemma dict_for_total {V} (ks : list string) (f : string -> result V) :
  NoDup ks -> (forall k, In k ks -> exists v, f k = Ok v) ->
  exists d, dict_for ks f = Ok d.
Proof.
  intros Hnd H. rewrite dict_for_NoDup by assumption.
  destruct (mapM_total f ks H) as (vs & ->). simpl; eauto.
Qed.

Lemma dict_for_Raise {V} (ks : list string) (f : string -> result V) e :
  NoDup ks -> dict_for ks f = Raise e -> exists k, In k ks /\ f k = Raise e.
Proof.
  intros Hnd H. rewrite dict_for_NoDup in H by assumption.
  apply bind_Raise in H as [H | (vs & _ & H)]; [|discriminate].
  now apply mapM_Raise.
Qed.

(** ** The prerequisite network *)

Lemma add_child_get concept_name network prereq k :
  get (add_child concept_name network prereq) k
  = if String.eqb prereq k
    then Some match get network prereq with
              | Some node => {| children := children node ++ [concept_name];
                                parents := parents node |}
              | None => {| children := [concept_name]; parents := [] |}
              end
    else get network k.
Proof.
  unfold add_child. destruct (get network prereq); now rewrite get_set.
Qed.

(** Adding children never removes a node and never touches its parents. *)
Lemma add_children_keeps concept_name prereqs network k node :
  get network k = Some node ->
  exists node', get (fold_left (add_child concept_name) prereqs network) k
                = Some node' /\ parents node' = parents node.
Proof.
  revert network node; induction prereqs as [|p prereqs IH]; intros network node H;
    simpl; [eauto|].
  destruct (String.eqb_spec p k) as [->|Hne].
  - edestruct IH as (node' & Hg & Hp).
    + rewrite add_child_get, String.eqb_refl, H. reflexivity.
    + eauto.
  - apply IH. rewrite add_child_get.
    destruct (String.eqb_spec p k); [contradiction | assumption].
Qed.

Lemma network_invariant (table : dict Concept) (network : dict Node) :
  NoDup (keys table) ->
  forall concept_name concept,
    (In (concept_name, concept) table \/
     (~ In concept_name (keys table) /\
      exists node, get network concept_name = Some node
                   /\ parents node = prerequisites concept)) ->
    exists node, get (fold_left network_step table network) concept_name = Some node
                 /\ parents node = prerequisites concept.
Proof.
  revert network; induction table as [|[n c] table IH]; intros network Hnd cn cc H.
  - simpl. destruct H as [[] | (_ & H)]. exact H.
  - inversion Hnd as [|? ? Hn Hnd']; subst. simpl fold_left.
    apply IH; [assumption|].
    destruct H as [[[= -> ->] | Hin] | (Hnin & node & Hg & Hp)].
    + right. split; [assumption|].
      edestruct (add_children_keeps cn (prerequisites cc)) as (node' & Hg & Hp);
        [rewrite get_set, String.eqb_refl; reflexivity | ].
      eauto.
    + now left.
    + right. simpl in Hnin. split; [tauto|].
      destruct (add_children_keeps n (prerequisites c)
                  (set network n {| children := []; parents := prerequisites c |})
                  cn (node := node)) as (node' & Hg' & Hp').
      * rewrite get_set. destruct (String.eqb_spec n cn); [tauto | exact Hg].
      * exists node'. split; [exact Hg' | congruence].
Qed.

(** Every concept has a node; its parents are its prerequisite list. *)
Lemma _build_network_parents (table : dict Concept) network concept_name concept :
  NoDup (keys table) ->
  _build_network table = Ok network ->
  get table concept_name = Some concept ->
  exists node, get network concept_name = Some node
               /\ parents node = prerequisites concept.
Proof.
  intros Hnd H Hg. injection H as <-.
  apply network_invariant; [assumption|]. left. now apply get_Some_In.
Qed.

(** C2 (as the code has it).  Graph construction performs no cycle
    detection and raises no error: for every concept table, cyclic or not,
    [_build_network] succeeds and gives every concept a node whose parents
    are its prerequisite list. *)
Theorem build_network_accepts_every_table (table : dict Concept) :
  NoDup (keys table) ->
  exists network,
    _build_network table = Ok network
    /\ forall c concept,
        get table c = Some concept ->
        exists node, get network c = Some node
                     /\ parents node = prerequisites concept.
Proof.
  intros Hnd. eexists. split; [reflexivity|].
  intros c concept Hc. now apply (@_build_network_parents table _ c concept).
Qed.


(** ** Parameter construction *)

Lemma foldM_ext {A S} (f g : S -> A -> result S) l s :
  (forall s x, f s x = g s x) -> foldM f l s = foldM g l s.
Proof.
  intros H. revert s; induction l as [|x l IH]; intros s; simpl; [reflexivity|].
  rewrite H. destruct (g s x); simpl; auto.
Qed.

Lemma div_Ok x y v : div x y = Ok v -> Qeq_bool y 0 = false /\ v = x / y.
Proof.
  unfold div. destruct (Qeq_bool y 0); [discriminate | intros [= <-]; auto].
Qed.

Lemma div_nonzero x y : ~ y == 0 -> div x y = Ok (x / y).
Proof.
  intros H. unfold div. destruct (Qeq_bool y 0) eqn:E; [|reflexivity].
  apply Qeq_bool_eq in E. contradiction.
Qed.

Lemma div_zero x y : y == 0 -> div x y = Raise ZeroDivisionError.
Proof.
  intros H. unfold div. now rewrite (Qeq_eq_bool _ _ H).
Qed.

Lemma start_loop (table : dict Concept) (total_prob : Q) (d : dict Q) :
  NoDup (keys table) ->
  foldM (fun d '(name, concept) =>
           v <- (if gt (probability concept) 0
                 then div (probability concept) total_prob
                 else div (1 - difficulty concept) total_prob) ;;
           Ok (set d name v)) table [] = Ok d ->
  d = map (fun '(name, concept) => (name, prior concept / total_prob)) table
  /\ (table <> [] -> Qeq_bool total_prob 0 = false).
Proof.
  intros Hnd H.
  rewrite (foldM_ext _ (fun d x => v <- div (prior (snd x)) total_prob ;;
                                   Ok (set d (fst x) v))) in H.
  2:{ intros s [n c]. unfold prior. simpl. now destruct (gt (probability c) 0). }
  rewrite fill_NoDup in H; [|exact Hnd|intros; simpl; tauto].
  inv_bind H. injection H as <-. apply mapM_Ok in Ha. simpl.
  induction Ha as [|[n c] v table vs Hv _ IH]; [split; [reflexivity | congruence]|].
  apply div_Ok in Hv as (Hz & ->). inversion Hnd; subst.
  split; [|auto]. simpl. f_equal. now apply IH.
Qed.

(** What a successful [_initialize_hmm] has computed. *)
Lemma _initialize_hmm_Ok (env : PyEnv) (kb : KnowledgeBase) (params : HMMParams) :
  NoDup (keys (concepts kb)) ->
  _initialize_hmm env kb = Ok params ->
  states params = keys (concepts kb)
  /\ observations params = vocabulary env (concepts kb)
  /\ start_probabilities params
     = map (fun '(name, concept) =>
              (name, prior concept / total_prior (concepts kb))) (concepts kb)
  /\ (concepts kb <> [] -> Qeq_bool (total_prior (concepts kb)) 0 = false)
  /\ dict_for (keys (concepts kb)) (transition_row kb (keys (concepts kb)))
     = Ok (transition_matrix params)
  /\ dict_for (keys (concepts kb)) (emission_row kb (vocabulary env (concepts kb)))
     = Ok (emission_matrix params).
Proof.
  intros Hnd H. unfold _initialize_hmm in H.
  inv_bind H. inv_bind H. inv_bind H. injection H as <-. simpl.
  apply start_loop in Ha as (-> & Hz); [|assumption].
  repeat split; assumption.
Qed.

Lemma MathKnowledgeBase_init_Ok (env : PyEnv) (table : dict Concept) h :
  MathKnowledgeBase_init env table = Ok h ->
  exists network,
    _build_network table = Ok network
    /\ kb h = {| concepts := table; network := network |}
    /\ _initialize_hmm env (kb h) = Ok (hmm_params h)
    /\ patterns h = fst (_compile_observation_patterns (hmm_params h))
    /\ special_patterns h = the_special_patterns.
Proof.
  unfold MathKnowledgeBase_init, MathConceptHMM_init. intros H.
  inv_bind H. inv_bind H. exists a. injection H as <-. simpl. auto.
Qed.

(** ** The start distribution *)

Lemma sum_acc (l : list Q) (a : Q) : fold_left Qplus l a == a + sum l.
Proof.
  unfold sum. revert a; induction l as [|x l IH]; intros a; simpl; [ring|].
  rewrite (IH (a + x)), (IH (0 + x)). ring.
Qed.

Lemma sum_cons (x : Q) (l : list Q) : sum (x :: l) == x + sum l.
Proof. unfold sum at 1. simpl. rewrite sum_acc. ring. Qed.

Lemma sum_map_div (l : list Q) (t : Q) :
  sum (map (fun x => x / t) l) == sum l / t.
Proof.
  induction l as [|x l IH]; simpl map.
  - unfold sum; simpl. unfold Qdiv. ring.
  - rewrite !sum_cons, IH. unfold Qdiv. ring.
Qed.

Lemma get_map_values {A B} (f : A -> B) (d : dict A) k :
  get (map (fun '(n, a) => (n, f a)) d) k = option_map f (get d k).
Proof.
  induction d as [|[n a] d IH]; simpl; [reflexivity|].
  destruct (String.eqb n k); [reflexivity | exact IH].
Qed.

Lemma values_map_values {A B} (f : A -> B) (d : dict A) :
  values (map (fun '(n, a) => (n, f a)) d) = map f (values d).
Proof.
  unfold values. rewrite !map_map. apply map_ext. now intros [n a].
Qed.

(** C7.  After a successful construction over a non-empty concept table,
    the start probability of every concept [c] is [prior(c)] divided by the
    sum of the priors of all concepts, where [prior(c)] is the probability
    prior when it is positive and [1 - difficulty(c)] otherwise; the start
    probabilities of all concepts then sum to 1 (in the exact arithmetic of
    the model). *)
Theorem start_distribution_sums_to_one
        (env : PyEnv) (table : dict Concept) (h : MathConceptHMM) :
  table <> [] ->
  NoDup (keys table) ->
  MathKnowledgeBase_init env table = Ok h ->
  (forall c concept,
      get table c = Some concept ->
      get (start_probabilities (hmm_params h)) c
      = Some (prior concept / sum (map prior (values table))))
  /\ sum (values (start_probabilities (hmm_params h))) == 1.
Proof.
  intros Hne Hnd H.
  apply MathKnowledgeBase_init_Ok in H as (network & _ & Hkb & Hinit & _).
  apply _initialize_hmm_Ok in Hinit; rewrite Hkb in *; simpl in *; [|assumption].
  destruct Hinit as (_ & _ & Hstart & Hz & _). specialize (Hz Hne).
  rewrite Hstart. split.
  - intros c concept Hg.
    rewrite (get_map_values (fun concept => prior concept / total_prior table)).
    now rewrite Hg.
  - rewrite (values_map_values (fun concept => prior concept / total_prior table)).
    rewrite <- (map_map prior (fun x => x / total_prior table)), sum_map_div.
    fold (total_prior table). apply Qeq_bool_neq in Hz. now field.
Qed.

(** ** The transition table *)

Lemma str_in_In (x : string) (l : list string) : str_in x l = true <-> In x l.
Proof.
  unfold str_in. rewrite existsb_exists. split.
  - intros (y & Hy & E). apply String.eqb_eq in E. now subst.
  - intros H. exists x. split; [assumption | apply String.eqb_refl].
Qed.

Lemma str_in_false (x : string) (l : list string) : str_in x l = false <-> ~ In x l.
Proof.
  rewrite <- str_in_In. destruct (str_in x l); split; congruence.
Qed.

Lemma getitem_Some {V} (d : dict V) k v : get d k = Some v -> getitem d k = Ok v.
Proof. unfold getitem. now intros ->. Qed.

Lemma getitem_Ok {V} (d : dict V) k v : getitem d k = Ok v -> get d k = Some v.
Proof. unfold getitem. destruct (get d k); [now intros [= ->] | discriminate]. Qed.

(** The connected set of a node is the union, as a set, of its children and
    its parents. *)
Lemma connected_states_spec (node : Node) :
  NoDup (connected_states node)
  /\ forall x, In x (connected_states node)
               <-> In x (children node) \/ In x (parents node).
Proof.
  unfold connected_states, union, set_of. split; [apply NoDup_nodup|].
  intros x. rewrite nodup_In, in_app_iff, !nodup_In. tauto.
Qed.

(** The entry of the transition table for a pair of concepts, as the three
    branches of the construction loop compute it. *)
Lemma transition_entry (env : PyEnv) (table : dict Concept) (h : MathConceptHMM)
      (A B : string) (concept_A concept_B : Concept) :
  NoDup (keys table) ->
  MathKnowledgeBase_init env table = Ok h ->
  get table A = Some concept_A ->
  get table B = Some concept_B ->
  exists node,
    get (network (kb h)) A = Some node
    /\ parents node = prerequisites concept_A
    /\ Qeq_bool (inject_Z (len (keys table) - 1)) 0 = false
    /\ transition (hmm_params h) A B
       = Ok (if String.eqb B A then 0.7 * eff_prob concept_B
             else if str_in B (connected_states node)
                  then 0.9 / inject_Z (Z.max (len (connected_states node)) 1)
                       * 0.3 * eff_prob concept_B
                  else 0.1 / inject_Z (len (keys table) - 1)
                       * 0.3 * eff_prob concept_B).
Proof.
  intros Hnd H HA HB.
  apply MathKnowledgeBase_init_Ok in H as (net & Hnet & Hkb & Hinit & _).
  apply _initialize_hmm_Ok in Hinit; rewrite Hkb in *; simpl in *; [|assumption].
  destruct Hinit as (Hst & _ & _ & _ & HT & _).
  destruct (@_build_network_parents table net A concept_A Hnd Hnet HA)
    as (node & Hnode & Hpar).
  exists node. split; [assumption|]. split; [assumption|].
  assert (HinA : In A (keys table))
    by (apply get_Some_In in HA; now apply (in_map fst) in HA).
  assert (HinB : In B (keys table))
    by (apply get_Some_In in HB; now apply (in_map fst) in HB).
  destruct (dict_for_get _ A Hnd HT HinA) as (row & Hrow & Hbody).
  unfold transition. rewrite (getitem_Some _ _ Hrow). simpl.
  unfold transition_row in Hbody. simpl in Hbody.
  rewrite (getitem_Some _ _ Hnode) in Hbody. simpl in Hbody.
  inv_bind Hbody. rename a into base_prob. apply div_Ok in Ha as (Hz & ->).
  inv_bind Hbody. rename a into connected_prob. apply div_Ok in Ha as (_ & ->).
  destruct (dict_for_get _ B Hnd Hbody HinB) as (v & Hv & Hentry).
  rewrite (getitem_Some _ _ Hv).
  rewrite (getitem_Some _ _ HB) in Hentry. simpl in Hentry.
  split; [assumption|]. rewrite <- Hentry.
  destruct (String.eqb B A); [reflexivity|].
  destruct (str_in B (connected_states node)); reflexivity.
Qed.


(** ** The emission table *)

Lemma gt_true x y : gt x y = true <-> (y < x)%Q.
Proof.
  unfold gt. rewrite Qgt_alt. destruct (x ?= y)%Q; split; congruence.
Qed.

Lemma eff_prob_pos (concept : Concept) : (0 < eff_prob concept)%Q.
Proof.
  unfold eff_prob. destruct (gt (probability concept) 0) eqn:E.
  - now apply gt_true.
  - reflexivity.
Qed.

Lemma keyword_in_vocabulary (env : PyEnv) (table : dict Concept) c concept k :
  get table c = Some concept -> In k (keywords concept) ->
  In k (vocabulary env table).
Proof.
  intros Hg Hk. unfold vocabulary. rewrite set_iter_In, in_flat_map.
  exists concept. split; [|assumption].
  apply get_Some_In in Hg. now apply (in_map snd) in Hg.
Qed.

(** The entries of the emission row of a concept of a built model. *)
Lemma emission_entries (env : PyEnv) (table : dict Concept) (h : MathConceptHMM)
      c concept :
  NoDup (keys table) ->
  MathKnowledgeBase_init env table = Ok h ->
  get table c = Some concept ->
  exists row,
    get (emission_matrix (hmm_params h)) c = Some row
    /\ keys row = observations (hmm_params h)
    /\ forall obs, In obs (observations (hmm_params h)) ->
       (In obs (keywords concept) ->
        get row obs = Some (0.8 / inject_Z (len (keywords concept))
                            * eff_prob concept))
       /\ (~ In obs (keywords concept) ->
           get row obs
           = Some (0.2 / inject_Z (len (observations (hmm_params h))
                                   - len (keywords concept))
                   * eff_prob concept)
           /\ ~ inject_Z (len (observations (hmm_params h))
                          - len (keywords concept)) == 0).
Proof.
  intros Hnd H Hc.
  apply MathKnowledgeBase_init_Ok in H as (net & Hnet & Hkb & Hinit & _).
  apply _initialize_hmm_Ok in Hinit; rewrite Hkb in *; simpl in *; [|assumption].
  destruct Hinit as (_ & Hobs & _ & _ & _ & HE). rewrite Hobs.
  assert (Hin : In c (keys table))
    by (apply get_Some_In in Hc; now apply (in_map fst) in Hc).
  destruct (dict_for_get _ c Hnd HE Hin) as (row & Hrow & Hbody).
  exists row. split; [assumption|].
  unfold emission_row in Hbody. simpl in Hbody.
  rewrite (getitem_Some _ _ Hc) in Hbody. simpl in Hbody.
  pose proof (set_iter_NoDup env (flat_map keywords (values table))) as Hvnd.
  fold (vocabulary env table) in Hvnd.
  split; [exact (dict_for_keys _ Hvnd Hbody)|].
  intros obs Hobsin.
  destruct (dict_for_get _ obs Hvnd Hbody Hobsin) as (v & Hv & Hentry).
  split; intros Hk.
  - rewrite (proj2 (str_in_In _ _) Hk) in Hentry.
    inv_bind Hentry. apply div_Ok in Ha as (_ & ->). congruence.
  - rewrite (proj2 (str_in_false _ _) Hk) in Hentry.
    inv_bind Hentry. apply div_Ok in Ha as (Hz & ->).
    split; [congruence|]. now apply Qeq_bool_neq.
Qed.


(** ** Observation extraction and the operand shortcut *)

(** The reference table builds. *)
Lemma reference_model_built :
  MathKnowledgeBase_init ascii_env _initialize_concepts = Ok reference_model.
Proof. vm_compute. reflexivity. Qed.

(** C8.  When extraction yields exactly [['operand']] (which it does for a
    text with a number in which no keyword pattern and no composite pattern
    matches), [analyze_question] returns the fixed response without looking
    at the model: main concept [basic_arithmetic], confidence [1.0], no
    prerequisites, and one related concept, [basic_arithmetic] with
    probability [1.0]. *)
Theorem operand_shortcut (env : PyEnv) (self : MathConceptHMM) (question : string) :
  (hits env (patterns self) (str_lower env question) = [] ->
   hits env (special_patterns self) (str_lower env question) = [] ->
   re_search env number_pattern (str_lower env question) = true ->
   _extract_observations env self (str_lower env question) = ["operand"])
  /\ (_extract_observations env self (str_lower env question) = ["operand"] ->
      analyze_question env self question
      = Ok (Match "basic_arithmetic" 1.0 []
                  [{| rc_concept := "basic_arithmetic";
                      rc_probability := Fin 1.0;
                      rc_difficulty := 0.2 |}]
                  ["operand"])).
Proof.
  split.
  - intros HK HS Hnum. unfold _extract_observations.
    now rewrite HK, HS, Hnum.
  - intros H. unfold analyze_question. rewrite H. reflexivity.
Qed.

Lemma operand_shortcut_witness :
  _extract_observations ascii_env reference_model (str_lower ascii_env "42 99")
  = ["operand"]
  /\ analyze_question ascii_env reference_model "42 99"
     = Ok (Match "basic_arithmetic" 1.0 []
                 [{| rc_concept := "basic_arithmetic";
                     rc_probability := Fin 1.0;
                     rc_difficulty := 0.2 |}]
                 ["operand"]).
Proof.
  assert (H : _extract_observations ascii_env reference_model
                (str_lower ascii_env "42 99") = ["operand"])
    by (vm_compute; reflexivity).
  split; [exact H|].
  exact (proj2 (operand_shortcut ascii_env reference_model "42 99") H).
Defined.

Lemma fill_pure_NoDup {V} (f : string -> V) (l : list string) (d0 : dict V) :
  NoDup l -> (forall k, In k l -> ~ In k (keys d0)) ->
  fold_left (fun d k => set d k (f k)) l d0 = d0 ++ map (fun k => (k, f k)) l.
Proof.
  revert d0; induction l as [|k l IH]; intros d0 Hnd Hfresh; simpl.
  - now rewrite app_nil_r.
  - inversion Hnd as [|? ? Hk Hnd']; subst.
    rewrite set_fresh by (apply Hfresh; now left).
    rewrite IH; [now rewrite <- app_assoc | assumption |].
    intros k' Hk'. unfold keys. rewrite map_app, in_app_iff. simpl.
    intros [H | [H | []]]; [|congruence].
    revert H. apply Hfresh. now right.
Qed.

Lemma _initialize_hmm_observations (env : PyEnv) (kb : KnowledgeBase) params :
  _initialize_hmm env kb = Ok params ->
  observations params = vocabulary env (concepts kb).
Proof.
  unfold _initialize_hmm. intros H.
  inv_bind H. inv_bind H. inv_bind H. now injection H as <-.
Qed.

(** The keyword patterns of a built model: one per vocabulary symbol. *)
Lemma patterns_keys (env : PyEnv) (table : dict Concept) (h : MathConceptHMM) :
  MathKnowledgeBase_init env table = Ok h ->
  keys (patterns h) = vocabulary env table
  /\ special_patterns h = the_special_patterns.
Proof.
  intros H. apply MathKnowledgeBase_init_Ok in H as (net & _ & Hkb & Hinit & Hp & Hs).
  apply _initialize_hmm_observations in Hinit. rewrite Hkb in Hinit. simpl in Hinit.
  split; [|assumption]. rewrite Hp. simpl. rewrite Hinit.
  rewrite fill_pure_NoDup; [|apply set_iter_NoDup|auto].
  simpl. unfold keys. rewrite map_map. simpl. apply map_id.
Qed.

Lemma hits_sub (env : PyEnv) (d : dict Re.pattern) question s :
  In s (hits env d question) ->
  exists p, In (s, p) d /\ re_search env p question = true.
Proof.
  unfold hits. rewrite in_map_iff. intros ([s' p] & <- & Hin).
  apply filter_In in Hin as (Hin & Hm). eauto.
Qed.

Lemma hits_NoDup (env : PyEnv) (d : dict Re.pattern) question :
  NoDup (keys d) -> NoDup (hits env d question).
Proof.
  unfold hits, keys. induction d as [|[s p] d IH]; simpl; [constructor|].
  inversion 1 as [|? ? Hs Hnd]; subst.
  destruct (re_search env p question); simpl; [|auto].
  constructor; [|auto]. intros Hin. apply Hs.
  apply in_map_iff in Hin as ([s' p'] & <- & Hin).
  apply filter_In in Hin as (Hin & _). now apply (in_map fst) in Hin.
Qed.

Lemma special_names_NoDup : NoDup (keys the_special_patterns).
Proof. repeat constructor; simpl; intuition discriminate. Qed.

Lemma count_occ_NoDup_le (l : list string) s :
  NoDup l -> (count_occ string_dec l s <= 1)%nat.
Proof. intros H. now apply (NoDup_count_occ string_dec). Qed.

(** C3 (as the code has it).  In a built model, every keyword pattern and
    every composite pattern contributes its symbol at most once, so a symbol
    occurs at most twice in the extracted list; it occurs twice only when it
    is at once a keyword of the vocabulary and the name of a composite
    pattern, both of whose patterns match.  When no keyword of the vocabulary
    is the name of a composite pattern the list has no duplicate. *)
Theorem extraction_duplicates
        (env : PyEnv) (table : dict Concept) (h : MathConceptHMM)
        (question : string) :
  MathKnowledgeBase_init env table = Ok h ->
  (forall s,
      (count_occ string_dec (_extract_observations env h question) s <= 2)%nat
      /\ ((2 <= count_occ string_dec (_extract_observations env h question) s)%nat ->
          In s (hits env (patterns h) question)
          /\ In s (hits env (special_patterns h) question)
          /\ In s (vocabulary env table)
          /\ In s (keys the_special_patterns)))
  /\ ((forall s, In s (vocabulary env table) -> ~ In s (keys the_special_patterns)) ->
      NoDup (_extract_observations env h question)).
Proof.
  intros H. destruct (@patterns_keys env table h H) as (HK & HS).
  assert (HndK : NoDup (hits env (patterns h) question))
    by (apply hits_NoDup; rewrite HK; apply set_iter_NoDup).
  assert (HndS : NoDup (hits env (special_patterns h) question))
    by (apply hits_NoDup; rewrite HS; apply special_names_NoDup).
  assert (Hvoc : forall s, In s (hits env (patterns h) question) ->
                           In s (vocabulary env table)).
  { intros s Hs. apply hits_sub in Hs as (p & Hin & _).
    rewrite <- HK. now apply (in_map fst) in Hin. }
  assert (Hspec : forall s, In s (hits env (special_patterns h) question) ->
                            In s (keys the_special_patterns)).
  { intros s Hs. apply hits_sub in Hs as (p & Hin & _).
    rewrite <- HS. now apply (in_map fst) in Hin. }
  assert (Hcount : forall s,
             count_occ string_dec (_extract_observations env h question) s
             = count_occ string_dec
                 (hits env (patterns h) question
                  ++ hits env (special_patterns h) question) s
             \/ (hits env (patterns h) question
                 ++ hits env (special_patterns h) question = []
                 /\ (count_occ string_dec
                       (_extract_observations env h question) s <= 1)%nat)).
  { intros s. unfold _extract_observations.
    destruct (hits env (patterns h) question
              ++ hits env (special_patterns h) question) eqn:E; [|now left].
    right. split; [reflexivity|].
    destruct (re_search env number_pattern question); [|simpl; lia].
    destruct (string_dec "operand" s) as [E'|E'];
      [rewrite (count_occ_cons_eq string_dec _ E')
      |rewrite (count_occ_cons_neq string_dec _ E')]; simpl; lia. }
  split.
  - intros s.
    pose proof (count_occ_NoDup_le s HndK) as HcK.
    pose proof (count_occ_NoDup_le s HndS) as HcS.
    destruct (Hcount s) as [Hc | (_ & Hc)]; [|split; lia].
    rewrite Hc, count_occ_app. split; [lia|]. intros H2.
    assert (HinK : In s (hits env (patterns h) question))
      by (apply (count_occ_In string_dec); lia).
    assert (HinS : In s (hits env (special_patterns h) question))
      by (apply (count_occ_In string_dec); lia).
    auto.
  - intros Hdisj. unfold _extract_observations.
    destruct (hits env (patterns h) question
              ++ hits env (special_patterns h) question) eqn:E.
    + destruct (re_search env number_pattern question); repeat constructor.
      simpl; tauto.
    + rewrite <- E. apply NoDup_app; auto.
      intros x HinK HinS. exact (Hdisj x (Hvoc x HinK) (Hspec x HinS)).
Qed.

(** ** When parameter construction succeeds *)

Lemma div_Raise x y e : div x y = Raise e -> e = ZeroDivisionError /\ y == 0.
Proof.
  unfold div. destruct (Qeq_bool y 0) eqn:E; [|discriminate].
  intros [= <-]. split; [reflexivity | now apply Qeq_bool_eq].
Qed.

Lemma start_loop_eq (table : dict Concept) (total_prob : Q) :
  NoDup (keys table) ->
  foldM (fun d '(name, concept) =>
           v <- (if gt (probability concept) 0
                 then div (probability concept) total_prob
                 else div (1 - difficulty concept) total_prob) ;;
           Ok (set d name v)) table []
  = (vs <- mapM (fun x => div (prior (snd x)) total_prob) table ;;
     Ok (combine (keys table) vs)).
Proof.
  intros Hnd.
  rewrite (foldM_ext _ (fun d x => v <- div (prior (snd x)) total_prob ;;
                                   Ok (set d (fst x) v))).
  2:{ intros s [n c]. unfold prior. simpl. now destruct (gt (probability c) 0). }
  rewrite fill_NoDup; [reflexivity | exact Hnd | intros; simpl; tauto].
Qed.

Lemma In_keys_table {V} (d : dict V) k v : get d k = Some v -> In k (keys d).
Proof. intros H. apply get_Some_In in H. now apply (in_map fst) in H. Qed.

Lemma inject_Z_nonzero (z : Z) : z <> 0%Z -> ~ inject_Z z == 0.
Proof. unfold Qeq. simpl. lia. Qed.

Lemma inject_Z_zero (z : Z) : inject_Z z == 0 -> z = 0%Z.
Proof. unfold Qeq. simpl. lia. Qed.

Lemma _initialize_hmm_total (env : PyEnv) (table : dict Concept) network :
  NoDup (keys table) ->
  _build_network table = Ok network ->
  (table = [] \/
   ((2 <= List.length table)%nat /\ ~ total_prior table == 0
    /\ emission_divisors_nonzero env table)) ->
  exists params,
    _initialize_hmm env {| concepts := table; network := network |} = Ok params.
Proof.
  intros Hnd Hnet Hcond.
  assert (Hcond' : forall c, In c (keys table) ->
                             (2 <= List.length table)%nat
                             /\ ~ total_prior table == 0
                             /\ emission_divisors_nonzero env table).
  { intros c Hc. destruct Hcond as [-> | H]; [destruct Hc | exact H]. }
  unfold _initialize_hmm. simpl.
  rewrite start_loop_eq by assumption.
  destruct (mapM_total (fun x => div (prior (snd x)) (total_prior table)) table)
    as (vs & ->).
  { intros [n c] Hin. apply (in_map fst) in Hin.
    destruct (Hcond' _ Hin) as (_ & Hz & _). rewrite div_nonzero; eauto. }
  simpl.
  destruct (@dict_for_total _ (keys table) (transition_row
              {| concepts := table; network := network |} (keys table)) Hnd)
    as (T & ->).
  { intros A HA. destruct (Hcond' _ HA) as (Hlen & _).
    destruct (In_keys_get table A HA) as (cA & HcA).
    destruct (@_build_network_parents table network A cA Hnd Hnet HcA)
      as (node & Hnode & _).
    unfold transition_row. simpl. rewrite (getitem_Some _ _ Hnode). simpl.
    rewrite (@div_nonzero 0.1 (inject_Z (len (keys table) - 1))).
    2:{ apply inject_Z_nonzero. unfold len, keys. rewrite length_map. lia. }
    simpl. rewrite div_nonzero by (apply inject_Z_nonzero; lia). simpl.
    apply dict_for_total; [assumption|].
    intros B HB. destruct (In_keys_get table B HB) as (cB & HcB).
    rewrite (getitem_Some _ _ HcB). simpl.
    destruct (String.eqb B A); [eauto|].
    destruct (str_in B (connected_states node)); eauto. }
  simpl.
  destruct (@dict_for_total _ (keys table) (emission_row
              {| concepts := table; network := network |}
              (vocabulary env table)) Hnd) as (E & ->).
  { intros c Hc. destruct (Hcond' _ Hc) as (_ & _ & Hem).
    destruct (In_keys_get table c Hc) as (concept & Hconcept).
    unfold emission_row. simpl. rewrite (getitem_Some _ _ Hconcept). simpl.
    apply dict_for_total; [apply set_iter_NoDup|].
    intros o Ho. destruct (str_in o (keywords concept)) eqn:Hk.
    - apply str_in_In in Hk. rewrite div_nonzero; [simpl; eauto|].
      apply inject_Z_nonzero. unfold len.
      destruct (keywords concept); [destruct Hk | simpl List.length; lia].
    - apply str_in_false in Hk. rewrite div_nonzero; [simpl; eauto|].
      apply inject_Z_nonzero. specialize (Hem c concept o Hconcept Ho Hk). lia. }
  simpl. eauto.
Qed.

(** The only exception parameter construction can raise is a division by
    zero. *)
Lemma _initialize_hmm_Raise (env : PyEnv) (table : dict Concept) network e :
  NoDup (keys table) ->
  _build_network table = Ok network ->
  _initialize_hmm env {| concepts := table; network := network |} = Raise e ->
  e = ZeroDivisionError.
Proof.
  intros Hnd Hnet H. unfold _initialize_hmm in H. simpl in H.
  rewrite start_loop_eq in H by assumption.
  apply bind_Raise in H as [H | (start & _ & H)].
  { apply bind_Raise in H as [H | (vs & _ & H)]; [|discriminate].
    apply mapM_Raise in H as (x & _ & H). now apply div_Raise in H. }
  apply bind_Raise in H as [H | (T & _ & H)].
  { apply dict_for_Raise in H as (A & HA & H); [|assumption].
    destruct (In_keys_get table A HA) as (cA & HcA).
    destruct (@_build_network_parents table network A cA Hnd Hnet HcA)
      as (node & Hnode & _).
    unfold transition_row in H. simpl in H.
    rewrite (getitem_Some _ _ Hnode) in H. simpl in H.
    apply bind_Raise in H as [H | (base_prob & _ & H)];
      [now apply div_Raise in H|].
    apply bind_Raise in H as [H | (connected_prob & _ & H)];
      [now apply div_Raise in H|].
    apply dict_for_Raise in H as (B & HB & H); [|assumption].
    destruct (In_keys_get table B HB) as (cB & HcB).
    rewrite (getitem_Some _ _ HcB) in H. simpl in H.
    destruct (String.eqb B A); [discriminate|].
    destruct (str_in B (connected_states node)); discriminate. }
  apply bind_Raise in H as [H | (E & _ & H)]; [|discriminate].
  apply dict_for_Raise in H as (c & Hc & H); [|assumption].
  destruct (In_keys_get table c Hc) as (concept & Hconcept).
  unfold emission_row in H. simpl in H.
  rewrite (getitem_Some _ _ Hconcept) in H. simpl in H.
  apply dict_for_Raise in H as (o & Ho & H); [|apply set_iter_NoDup].
  destruct (str_in o (keywords concept));
    (apply bind_Raise in H as [H | (q & _ & H)];
     [now apply div_Raise in H | discriminate]).
Qed.

Lemma MathKnowledgeBase_init_cases (env : PyEnv) (table : dict Concept) :
  exists network,
    _build_network table = Ok network
    /\ ((exists params h,
            _initialize_hmm env {| concepts := table; network := network |}
            = Ok params
            /\ MathKnowledgeBase_init env table = Ok h)
        \/ (exists e,
               _initialize_hmm env {| concepts := table; network := network |}
               = Raise e
               /\ MathKnowledgeBase_init env table = Raise e)).
Proof.
  eexists. split; [reflexivity|].
  unfold MathKnowledgeBase_init, MathConceptHMM_init. simpl.
  destruct (_initialize_hmm env _) as [params|e]; simpl; [left | right]; eauto.
Qed.

Lemma NoDup_keywords_divisor (env : PyEnv) (table : dict Concept) c concept o :
  get table c = Some concept ->
  NoDup (keywords concept) ->
  In o (vocabulary env table) -> ~ In o (keywords concept) ->
  len (vocabulary env table) <> len (keywords concept).
Proof.
  intros Hc Hnd Ho Hno.
  assert (Hle : (List.length (o :: keywords concept)
                 <= List.length (vocabulary env table))%nat).
  { apply NoDup_incl_length; [now constructor|].
    intros x [<- | Hx]; [assumption|]. eapply keyword_in_vocabulary; eauto. }
  simpl in Hle. unfold len. lia.
Qed.

(** C10 (as the code has it).  Parameter construction either succeeds or
    raises a division error.  It raises one when the table has exactly one
    concept ([0.1 / 0] for the base transition probability).  For two or more
    concepts it succeeds exactly when the priors do not sum to zero and no
    non-keyword emission divides by zero; that divisor,
    [|vocabulary| - len(keywords(c))], is evaluated only for a vocabulary
    symbol that is not a keyword of [c], so a concept whose keywords cover
    the whole vocabulary never makes construction fail, nor does one whose
    keyword list has no repetition. *)
Theorem parameter_construction_domain (env : PyEnv) (table : dict Concept) :
  NoDup (keys table) ->
  ((exists h, MathKnowledgeBase_init env table = Ok h)
   \/ MathKnowledgeBase_init env table = Raise ZeroDivisionError)
  /\ (List.length table = 1%nat ->
      MathKnowledgeBase_init env table = Raise ZeroDivisionError)
  /\ ((exists h, MathKnowledgeBase_init env table = Ok h)
      <-> table = []
          \/ ((2 <= List.length table)%nat
              /\ ~ total_prior table == 0
              /\ emission_divisors_nonzero env table))
  /\ ((forall c concept,
          get table c = Some concept ->
          covers_vocabulary env table concept \/ NoDup (keywords concept)) ->
      emission_divisors_nonzero env table).
Proof.
  intros Hnd.
  assert (Hcases : (exists h, MathKnowledgeBase_init env table = Ok h)
                   \/ MathKnowledgeBase_init env table = Raise ZeroDivisionError).
  { destruct (MathKnowledgeBase_init_cases env table)
      as (network & Hnet & [(params & h & _ & Hh) | (e & He & Hinit)]);
      [left; eauto | right].
    now rewrite Hinit, (_initialize_hmm_Raise env Hnd Hnet He). }
  assert (Hiff : (exists h, MathKnowledgeBase_init env table = Ok h)
                 <-> table = []
                     \/ ((2 <= List.length table)%nat
                         /\ ~ total_prior table == 0
                         /\ emission_divisors_nonzero env table)).
  { split.
    - intros (h & Hh). destruct table as [|[A cA] table'] eqn:Etable; [now left|].
      right. rewrite <- Etable in *.
      pose proof Hh as Hh'.
      apply MathKnowledgeBase_init_Ok in Hh' as (net & Hnet & Hkb & Hinit & _).
      pose proof (_initialize_hmm_observations _ _ Hinit) as Hobs.
      apply _initialize_hmm_Ok in Hinit; rewrite Hkb in *; simpl in *;
        [|assumption].
      destruct Hinit as (_ & _ & _ & Hz & HT & _).
      assert (HA : In A (keys table)) by (rewrite Etable; now left).
      split; [|split].
      + destruct (dict_for_get _ A Hnd HT HA) as (row & _ & Hrow).
        unfold transition_row in Hrow. inv_bind Hrow. inv_bind Hrow.
        apply div_Ok in Ha0 as (Hne & _). apply Qeq_bool_neq in Hne.
        assert (len (keys table) - 1 <> 0)%Z
          by (intros E; apply Hne; simpl; rewrite E; reflexivity).
        unfold len, keys in H. rewrite length_map in H.
        rewrite Etable in *. simpl List.length in *. lia.
      + apply Qeq_bool_neq. apply Hz. rewrite Etable. discriminate.
      + intros c concept o Hc Ho Hno.
        destruct (@emission_entries env table h c concept Hnd Hh Hc)
          as (row & _ & _ & Hentries).
        rewrite Hobs in Hentries. simpl in Hentries.
        destruct (Hentries o Ho) as (_ & Hentry).
        destruct (Hentry Hno) as (_ & Hd).
        intros E. apply Hd. rewrite E, Z.sub_diag. reflexivity.
    - intros Hcond.
      destruct (MathKnowledgeBase_init_cases env table)
        as (network & Hnet & [(params & h & _ & Hh) | (e & He & _)]); [eauto|].
      destruct (@_initialize_hmm_total env table network Hnd Hnet Hcond)
        as (params & Hp).
      congruence. }
  split; [exact Hcases|]. split; [|split; [exact Hiff|]].
  - intros Hlen. destruct Hcases as [Hok | Hraise]; [|assumption].
    apply Hiff in Hok as [-> | (Hlen' & _)]; [discriminate | lia].
  - intros Hall c concept o Hc Ho Hno.
    destruct (Hall c concept Hc) as [Hcov | Hkw].
    + elim Hno. now apply Hcov.
    + eapply NoDup_keywords_divisor; eauto.
Qed.

(** ** Viterbi decoding: the maximum and its tie-break *)

Lemma str_lt_gt (s t : string) : String_as_OT.lt s t -> str_gt t s = true.
Proof.
  intros H. unfold str_gt.
  destruct (String_as_OT.compare_spec t s) as [E | Hlt | Hgt]; [| |reflexivity].
  - change (t = s) in E. subst t. now apply (StrictOrder_Irreflexive s) in H.
  - exfalso. apply (StrictOrder_Irreflexive s).
    now apply (StrictOrder_Transitive s t s).
Qed.

Lemma str_gt_lt (s t : string) : str_gt t s = true -> String_as_OT.lt s t.
Proof.
  unfold str_gt.
  destruct (String_as_OT.compare_spec t s); intros E; try discriminate E.
  assumption.
Qed.

Lemma str_gt_irrefl (s : string) : str_gt s s = false.
Proof.
  destruct (str_gt s s) eqn:E; [|reflexivity].
  apply str_gt_lt in E. now apply (StrictOrder_Irreflexive s) in E.
Qed.

Lemma str_gt_trans (a b c : string) :
  str_gt a b = true -> str_gt b c = true -> str_gt a c = true.
Proof.
  intros H1 H2. apply str_gt_lt in H1, H2. apply str_lt_gt.
  now apply (StrictOrder_Transitive c b a).
Qed.

Lemma str_gt_cotrans (a b c : string) :
  str_gt a c = true -> str_gt a b = true \/ str_gt b c = true.
Proof.
  intros H. apply str_gt_lt in H.
  destruct (String_as_OT.compare_spec a b) as [E | Hlt | Hgt].
  - change (a = b) in E. subst b. right. now apply str_lt_gt.
  - right. apply str_lt_gt. now apply (StrictOrder_Transitive c a b).
  - left. now apply str_lt_gt.
Qed.

Lemma tuple_gt_spec (a b : Q * string) :
  tuple_gt a b = true
  <-> (fst b < fst a)%Q \/ (fst a == fst b /\ str_gt (snd a) (snd b) = true).
Proof.
  unfold tuple_gt. destruct (Qeq_bool (fst a) (fst b)) eqn:E.
  - apply Qeq_bool_eq in E. split; [auto|].
    intros [H | [_ H]]; [|exact H]. rewrite E in H.
    now apply Qlt_irrefl in H.
  - apply Qeq_bool_neq in E. rewrite gt_true. tauto.
Qed.

Lemma tuple_gt_irrefl (a : Q * string) : tuple_gt a a = false.
Proof.
  destruct (tuple_gt a a) eqn:E; [|reflexivity].
  apply tuple_gt_spec in E as [H | [_ H]].
  - now apply Qlt_irrefl in H.
  - now rewrite str_gt_irrefl in H.
Qed.

Lemma tuple_gt_trans (a b c : Q * string) :
  tuple_gt a b = true -> tuple_gt b c = true -> tuple_gt a c = true.
Proof.
  rewrite !tuple_gt_spec.
  intros [H1 | [E1 H1]] [H2 | [E2 H2]].
  - left. now apply Qlt_trans with (fst b).
  - left. now rewrite <- E2.
  - left. now rewrite E1.
  - right. split; [now rewrite E1 | now apply str_gt_trans with (snd b)].
Qed.

Lemma tuple_gt_cotrans (a b c : Q * string) :
  tuple_gt a c = true -> tuple_gt a b = true \/ tuple_gt b c = true.
Proof.
  rewrite !tuple_gt_spec. intros [H | [E H]].
  - destruct (Q_dec (fst b) (fst a)) as [[Hlt | Hgt] | Heq].
    + left. now left.
    + right. left. now apply Qlt_trans with (fst a).
    + right. left. now rewrite Heq.
  - destruct (Q_dec (fst b) (fst a)) as [[Hlt | Hgt] | Heq].
    + left. now left.
    + right. left. now rewrite <- E.
    + destruct (str_gt_cotrans _ (snd b) _ H) as [H' | H'].
      * left. right. split; [now symmetry | assumption].
      * right. right. split; [now rewrite Heq | assumption].
Qed.

(** The running maximum of Python's [max]. *)
Lemma max_fold_spec (l : list (Q * string)) (x : Q * string) :
  let r := fold_left (fun best item => if tuple_gt item best then item else best)
                     l x in
  In r (x :: l) /\ forall y, In y (x :: l) -> tuple_gt y r = false.
Proof.
  revert x; induction l as [|i l IH]; intros x; simpl.
  - split; [now left|]. intros y [<- | []]. apply tuple_gt_irrefl.
  - specialize (IH (if tuple_gt i x then i else x)). simpl in IH.
    destruct IH as (Hin & Hmax). split.
    + destruct Hin as [Hin | Hin]; [|now right; right].
      rewrite <- Hin. destruct (tuple_gt i x); auto.
    + intros y Hy. destruct (tuple_gt i x) eqn:E.
      * set (r := fold_left _ l i) in *.
        destruct Hy as [<- | [<- | Hy]];
          [|apply Hmax; now left | apply Hmax; now right].
        destruct (tuple_gt x r) eqn:E'; [|reflexivity].
        pose proof (tuple_gt_trans _ _ _ E E') as Hc.
        rewrite (Hmax i (or_introl eq_refl)) in Hc. discriminate.
      * set (r := fold_left _ l x) in *.
        destruct Hy as [<- | [<- | Hy]];
          [apply Hmax; now left | | apply Hmax; now right].
        destruct (tuple_gt i r) eqn:E'; [|reflexivity].
        destruct (tuple_gt_cotrans _ x _ E') as [Hc | Hc]; [congruence|].
        rewrite (Hmax x (or_introl eq_refl)) in Hc. discriminate.
Qed.

Lemma max_tuple_spec (l : list (Q * string)) (r : Q * string) :
  max_tuple l = Ok r ->
  In r l /\ forall y, In y l -> tuple_gt y r = false.
Proof.
  destruct l as [|x l]; simpl; [discriminate|]. intros [= <-].
  apply max_fold_spec.
Qed.

Lemma max_tuple_total (l : list (Q * string)) :
  l <> [] -> exists r, max_tuple l = Ok r.
Proof. destruct l; [congruence | simpl; eauto]. Qed.

Lemma tuple_gt_false (a b : Q * string) :
  tuple_gt a b = false ->
  (fst a <= fst b)%Q /\ (fst a == fst b -> str_gt (snd a) (snd b) = false).
Proof.
  intros H. split.
  - apply Qnot_lt_le. intros Hlt.
    assert (tuple_gt a b = true) by (apply tuple_gt_spec; now left). congruence.
  - intros E. destruct (str_gt (snd a) (snd b)) eqn:Hs; [|reflexivity].
    assert (tuple_gt a b = true) by (apply tuple_gt_spec; now right). congruence.
Qed.

Lemma candidates_states (params : HMMParams) V_prev obs_t curr_state cands :
  candidates params V_prev obs_t curr_state = Ok cands ->
  map snd cands = states params.
Proof.
  unfold candidates. intros H. apply mapM_Ok in H.
  induction H as [|prev c l l' Hc _ IH]; [reflexivity|].
  simpl. rewrite IH. f_equal.
  inv_bind Hc. inv_bind Hc. inv_bind Hc. now injection Hc as <-.
Qed.

Lemma candidates_values (params : HMMParams) V_prev obs_t curr_state cands v prev :
  candidates params V_prev obs_t curr_state = Ok cands ->
  In (v, prev) cands ->
  exists score tr em,
    get V_prev prev = Some score
    /\ transition params prev curr_state = Ok tr
    /\ emission params curr_state obs_t = Ok em
    /\ v = score * tr * em.
Proof.
  unfold candidates. intros H Hin. apply mapM_Ok in H.
  destruct (@Forall2_In_r _ _ _ _ _ (v, prev) H Hin) as (prev0 & _ & Hc).
  inv_bind Hc. inv_bind Hc. inv_bind Hc. injection Hc as <- <-.
  exists a, a0, a1. auto using getitem_Ok.
Qed.

(** C1 (as the code has it).  At every time step [t >= 1] and for every
    current state [s], the candidates are the values
    [V[t-1][prev] * Transition(prev, s) * Emission(s, obs[t])], one per
    predecessor in state order; the predecessor retained for [(t, s)], the
    one whose path is extended by [s], achieves the maximal value and, among
    the predecessors achieving that maximum, is the greatest in the order of
    strings: no other maximal predecessor compares greater than it. *)
Theorem viterbi_tie_break
        (params : HMMParams) (observations : list string)
        (V V' : list (dict Q)) (path newpath : dict (list string))
        (t : nat) (s : string) :
  NoDup (states params) ->
  In s (states params) ->
  viterbi_step params observations (V, path) t = Ok (V', newpath) ->
  exists V_prev obs_t cands max_prob best_state best_path V_t,
    index V (t - 1) = Ok V_prev
    /\ index observations t = Ok obs_t
    /\ candidates params V_prev obs_t s = Ok cands
    /\ map snd cands = states params
    /\ (forall v prev,
           In (v, prev) cands ->
           exists score tr em,
             get V_prev prev = Some score
             /\ transition params prev s = Ok tr
             /\ emission params s obs_t = Ok em
             /\ v = score * tr * em)
    /\ In (max_prob, best_state) cands
    /\ (forall v prev,
           In (v, prev) cands ->
           (v <= max_prob)%Q
           /\ (v == max_prob -> str_gt prev best_state = false))
    /\ V' = V ++ [V_t]
    /\ get V_t s = Some max_prob
    /\ get path best_state = Some best_path
    /\ get newpath s = Some (best_path ++ [s]).
Proof.
  intros Hnd Hs H. unfold viterbi_step in H.
  inv_bind H. rename a into rows. injection H as <- <-.
  destruct (dict_for_get _ s Hnd Ha Hs) as ([max_prob new] & Hrow & Hbody).
  inv_bind Hbody. rename a into V_prev.
  inv_bind Hbody. rename a into obs_t.
  inv_bind Hbody. destruct a as [max_prob' best_state].
  inv_bind Hbody. rename a into best_path. injection Hbody as <- <-.
  unfold best_predecessor in Ha2. inv_bind Ha2. rename a into cands.
  apply max_tuple_spec in Ha2 as (Hin & Hmax).
  exists V_prev, obs_t, cands, max_prob', best_state, best_path.
  eexists. repeat split; try eassumption; try reflexivity.
  - eapply candidates_states; eauto.
  - intros v prev Hv. eapply candidates_values; eauto.
  - destruct (tuple_gt_false _ _ (Hmax _ H)) as (Hle & _). exact Hle.
  - intros E. destruct (tuple_gt_false _ _ (Hmax _ H)) as (_ & Htie). now apply Htie.
  - rewrite (get_map_values fst). now rewrite Hrow.
  - now apply getitem_Ok.
  - rewrite (get_map_values snd). now rewrite Hrow.
Qed.

(** ** Viterbi decoding returns a path of states *)

Lemma keys_map_values {A B} (f : A -> B) (d : dict A) :
  keys (map (fun '(n, a) => (n, f a)) d) = keys d.
Proof.
  unfold keys. rewrite map_map. apply map_ext. now intros [n a].
Qed.

Lemma built_model_well_built (env : PyEnv) (table : dict Concept) h :
  NoDup (keys table) ->
  MathKnowledgeBase_init env table = Ok h ->
  states (hmm_params h) = keys table /\ well_built (hmm_params h).
Proof.
  intros Hnd H.
  apply MathKnowledgeBase_init_Ok in H as (net & Hnet & Hkb & Hinit & _).
  apply _initialize_hmm_Ok in Hinit; rewrite Hkb in *; simpl in *; [|assumption].
  destruct Hinit as (Hst & _ & Hstart & _ & HT & HE).
  split; [assumption|]. unfold well_built. rewrite Hst.
  split; [assumption|]. split; [|split; [|split]].
  - rewrite Hstart.
    apply (keys_map_values (fun concept => prior concept / total_prior table)).
  - eapply dict_for_keys; eauto.
  - intros s row Hrow.
    assert (Hs : In s (keys table)).
    { rewrite <- (dict_for_keys _ Hnd HT). eapply In_keys_table; eauto. }
    destruct (dict_for_get _ s Hnd HT Hs) as (row' & Hrow' & Hbody).
    assert (row' = row) by congruence. subst row'.
    unfold transition_row in Hbody.
    inv_bind Hbody. inv_bind Hbody. inv_bind Hbody.
    eapply dict_for_keys; eauto.
  - eapply dict_for_keys; eauto.
Qed.

Lemma foldM_seq_invariant {S} (f : S -> nat -> result S) (Inv : S -> nat -> Prop)
      (len start : nat) (acc : S) :
  Inv acc start ->
  (forall t a, (start <= t < start + len)%nat -> Inv a t ->
               exists a', f a t = Ok a' /\ Inv a' (Datatypes.S t)) ->
  exists acc', foldM f (seq start len) acc = Ok acc' /\ Inv acc' (start + len)%nat.
Proof.
  revert start acc; induction len as [|len IH]; intros start acc Hinv Hstep; simpl.
  - exists acc. now rewrite Nat.add_0_r.
  - destruct (Hstep start acc) as (a' & -> & Hinv'); [lia | assumption|]. simpl.
    destruct (IH (Datatypes.S start) a' Hinv') as (acc' & Hfold & Hacc').
    + intros t a Ht. apply Hstep. lia.
    + exists acc'. split; [assumption|]. now rewrite <- Nat.add_succ_comm.
Qed.

Lemma index_Ok {A} (l : list A) (i : nat) :
  (i < List.length l)%nat -> exists x, index l i = Ok x /\ In x l.
Proof.
  intros H. unfold index. destruct (nth_error l i) eqn:E.
  - exists a. split; [reflexivity|]. eapply nth_error_In; eauto.
  - apply nth_error_None in E. lia.
Qed.

Lemma index_last_Ok {A} (l : list A) :
  l <> [] -> exists x, index_last l = Ok x /\ In x l.
Proof.
  destruct l as [|a l]; [congruence|]. intros _. unfold index_last.
  apply index_Ok. simpl. lia.
Qed.

Lemma getitem_total {V} (d : dict V) k :
  In k (keys d) -> exists v, getitem d k = Ok v.
Proof.
  intros H. destruct (In_keys_get d k H) as (v & Hv).
  exists v. now apply getitem_Some.
Qed.

Section Decoding.

Variable params : HMMParams.
Hypothesis Hwf : well_built params.
Hypothesis Hstates : states params <> [].

Lemma emission_total state obs :
  In state (states params) -> exists e, emission params state obs = Ok e.
Proof.
  intros Hs. destruct Hwf as (_ & _ & _ & _ & HE). unfold emission.
  destruct (getitem_total (emission_matrix params) state) as (row & ->);
    [now rewrite HE | simpl; eauto].
Qed.

Lemma transition_total prev_state curr_state :
  In prev_state (states params) -> In curr_state (states params) ->
  exists p, transition params prev_state curr_state = Ok p.
Proof.
  intros Hp Hc. destruct Hwf as (_ & _ & HT & Hrows & _). unfold transition.
  destruct (In_keys_get (transition_matrix params) prev_state) as (row & Hrow);
    [now rewrite HT|].
  rewrite (getitem_Some _ _ Hrow). simpl.
  apply getitem_total. now rewrite (Hrows _ _ Hrow).
Qed.

Lemma viterbi_init_total observations :
  observations <> [] ->
  exists V0, viterbi_init params observations = Ok V0
             /\ keys V0 = states params.
Proof.
  intros Hobs. destruct Hwf as (Hnd & Hstart & _ & _ & HE).
  destruct (@dict_for_total _ (states params)
              (fun state =>
                 start <- getitem (start_probabilities params) state ;;
                 row <- getitem (emission_matrix params) state ;;
                 obs0 <- index observations 0 ;;
                 Ok (start * get_default row obs0 1e-10)) Hnd) as (V0 & HV0).
  - intros state Hs.
    destruct (getitem_total (start_probabilities params) state) as (p & ->);
      [now rewrite Hstart|]. simpl.
    destruct (getitem_total (emission_matrix params) state) as (row & ->);
      [now rewrite HE|]. simpl.
    destruct observations as [|obs0 l]; [congruence|]. simpl. eauto.
  - exists V0. split; [exact HV0|]. eapply dict_for_keys; eauto.
Qed.

Lemma best_predecessor_total V_prev obs_t curr_state :
  keys V_prev = states params -> In curr_state (states params) ->
  exists max_prob best_state,
    best_predecessor params V_prev obs_t curr_state = Ok (max_prob, best_state)
    /\ In best_state (states params).
Proof.
  intros HV Hc. unfold best_predecessor.
  destruct (mapM_total
              (fun prev_state =>
                 v <- getitem V_prev prev_state ;;
                 tr <- transition params prev_state curr_state ;;
                 em <- emission params curr_state obs_t ;;
                 Ok (v * tr * em, prev_state)) (states params))
    as (cands & Hcands).
  - intros prev Hp.
    destruct (getitem_total V_prev prev) as (v & ->); [now rewrite HV|]. simpl.
    destruct (@transition_total prev curr_state Hp Hc) as (tr & ->). simpl.
    destruct (@emission_total curr_state obs_t Hc) as (em & ->). simpl. eauto.
  - fold (candidates params V_prev obs_t curr_state) in Hcands.
    rewrite Hcands. simpl.
    pose proof (candidates_states _ _ _ _ Hcands) as Hsnd.
    destruct (@max_tuple_total cands) as ([max_prob best_state] & Hmax).
    { intros ->. simpl in Hsnd. now apply Hstates. }
    exists max_prob, best_state. split; [assumption|].
    apply max_tuple_spec in Hmax as (Hin & _).
    rewrite <- Hsnd. now apply (in_map snd) in Hin.
Qed.

Lemma viterbi_step_total observations acc t :
  (1 <= t < List.length observations)%nat ->
  viterbi_invariant params acc t ->
  exists acc', viterbi_step params observations acc t = Ok acc'
               /\ viterbi_invariant params acc' (S t).
Proof.
  destruct acc as [V path]. intros Ht (Hlen & (V_prev & HVp & HkV) & Hkp & Hpaths).
  simpl in *. pose proof Hwf as (Hnd & _).
  destruct (@index_Ok _ observations t) as (obs_t & Hobs & _); [lia|].
  set (body := fun curr_state : string =>
          V_prev <- index V (t - 1) ;;
          obs_t <- index observations t ;;
          ' (max_prob, best_state) <-
            best_predecessor params V_prev obs_t curr_state ;;
          best_path <- getitem path best_state ;;
          Ok (max_prob, best_path ++ [curr_state])).
  assert (Hbody : forall s, In s (states params) ->
            exists max_prob best_state best_path,
              body s = Ok (max_prob, best_path ++ [s])
              /\ get path best_state = Some best_path).
  { intros s Hs. unfold body. rewrite HVp, Hobs. simpl.
    destruct (@best_predecessor_total V_prev obs_t s HkV Hs)
      as (max_prob & best_state & -> & Hbs). simpl.
    destruct (In_keys_get path best_state) as (best_path & Hbp);
      [now rewrite Hkp|].
    rewrite (getitem_Some _ _ Hbp). simpl. eauto. }
  destruct (@dict_for_total _ (states params) body Hnd) as (rows & Hrows).
  { intros s Hs. destruct (Hbody s Hs) as (mp & bs & bp & -> & _). eauto. }
  unfold viterbi_step. fold body. rewrite Hrows. simpl.
  eexists. split; [reflexivity|].
  pose proof (dict_for_keys _ Hnd Hrows) as Hkrows.
  unfold viterbi_invariant. simpl. repeat split.
  - rewrite length_app. simpl. lia.
  - eexists. split.
    + unfold index. rewrite Nat.sub_0_r, <- Hlen, nth_error_app2, Nat.sub_diag by lia.
      reflexivity.
    + now rewrite (keys_map_values fst).
  - now rewrite (keys_map_values snd).
  - rewrite (get_map_values snd) in H.
    destruct (get rows s) as [[mp p']|] eqn:Hrow; [|discriminate].
    injection H as <-.
    assert (Hs : In s (states params))
      by (rewrite <- Hkrows; eapply In_keys_table; eauto).
    destruct (dict_for_get _ s Hnd Hrows Hs) as (row & Hrow' & Hb).
    destruct (Hbody s Hs) as (mp' & bs & bp & Hb' & Hbp).
    assert (p' = bp ++ [s]) by congruence. subst p'.
    now destruct bp.
  - rewrite (get_map_values snd) in H.
    destruct (get rows s) as [[mp p']|] eqn:Hrow; [|discriminate].
    injection H as <-.
    assert (Hs : In s (states params))
      by (rewrite <- Hkrows; eapply In_keys_table; eauto).
    destruct (dict_for_get _ s Hnd Hrows Hs) as (row & Hrow' & Hb).
    destruct (Hbody s Hs) as (mp' & bs & bp & Hb' & Hbp).
    assert (p' = bp ++ [s]) by congruence. subst p'.
    apply Forall_app. split; [|now repeat constructor].
    now apply (Hpaths bs bp).
Qed.

Lemma viterbi_total (self : MathConceptHMM) observations :
  hmm_params self = params ->
  observations <> [] ->
  exists prob path,
    viterbi self observations = Ok (prob, path)
    /\ path <> [] /\ Forall (fun x => In x (states params)) path.
Proof.
  intros Hself Hobs. unfold viterbi. rewrite Hself.
  pose proof Hwf as (Hnd & _).
  destruct (viterbi_init_total Hobs) as (V0 & -> & HkV0). simpl.
  set (path0 := map (fun state => (state, [state])) (states params)).
  destruct (@foldM_seq_invariant _ (viterbi_step params observations)
              (viterbi_invariant params) (List.length observations - 1) 1
              ([V0], path0)) as ([V path] & -> & Hinv).
  - unfold viterbi_invariant. simpl. repeat split.
    + exists V0. now split.
    + unfold path0, keys. rewrite map_map. simpl. apply map_id.
    + apply get_Some_In in H. apply in_map_iff in H as (x & [= <- <-] & _).
      discriminate.
    + apply get_Some_In in H. apply in_map_iff in H as (x & [= <- <-] & Hx).
      now repeat constructor.
  - intros t a Ht. apply viterbi_step_total.
    destruct observations; [congruence | simpl in *; lia].
  - simpl. destruct Hinv as (Hlen & (V_last & HVl & HkVl) & Hkp & Hpaths).
    simpl in *.
    assert (HV : index_last V = Ok V_last).
    { unfold index_last. destruct V; [simpl in Hlen; lia|].
      now rewrite Hlen. }
    rewrite HV. simpl.
    destruct (mapM_total (fun state => v <- getitem V_last state ;; Ok (v, state))
                         (states params)) as (finals & Hfinals).
    { intros s Hs. destruct (getitem_total V_last s) as (v & ->);
        [now rewrite HkVl | simpl; eauto]. }
    rewrite Hfinals. simpl.
    assert (Hsnd : map snd finals = states params).
    { apply mapM_Ok in Hfinals. clear -Hfinals.
      induction Hfinals as [|s c l l' Hc _ IH]; [reflexivity|].
      simpl. rewrite IH. f_equal. inv_bind Hc. now injection Hc as <-. }
    destruct (@max_tuple_total finals) as ([prob best] & Hmax).
    { intros ->. simpl in Hsnd. now apply Hstates. }
    rewrite Hmax. simpl.
    apply max_tuple_spec in Hmax as (Hin & _).
    apply (in_map snd) in Hin. rewrite Hsnd in Hin. simpl in Hin.
    destruct (In_keys_get path best) as (p & Hp); [now rewrite Hkp|].
    rewrite (getitem_Some _ _ Hp). simpl.
    exists prob, p. split; [reflexivity|]. now apply (Hpaths best).
Qed.

End Decoding.

(** ** Sorting and sums *)

Lemma insert_desc_Permutation {A} (key : A -> float64) (x : A) (l : list A) :
  Permutation (insert_desc key x l) (x :: l).
Proof.
  induction l as [|y l IH]; simpl; [reflexivity|].
  destruct (np_lt (key x) (key y)); [|reflexivity].
  rewrite IH. apply perm_swap.
Qed.

Lemma sort_desc_Permutation {A} (key : A -> float64) (l : list A) :
  Permutation (sort_desc key l) l.
Proof.
  induction l as [|x l IH]; simpl; [reflexivity|].
  rewrite insert_desc_Permutation. now constructor.
Qed.








(** ** Posterior scoring *)

Lemma Qdiv_pos (a b : Q) : (0 < a -> 0 < b -> 0 < a / b)%Q.
Proof.
  intros Ha Hb. apply Qlt_shift_div_l; [assumption|]. now rewrite Qmult_0_l.
Qed.

Lemma inject_Z_pos (z : Z) : (0 < z)%Z -> (0 < inject_Z z)%Q.
Proof. intros H. unfold Qlt. simpl. lia. Qed.


(** Every emission looked up in a built model is positive. *)
Lemma emission_positive (env : PyEnv) (table : dict Concept) (h : MathConceptHMM)
      c concept row o :
  NoDup (keys table) ->
  MathKnowledgeBase_init env table = Ok h ->
  get table c = Some concept ->
  NoDup (keywords concept) ->
  get (emission_matrix (hmm_params h)) c = Some row ->
  (0 < get_default row o 1e-10)%Q.
Proof.
  intros Hnd H Hc Hkw Hrow.
  destruct (@emission_entries env table h c concept Hnd H Hc)
    as (row' & Hrow' & Hkeys & Hentries).
  assert (row' = row) by congruence. subst row'.
  assert (Hobs : observations (hmm_params h) = vocabulary env table).
  { apply MathKnowledgeBase_init_Ok in H as (net & _ & Hkb & Hinit & _).
    apply _initialize_hmm_observations in Hinit. now rewrite Hkb in Hinit. }
  pose proof (eff_prob_pos concept) as Heff.
  unfold get_default.
  destruct (in_dec string_dec o (observations (hmm_params h))) as [Ho | Ho].
  - destruct (Hentries o Ho) as (Hin & Hout).
    destruct (in_dec string_dec o (keywords concept)) as [Hk | Hk].
    + rewrite (Hin Hk). apply Qmult_lt_0_compat; [|assumption].
      apply Qdiv_pos; [reflexivity|]. apply inject_Z_pos. unfold len.
      destruct (keywords concept); [destruct Hk | simpl List.length; lia].
    + destruct (Hout Hk) as (-> & _).
      apply Qmult_lt_0_compat; [|assumption].
      apply Qdiv_pos; [reflexivity|]. apply inject_Z_pos.
      assert (Hle : (List.length (o :: keywords concept)
                     <= List.length (observations (hmm_params h)))%nat).
      { apply NoDup_incl_length; [now constructor|].
        intros x [<- | Hx]; [assumption|].
        rewrite Hobs. eapply keyword_in_vocabulary; eauto. }
      simpl in Hle. unfold len. lia.
  - rewrite <- Hkeys in Ho. apply get_None in Ho. rewrite Ho. reflexivity.
Qed.

(** Every transition of a built model is positive. *)
Lemma transition_positive (env : PyEnv) (table : dict Concept) (h : MathConceptHMM)
      A B v :
  NoDup (keys table) ->
  MathKnowledgeBase_init env table = Ok h ->
  In A (keys table) -> In B (keys table) ->
  transition (hmm_params h) A B = Ok v ->
  (0 < v)%Q.
Proof.
  intros Hnd H HA HB Hv.
  destruct (In_keys_get table A HA) as (cA & HcA).
  destruct (In_keys_get table B HB) as (cB & HcB).
  destruct (@transition_entry env table h A B cA cB Hnd H HcA HcB)
    as (node & _ & _ & Hz & Hentry).
  rewrite Hentry in Hv. injection Hv as <-.
  pose proof (eff_prob_pos cB) as Heff.
  assert (Hlen : (0 < len (keys table) - 1)%Z).
  { apply Qeq_bool_neq in Hz.
    assert (len (keys table) - 1 <> 0)%Z
      by (intros E; apply Hz; rewrite E; reflexivity).
    unfold len in *. destruct (keys table); [destruct HA|].
    simpl List.length in *. lia. }
  destruct (String.eqb B A).
  - apply Qmult_lt_0_compat; [reflexivity | assumption].
  - destruct (str_in B (connected_states node));
      (apply Qmult_lt_0_compat; [|assumption]);
      (apply Qmult_lt_0_compat; [|reflexivity]);
      (apply Qdiv_pos; [reflexivity|]); apply inject_Z_pos; lia.
Qed.



Section Scoring.

Variable self : MathConceptHMM.
Hypothesis Hwf : well_built (hmm_params self).
Hypothesis Hkb : keys (concepts (kb self)) = states (hmm_params self).




End Scoring.






(** ** The missing guard on the normalisation *)

Lemma normalize_zero_total (raw : list (string * Q * Q)) (total : Q) :
  total == 0 ->
  Forall (fun r => non_finite (rc_probability r)) (normalize raw total).
Proof.
  intros Hz. apply Forall_forall. intros r Hr.
  apply in_map_iff in Hr as ([[c s] d] & <- & _). simpl.
  unfold np_div. rewrite (Qeq_eq_bool _ _ Hz).
  destruct (s ?= 0)%Q; exact I.
Qed.

(** C4 (as the code has it).  [analyze_question] has no guard on the sum of
    the raw scores.  Its only error result is the one for an empty
    extraction; whenever posterior scoring is reached and the call returns,
    it returns the ordinary success result, whose related concepts are the
    raw scores divided by their sum, sorted; when that sum is zero every one
    of these probabilities is an infinity or NaN. *)
Theorem no_normalization_guard
        (env : PyEnv) (self : MathConceptHMM) (question : string) :
  (forall result,
      analyze_question env self question = Ok result ->
      match result with
      | NoMatch _ concepts =>
          _extract_observations env self (str_lower env question) = []
          /\ concepts = []
      | Match _ _ _ related observations =>
          observations = _extract_observations env self (str_lower env question)
          /\ (observations = ["operand"]
              \/ exists prob state_sequence raw total_score,
                  viterbi self observations = Ok (prob, state_sequence)
                  /\ raw_scores self observations state_sequence
                     = Ok (raw, total_score)
                  /\ related
                     = sort_desc rc_probability (normalize raw total_score))
      end)
  /\ (forall raw total_score,
         total_score == 0 ->
         Forall (fun r => non_finite (rc_probability r))
                (sort_desc rc_probability (normalize raw total_score))).
Proof.
  split.
  - intros result H. unfold analyze_question in H.
    destruct (_extract_observations env self (str_lower env question))
      as [|o obs] eqn:E.
    + injection H as <-. auto.
    + unfold list_str_eqb in H.
      destruct (list_eq_dec string_dec (o :: obs) ["operand"]) as [Heq | Hne].
      * injection H as <-. auto.
      * inv_bind H. destruct a as [prob state_sequence].
        inv_bind H. inv_bind H. inv_bind H. destruct a1 as [raw total_score].
        injection H as <-. split; [reflexivity|]. right.
        exists prob, state_sequence, raw, total_score. auto.
  - intros raw total_score Hz.
    eapply Permutation_Forall;
      [symmetry; apply sort_desc_Permutation | now apply normalize_zero_total].
Qed.

(** ** The properties on concrete inputs *)

Lemma nodupb_NoDup (l : list string) : nodupb l = true -> NoDup l.
Proof.
  induction l as [|x l IH]; simpl; [constructor|].
  intros H. apply andb_prop in H as (Hx & Hl).
  constructor; [|auto]. apply str_in_false. now destruct (str_in x l).
Qed.

Lemma well_formedb_spec (table : dict Concept) :
  forallb well_formedb (values table) = true ->
  forall c concept, get table c = Some concept -> well_formed concept.
Proof.
  intros H c concept Hc. rewrite forallb_forall in H.
  assert (Hin : In concept (values table)).
  { apply get_Some_In in Hc. now apply (in_map snd) in Hc. }
  specialize (H concept Hin). unfold well_formedb in H.
  apply andb_prop in H as (H & Hp1). apply andb_prop in H as (H & Hp0).
  apply andb_prop in H as (H & Hd1). apply andb_prop in H as (Hkw & Hd0).
  apply Qle_bool_iff in Hp1, Hp0, Hd1, Hd0.
  unfold well_formed. auto using nodupb_NoDup.
Qed.

Ltac by_computation := vm_compute; reflexivity.

(** The checks the design document lists for the reference model. *)

Example extract_sum_question :
  _extract_observations ascii_env reference_model
    (str_lower ascii_env "What is the sum of 5 and 3?") = ["sum"].
Proof. by_computation. Qed.

Example analyze_empty_question :
  analyze_question ascii_env reference_model ""
  = Ok (NoMatch "No relevant patterns found in question" []).
Proof. by_computation. Qed.

Example reference_self_loops :
  forallb (fun '(s, concept) =>
             match transition (hmm_params reference_model) s s with
             | Ok p => Qeq_bool p (0.7 * eff_prob concept)
             | Raise _ => false
             end) _initialize_concepts = true.
Proof. by_computation. Qed.

(** The transition row of [basic_arithmetic] is stored as computed; its
    entries sum to 0.389875, not to 1. *)
Example reference_row_not_rescaled :
  match get (transition_matrix (hmm_params reference_model)) "basic_arithmetic"
  with
  | Some row => Qeq_bool (sum (values row)) 0.389875
  | None => false
  end = true.
Proof. by_computation. Qed.

(** On the reference table a question with the word [function] and a call
    [f(x)] yields the symbol [function] twice: once as a keyword of
    [derivatives], once as the composite pattern. *)
Lemma extraction_repeats_symbol :
  ~ NoDup (_extract_observations ascii_env reference_model "function f(x)").
Proof.
  assert (E : _extract_observations ascii_env reference_model "function f(x)"
              = ["x"; "function"; "function"]) by by_computation.
  rewrite E. intros H. inversion H as [|? ? _ H']; subst.
  inversion H' as [|? ? Hin _]; subst. apply Hin. now left.
Qed.

(** The repetition does not depend on the order in which the vocabulary
    set is iterated: it occurs for every interpreter whose regex engine is
    the one above. *)
Lemma extraction_repeats_symbol_any_order (env : PyEnv) (h : MathConceptHMM) :
  re_search env = Re.search ->
  MathKnowledgeBase_init env _initialize_concepts = Ok h ->
  (2 <= count_occ string_dec (_extract_observations env h "function f(x)")
                  "function")%nat.
Proof.
  intros Hsearch H.
  assert (Hvoc : In "function" (vocabulary env _initialize_concepts)).
  { unfold vocabulary. rewrite set_iter_In.
    apply (proj1 (str_in_In _ _)). by_computation. }
  pose proof H as H'.
  apply MathKnowledgeBase_init_Ok in H' as (net & _ & Hkb & Hinit & Hp & Hs).
  apply _initialize_hmm_observations in Hinit. rewrite Hkb in Hinit.
  simpl in Hinit, Hp. rewrite Hinit in Hp.
  rewrite fill_pure_NoDup in Hp; [|apply set_iter_NoDup|auto]. simpl in Hp.
  assert (HK : In "function" (hits env (patterns h) "function f(x)")).
  { unfold hits. apply in_map_iff.
    exists ("function", keyword_pattern "function"). split; [reflexivity|].
    apply filter_In. split.
    - rewrite Hp. apply in_map_iff. exists "function". auto.
    - rewrite Hsearch. by_computation. }
  assert (HS : In "function" (hits env (special_patterns h) "function f(x)")).
  { rewrite Hs. unfold hits. rewrite Hsearch.
    apply (proj1 (str_in_In _ _)). by_computation. }
  apply (count_occ_In string_dec) in HK, HS.
  unfold _extract_observations.
  destruct (hits env (patterns h) "function f(x)"
            ++ hits env (special_patterns h) "function f(x)") eqn:E.
  - apply (f_equal (fun l => count_occ string_dec l "function")) in E.
    rewrite count_occ_app in E. simpl in E. lia.
  - rewrite <- E, count_occ_app. lia.
Qed.

Lemma extraction_duplicates_witness :
  (count_occ string_dec
     (_extract_observations ascii_env reference_model "function f(x)")
     "function" <= 2)%nat.
Proof.
  assert (H : MathKnowledgeBase_init ascii_env _initialize_concepts
              = Ok reference_model) by by_computation.
  exact (proj1 (proj1 (@extraction_duplicates ascii_env _initialize_concepts
                         reference_model "function f(x)" H) "function")).
Defined.

(** On [tie_table], with two observations of floor emission, the states [a]
    and [b] reach [c] with the same maximal value; the design document's
    tie-break selects [a], the first in state order, but [viterbi] retains
    [b] and extends its path. *)
Lemma earliest_predecessor_not_retained :
  exists cands v,
    viterbi_init (hmm_params tie_model) tie_observations = Ok tie_V0
    /\ candidates (hmm_params tie_model) tie_V0 "inequality" "c" = Ok cands
    /\ earliest_argmax cands = Some (v, "a")
    /\ best_predecessor (hmm_params tie_model) tie_V0 "inequality" "c"
       = Ok (v, "b")
    /\ viterbi_step (hmm_params tie_model) tie_observations
                    ([tie_V0], tie_path0) 1 = Ok tie_step
    /\ get (snd tie_step) "c" = Some ["b"; "c"].
Proof.
  do 2 eexists. split; [by_computation|]. split; [by_computation|].
  split; [by_computation|]. split; [by_computation|].
  split; by_computation.
Qed.

Lemma viterbi_tie_break_witness :
  exists V_prev obs_t cands max_prob best_state best_path V_t,
    index [tie_V0] (1 - 1) = Ok V_prev
    /\ index tie_observations 1 = Ok obs_t
    /\ candidates (hmm_params tie_model) V_prev obs_t "c" = Ok cands
    /\ map snd cands = states (hmm_params tie_model)
    /\ (forall v prev,
           In (v, prev) cands ->
           exists score tr em,
             get V_prev prev = Some score
             /\ transition (hmm_params tie_model) prev "c" = Ok tr
             /\ emission (hmm_params tie_model) "c" obs_t = Ok em
             /\ v = score * tr * em)
    /\ In (max_prob, best_state) cands
    /\ (forall v prev,
           In (v, prev) cands ->
           (v <= max_prob)%Q
           /\ (v == max_prob -> str_gt prev best_state = false))
    /\ fst tie_step = [tie_V0] ++ [V_t]
    /\ get V_t "c" = Some max_prob
    /\ get tie_path0 best_state = Some best_path
    /\ get (snd tie_step) "c" = Some (best_path ++ ["c"]).
Proof.
  apply (@viterbi_tie_break (hmm_params tie_model) tie_observations
           [tie_V0] (fst tie_step) tie_path0 (snd tie_step) 1 "c").
  - apply nodupb_NoDup. by_computation.
  - apply (proj1 (str_in_In _ _)). by_computation.
  - by_computation.
Defined.

(** A table with a prerequisite cycle is accepted: graph construction does
    not raise, and the whole knowledge base is built. *)
Lemma cycle_not_rejected :
  cyclic cyclic_table
  /\ ~ (exists e, _build_network cyclic_table = Raise e)
  /\ exists h, MathKnowledgeBase_init ascii_env cyclic_table = Ok h.
Proof.
  split; [|split].
  - exists "a". apply t_trans with (y := "b"); apply t_step; eexists;
      (split; [reflexivity | simpl; auto]).
  - intros (e & H). discriminate H.
  - eexists. by_computation.
Qed.

Lemma build_network_accepts_every_table_witness :
  exists network,
    _build_network cyclic_table = Ok network
    /\ forall c concept,
        get cyclic_table c = Some concept ->
        exists node, get network c = Some node
                     /\ parents node = prerequisites concept.
Proof.
  apply (@build_network_accepts_every_table cyclic_table).
  apply nodupb_NoDup. by_computation.
Defined.

(** On [zero_sum_table] the raw scores of the question ["two"] sum to zero;
    the call returns its ordinary success result, with infinite
    probabilities, and no error. *)
Lemma zero_sum_not_detected :
  exists prob raw total_score,
    _extract_observations ascii_env zero_sum_model (str_lower ascii_env "two")
    = ["two"]
    /\ viterbi zero_sum_model ["two"] = Ok (prob, ["beta"])
    /\ raw_scores zero_sum_model ["two"] ["beta"] = Ok (raw, total_score)
    /\ total_score == 0
    /\ analyze_question ascii_env zero_sum_model "two"
       = Ok (Match "beta" prob ["alpha"]
                   [{| rc_concept := "beta"; rc_probability := Inf true;
                       rc_difficulty := 0.5 |};
                    {| rc_concept := "alpha"; rc_probability := Inf false;
                       rc_difficulty := 0.5 |}]
                   ["two"]).
Proof.
  do 3 eexists. split; [by_computation|]. split; [by_computation|].
  split; [by_computation|]. split; by_computation.
Qed.

Lemma no_normalization_guard_witness :
  Forall (fun r => non_finite (rc_probability r))
         (sort_desc rc_probability
            (normalize [("alpha", -0.2 * (1 / 1.5), 0.5);
                        ("beta", 0.4 * (0.5 / 1.5), 0.5)]
                       (0 + -0.2 * (1 / 1.5) + 0.4 * (0.5 / 1.5)))).
Proof.
  apply (proj2 (no_normalization_guard ascii_env zero_sum_model "two")).
  by_computation.
Defined.



Lemma start_distribution_sums_to_one_witness :
  sum (values (start_probabilities (hmm_params reference_model))) == 1.
Proof.
  apply (@start_distribution_sums_to_one ascii_env _initialize_concepts
           reference_model).
  - discriminate.
  - apply nodupb_NoDup. by_computation.
  - by_computation.
Defined.


(** Two concepts whose keywords each cover the whole vocabulary: parameter
    construction succeeds. *)
Lemma covering_keywords_do_not_fail :
  (forall c concept,
      get shared_keyword_table c = Some concept ->
      covers_vocabulary ascii_env shared_keyword_table concept)
  /\ (exists h, MathKnowledgeBase_init ascii_env shared_keyword_table = Ok h)
  /\ ~ (exists e, MathKnowledgeBase_init ascii_env shared_keyword_table = Raise e).
Proof.
  split; [|split].
  - intros c concept Hc o Ho. vm_compute in Ho. destruct Ho as [<- | []].
    apply get_Some_In in Hc.
    destruct Hc as [[= <- <-] | [[= <- <-] | []]]; now left.
  - eexists. by_computation.
  - intros (e & H). vm_compute in H. discriminate H.
Qed.

Lemma parameter_construction_domain_witness :
  (exists h, MathKnowledgeBase_init ascii_env shared_keyword_table = Ok h)
  \/ MathKnowledgeBase_init ascii_env shared_keyword_table
     = Raise ZeroDivisionError.
Proof.
  apply (@parameter_construction_domain ascii_env shared_keyword_table).
  apply nodupb_NoDup. by_computation.
Defined.

From Stdlib Require Import Qpower.


(** ** The children recorded by [_build_network] *)

Lemma add_children_get (d : string) (prereqs : list string) (network : dict Node)
      (q : string) :
  get (fold_left (add_child d) prereqs network) q
  = match count_occ string_dec prereqs q with
    | O => get network q
    | S n =>
        Some {| children :=
                  match get network q with
                  | Some node => children node
                  | None => []
                  end ++ repeat d (S n);
                parents :=
                  match get network q with
                  | Some node => parents node
                  | None => []
                  end |}
    end.
Proof.
  revert network. induction prereqs as [|p prereqs IH]; intros network;
    [reflexivity|].
  simpl fold_left. rewrite IH, add_child_get. simpl count_occ.
  destruct (string_dec p q) as [->|Hne].
  - rewrite String.eqb_refl.
    destruct (count_occ string_dec prereqs q) as [|n];
      destruct (get network q) as [node|]; simpl; try reflexivity;
      now rewrite <- app_assoc.
  - apply String.eqb_neq in Hne. now rewrite Hne.
Qed.

Lemma network_step_get (network : dict Node) (d : string) (cd : Concept)
      (q : string) :
  get (network_step network (d, cd)) q
  = let base :=
      if String.eqb d q
      then Some {| children := []; parents := prerequisites cd |}
      else get network q in
    match count_occ string_dec (prerequisites cd) q with
    | O => base
    | S n =>
        Some {| children :=
                  match base with Some node => children node | None => [] end
                  ++ repeat d (S n);
                parents :=
                  match base with Some node => parents node | None => [] end |}
    end.
Proof.
  unfold network_step. rewrite add_children_get, get_set. reflexivity.
Qed.

Lemma since_snoc (q d : string) (cd : Concept) (table : dict Concept) :
  ~ In d (keys table) ->
  since q (table ++ [(d, cd)])
  = if String.eqb d q then [(d, cd)] else since q table ++ [(d, cd)].
Proof.
  intros Hd. unfold since.
  assert (Hfrom : forall T, from_key q (T ++ [(d, cd)])
                            = if str_in q (keys T) then from_key q T ++ [(d, cd)]
                              else if String.eqb d q then [(d, cd)] else []).
  { induction T as [|[c cc] T IH]; simpl.
    - destruct (String.eqb d q); reflexivity.
    - rewrite (String.eqb_sym q c). destruct (String.eqb c q); simpl; [reflexivity|].
      exact IH. }
  unfold keys. rewrite map_app. fold (keys table). simpl.
  assert (Hin : str_in q (keys table ++ [d])
                = str_in q (keys table) || String.eqb d q).
  { unfold str_in. rewrite existsb_app. simpl.
    now rewrite orb_false_r, (String.eqb_sym q d). }
  rewrite Hin, Hfrom.
  destruct (String.eqb_spec d q) as [->|Hne].
  - assert (str_in q (keys table) = false) by now apply str_in_false.
    rewrite H. reflexivity.
  - destruct (str_in q (keys table)); reflexivity.
Qed.

Lemma get_snoc {V} (d : dict V) (k : string) (v : V) (q : string) :
  get (d ++ [(k, v)]) q
  = match get d q with
    | Some x => Some x
    | None => if String.eqb k q then Some v else None
    end.
Proof.
  induction d as [|[k' v'] d IH]; simpl; [reflexivity|].
  destruct (String.eqb k' q); [reflexivity | exact IH].
Qed.

Lemma requires_snoc (table : dict Concept) (d : string) (cd : Concept)
      (x q : string) :
  ~ In d (keys table) ->
  requires (table ++ [(d, cd)]) x q
  <-> requires table x q \/ (x = d /\ In q (prerequisites cd)).
Proof.
  intros Hd. unfold requires. split.
  - intros (cx & Hg & Hin). rewrite get_snoc in Hg.
    destruct (get table x) as [c|] eqn:E.
    + injection Hg as ->. left. eauto.
    + destruct (String.eqb_spec d x) as [->|]; [|discriminate].
      injection Hg as ->. right. auto.
  - intros [(cx & Hg & Hin) | (-> & Hin)].
    + exists cx. rewrite get_snoc, Hg. auto.
    + exists cd. rewrite get_snoc.
      apply get_None in Hd. rewrite Hd, String.eqb_refl. auto.
Qed.

Lemma In_app_repeat (x d : string) (l : list string) (n : nat) :
  In x (l ++ repeat d (S n)) <-> In x l \/ x = d.
Proof.
  rewrite in_app_iff. split; intros [H | H]; auto.
  - right. now apply repeat_spec in H.
  - right. subst. now left.
Qed.

(** The node of [q] after the whole table has been processed. *)
Lemma network_nodes (table : dict Concept) (q : string) :
  NoDup (keys table) ->
  match get (fold_left network_step table []) q with
  | Some node =>
      (In q (keys table) \/ exists d, requires table d q)
      /\ parents node = match get table q with
                        | Some concept => prerequisites concept
                        | None => []
                        end
      /\ forall d, In d (children node)
                   <-> exists cd, In (d, cd) (since q table)
                                  /\ In q (prerequisites cd)
  | None => ~ In q (keys table) /\ ~ exists d, requires table d q
  end.
Proof.
  induction table as [|[d cd] table IH] using rev_ind; intros Hnd.
  - simpl. split; [tauto|]. intros (d & c & Hg & _). discriminate.
  - unfold keys in Hnd. rewrite map_app in Hnd. simpl in Hnd.
    apply NoDup_remove in Hnd. rewrite app_nil_r in Hnd.
    destruct Hnd as (Hnd & Hd). fold (keys table) in Hnd, Hd.
    specialize (IH Hnd).
    rewrite fold_left_app. cbn [fold_left]. rewrite network_step_get.
    assert (Hkeys : In q (keys (table ++ [(d, cd)])) <-> In q (keys table) \/ q = d).
    { unfold keys. rewrite map_app, in_app_iff. simpl. intuition. }
    assert (Hreq : (exists x, requires (table ++ [(d, cd)]) x q)
                   <-> (exists x, requires table x q) \/ In q (prerequisites cd)).
    { split.
      - intros (x & Hx). apply requires_snoc in Hx; [|assumption].
        destruct Hx as [Hx | (_ & Hx)]; eauto.
      - intros [(x & Hx) | Hx].
        + exists x. apply requires_snoc; auto.
        + exists d. apply requires_snoc; auto. }
    pose proof (count_occ_In string_dec (prerequisites cd) q) as Hcount.
    rewrite get_snoc, since_snoc by assumption.
    destruct (String.eqb_spec d q) as [->|Hne]; cbv zeta.
    + (* the node of [q] is reset *)
      assert (Hq : get table q = None) by now apply get_None.
      rewrite Hq.
      destruct (count_occ string_dec (prerequisites cd) q) as [|n];
        cbn [children parents].
      * split; [left; apply Hkeys; now right|]. split; [reflexivity|].
        intros x. split; [intros []|].
        intros (cx & [[= <- <-] | []] & Hin). apply Hcount in Hin. lia.
      * split; [left; apply Hkeys; now right|]. split; [reflexivity|].
        intros x. rewrite In_app_repeat. split.
        -- intros [[] | ->]. exists cd. split; [now left | apply Hcount; lia].
        -- intros (cx & [[= <- <-] | []] & _). now right.
    + destruct (get (fold_left network_step table []) q) as [node|] eqn:Hnode.
      * destruct IH as (Hex & Hpar & Hch).
        assert (Hpar' : match get table q with
                        | Some x => Some x
                        | None => None (A := Concept)
                        end = get table q) by now destruct (get table q).
        destruct (count_occ string_dec (prerequisites cd) q) as [|n];
        cbn [children parents].
        -- split; [rewrite Hkeys, Hreq; tauto|]. split.
           ++ rewrite Hpar. now destruct (get table q).
           ++ intros x. rewrite Hch. split.
              ** intros (cx & Hin & Hp). exists cx. rewrite in_app_iff. auto.
              ** intros (cx & Hin & Hp). apply in_app_iff in Hin as [Hin | Hin];
                   [eauto|]. destruct Hin as [[= <- <-] | []].
                 apply Hcount in Hp. lia.
        -- split; [rewrite Hkeys, Hreq; tauto|]. split.
           ++ rewrite Hpar. now destruct (get table q).
           ++ intros x. rewrite In_app_repeat, Hch. split.
              ** intros [(cx & Hin & Hp) | ->].
                 --- exists cx. rewrite in_app_iff. auto.
                 --- exists cd. rewrite in_app_iff. split; [right; now left|].
                     apply Hcount. lia.
              ** intros (cx & Hin & Hp). apply in_app_iff in Hin as [Hin | Hin];
                   [eauto|]. destruct Hin as [[= <- <-] | []]. now right.
      * destruct IH as (Hnk & Hnr).
        assert (Hq : get table q = None) by now apply get_None.
        assert (Hsince : since q table = table).
        { unfold since. apply str_in_false in Hnk. now rewrite Hnk. }
        rewrite Hq, Hsince.
        destruct (count_occ string_dec (prerequisites cd) q) as [|n];
        cbn [children parents].
        -- rewrite Hkeys, Hreq. split; [intuition congruence|].
           intros [H | H]; [auto|]. apply Hcount in H. lia.
        -- split; [right; apply Hreq; right; apply Hcount; lia|].
           split; [reflexivity|].
           intros x. rewrite In_app_repeat. split.
           ++ intros [[] | ->]. exists cd. rewrite in_app_iff.
              split; [right; now left | apply Hcount; lia].
           ++ intros (cx & Hin & Hp). apply in_app_iff in Hin as [Hin | Hin].
              ** exfalso. apply Hnr. exists x, cx. split; [|assumption].
                 now apply In_get.
              ** destruct Hin as [[= <- <-] | []]. now right.
Qed.

Lemma since_defined (pre post : dict Concept) (p : string) (cp : Concept) :
  ~ In p (keys pre) ->
  since p (pre ++ (p, cp) :: post) = (p, cp) :: post.
Proof.
  intros Hp. unfold since.
  assert (Hin : str_in p (keys (pre ++ (p, cp) :: post)) = true).
  { apply str_in_In. unfold keys. rewrite map_app, in_app_iff. right. now left. }
  rewrite Hin. clear Hin.
  induction pre as [|[c cc] pre IH]; simpl.
  - now rewrite String.eqb_refl.
  - simpl in Hp. destruct (String.eqb_spec c p) as [->|]; [tauto|].
    apply IH. tauto.
Qed.

(** X1.  The children [_build_network] records for a concept [p] are exactly
    the concepts defined at or after [p] in the table that list [p] as a
    prerequisite; its parents are its prerequisite list.  A concept defined
    before [p] is never a child of [p], even when it lists [p]: the node of
    [p] is reset when [p] itself is reached. *)
Theorem network_children_of_concept
        (pre post : dict Concept) (p : string) (cp : Concept)
        (network : dict Node) :
  NoDup (keys (pre ++ (p, cp) :: post)) ->
  _build_network (pre ++ (p, cp) :: post) = Ok network ->
  exists node,
    get network p = Some node
    /\ parents node = prerequisites cp
    /\ (forall d, In d (children node)
                  <-> exists cd, In (d, cd) ((p, cp) :: post)
                                 /\ In p (prerequisites cd))
    /\ (forall d, In d (keys pre) -> ~ In d (children node)).
Proof.
  intros Hnd H. injection H as <-.
  pose proof (@network_nodes (pre ++ (p, cp) :: post) p Hnd) as Hnode.
  assert (Hp : ~ In p (keys pre)).
  { unfold keys in Hnd. rewrite map_app in Hnd. simpl in Hnd.
    apply NoDup_remove_2 in Hnd. rewrite in_app_iff in Hnd. tauto. }
  assert (Hget : get (pre ++ (p, cp) :: post) p = Some cp).
  { apply In_get; [assumption|]. rewrite in_app_iff. right. now left. }
  rewrite since_defined, Hget in Hnode by assumption.
  destruct (get (fold_left network_step (pre ++ (p, cp) :: post) []) p)
    as [node|].
  - destruct Hnode as (_ & Hpar & Hch). exists node.
    split; [reflexivity|]. split; [assumption|]. split; [assumption|].
    intros d Hd Hin. apply Hch in Hin as (cd & Hin & _).
    apply (in_map fst) in Hin. simpl in Hin.
    unfold keys in Hnd. rewrite map_app in Hnd. simpl in Hnd.
    apply NoDup_app_remove_l in Hnd as Hnd'.
    assert (Hdis : forall x, In x (map fst pre) ->
                             ~ In x (p :: map fst post)).
    { clear -Hnd. induction pre as [|[c cc] pre IH]; simpl; [tauto|].
      simpl in Hnd. inversion Hnd as [|? ? Hc Hnd']; subst.
      intros x [<- | Hx]; [|now apply IH].
      intros Hin. apply Hc. rewrite in_app_iff. now right. }
    exact (Hdis d Hd Hin).
  - destruct Hnode as (Hnk & _). exfalso. apply Hnk.
    unfold keys. rewrite map_app, in_app_iff. right. now left.
Qed.

(** X2.  The nodes of the network are the concepts and the names listed as
    prerequisites.  A prerequisite that is not a concept gets a placeholder
    node without parents, whose children are all the concepts listing it. *)
Theorem network_placeholders (table : dict Concept) (network : dict Node) :
  NoDup (keys table) ->
  _build_network table = Ok network ->
  (forall p, In p (keys network)
             <-> In p (keys table) \/ exists d, requires table d p)
  /\ (forall p node,
         ~ In p (keys table) ->
         get network p = Some node ->
         parents node = []
         /\ forall d, In d (children node) <-> requires table d p).
Proof.
  intros Hnd H. injection H as <-. split.
  - intros p. pose proof (@network_nodes table p Hnd) as Hnode.
    destruct (get (fold_left network_step table []) p) as [node|] eqn:E.
    + split; [tauto|]. intros _. eapply In_keys_table; eauto.
    + split; [|tauto]. intros Hin. apply get_None in E. contradiction.
  - intros p node Hp Hget. pose proof (@network_nodes table p Hnd) as Hnode.
    rewrite Hget in Hnode. destruct Hnode as (_ & Hpar & Hch).
    assert (Hq : get table p = None) by now apply get_None.
    assert (Hsince : since p table = table).
    { unfold since. apply str_in_false in Hp. now rewrite Hp. }
    rewrite Hq in Hpar. rewrite Hsince in Hch. split; [assumption|].
    intros d. rewrite Hch. unfold requires. split.
    + intros (cd & Hin & Hreq). exists cd. split; [now apply In_get | assumption].
    + intros (cd & Hg & Hreq). exists cd. split; [now apply get_Some_In | assumption].
Qed.

Lemma since_prerequisites_first (table : dict Concept) (p d : string)
      (cd : Concept) :
  prerequisites_first table ->
  In (d, cd) table -> In p (prerequisites cd) ->
  In (d, cd) (since p table).
Proof.
  intros Hpf Hin Hp. unfold since.
  destruct (str_in p (keys table)) eqn:E; [|assumption].
  apply str_in_In in E.
  induction table as [|[c cc] table IH]; [destruct Hin|].
  destruct Hpf as (Hhead & Hpf). simpl.
  destruct (String.eqb_spec c p) as [->|Hne]; [assumption|].
  destruct E as [E | E]; [contradiction|].
  destruct Hin as [[= -> ->] | Hin].
  - exfalso. apply (Hhead p Hp). now right.
  - now apply IH.
Qed.

(** X3.  When every prerequisite that is itself a concept is defined before
    the concepts that list it, as in the reference table, the children are
    the reverse of the prerequisite relation: [d] is a child of [p] exactly
    when [d] lists [p] as a prerequisite. *)
Theorem network_reverse_edges (table : dict Concept) (network : dict Node)
        (p d : string) :
  NoDup (keys table) ->
  prerequisites_first table ->
  _build_network table = Ok network ->
  (exists node, get network p = Some node /\ In d (children node))
  <-> requires table d p.
Proof.
  intros Hnd Hpf H. injection H as <-.
  pose proof (@network_nodes table p Hnd) as Hnode. split.
  - intros (node & Hget & Hin). rewrite Hget in Hnode.
    destruct Hnode as (_ & _ & Hch). apply Hch in Hin as (cd & Hin & Hreq).
    exists cd. split; [|assumption]. apply In_get; [assumption|].
    unfold since in Hin. destruct (str_in p (keys table)); [|assumption].
    clear -Hin. induction table as [|[c cc] table IH]; [destruct Hin|].
    simpl in Hin. destruct (String.eqb c p); [assumption|]. right. auto.
  - intros (cd & Hg & Hreq). apply get_Some_In in Hg.
    destruct (get (fold_left network_step table []) p) as [node|].
    + destruct Hnode as (_ & _ & Hch). exists node. split; [reflexivity|].
      apply Hch. exists cd. split; [|assumption].
      now apply since_prerequisites_first.
    + destruct Hnode as (_ & Hnr). exfalso. apply Hnr.
      exists d, cd. split; [now apply In_get | assumption].
Qed.

Lemma foldM_seq_inversion {S} (f : S -> nat -> result S) (Inv : S -> nat -> Prop)
      (len start : nat) (acc acc' : S) :
  Inv acc start ->
  (forall t a a', (start <= t < start + len)%nat -> Inv a t ->
                  f a t = Ok a' -> Inv a' (Datatypes.S t)) ->
  foldM f (seq start len) acc = Ok acc' -> Inv acc' (start + len)%nat.
Proof.
  revert start acc. induction len as [|len IH]; intros start acc Hinv Hstep H.
  - simpl in H. injection H as <-. now rewrite Nat.add_0_r.
  - simpl in H. inv_bind H. rewrite <- Nat.add_succ_comm.
    apply (IH (Datatypes.S start) a); [| |assumption].
    + apply (Hstep start acc a); [lia | assumption | assumption].
    + intros t b b' Ht. apply Hstep. lia.
Qed.

Lemma index_nth {A} (l : list A) (i : nat) (x d : A) :
  index l i = Ok x -> nth i l d = x /\ (i < List.length l)%nat.
Proof.
  unfold index. destruct (nth_error l i) eqn:E; [|discriminate].
  intros [= <-]. split; [now apply nth_error_nth|].
  apply nth_error_Some. congruence.
Qed.

Lemma path_probability_prefix (params : HMMParams) (observations p q : list string)
      (t : nat) :
  (t < List.length p)%nat ->
  path_probability params observations (p ++ q) t
  = path_probability params observations p t.
Proof.
  induction t as [|t IH]; intros Ht; simpl.
  - now rewrite app_nth1 by lia.
  - rewrite IH by lia. now rewrite !app_nth1 by lia.
Qed.

Lemma Forall_nth_In (P : string -> Prop) (l : list string) (i : nat) :
  Forall P l -> (i < List.length l)%nat -> P (nth i l "").
Proof.
  intros H Hi. rewrite Forall_forall in H. apply H. now apply nth_In.
Qed.

Section Optimality.

Variable params : HMMParams.
Hypothesis Hwf : well_built params.
Hypothesis Htr : forall a b, In a (states params) -> In b (states params) ->
                             (0 <= transition_value params a b)%Q.
Hypothesis Hem : forall s o, In s (states params) ->
                             (0 <= emission_value params s o)%Q.

Lemma optimal_init (observations : list string) (V0 : dict Q) :
  viterbi_init params observations = Ok V0 ->
  optimal_invariant params observations
    ([V0], map (fun state => (state, [state])) (states params)) 1.
Proof.
  intros H. pose proof Hwf as (Hnd & _).
  split; [reflexivity|]. exists V0. split; [reflexivity|].
  intros s Hs. simpl.
  destruct (dict_for_get _ s Hnd H Hs) as (v & Hv & Hbody).
  inv_bind Hbody. rename a into start.
  inv_bind Hbody. rename a into row.
  inv_bind Hbody. rename a into obs0. injection Hbody as <-.
  apply getitem_Ok in Ha, Ha0.
  apply (index_nth _ _ "") in Ha1 as (Hobs0 & _).
  assert (Hval : start * get_default row obs0 1e-10
                 = start_value params s
                   * emission_value params s (nth 0 observations "")).
  { unfold start_value, emission_value, emission, get_default at 2, getitem.
    rewrite Ha, Ha0, Hobs0. reflexivity. }
  exists (start * get_default row obs0 1e-10), [s].
  split; [assumption|]. split.
  { apply In_get.
    - unfold keys. rewrite map_map. simpl. now rewrite map_id.
    - apply in_map_iff. now exists s. }
  split; [reflexivity|]. split; [now repeat constructor|].
  split; [reflexivity|]. split; [exact Hval|].
  intros p' _ _ Hlast. rewrite Hlast, Hval. apply Qle_refl.
Qed.

Lemma optimal_step (observations : list string)
      (acc acc' : list (dict Q) * dict (list string)) (t : nat) :
  (1 <= t < List.length observations)%nat ->
  optimal_invariant params observations acc t ->
  viterbi_step params observations acc t = Ok acc' ->
  optimal_invariant params observations acc' (S t).
Proof.
  destruct acc as [V path]. intros Ht (Hlen & V_prev & HVp & Hinv) H.
  simpl in Hlen, HVp, Hinv. pose proof Hwf as (Hnd & _).
  destruct t as [|t']; [lia|].
  replace (S t' - 1)%nat with t' in * by lia.
  unfold viterbi_step in H. replace (S t' - 1)%nat with t' in H by lia. inv_bind H. rename a into rows.
  injection H as <-. split; [simpl; rewrite length_app; simpl; lia|].
  eexists. split.
  { cbn [fst]. unfold index.
    replace (S (S t') - 1)%nat with (List.length V) by lia.
    rewrite nth_error_app2, Nat.sub_diag by lia.
    reflexivity. }
  set (t := S t') in *.
  intros s Hs. simpl.
  destruct (dict_for_get _ s Hnd Ha Hs) as ([max_prob new] & Hrow & Hbody).
  inv_bind Hbody. rename a into V_prev'.
  assert (V_prev' = V_prev) by congruence. subst V_prev'.
  inv_bind Hbody. rename a into obs_t.
  inv_bind Hbody. destruct a as [max_prob' best_state].
  inv_bind Hbody. rename a into best_path. injection Hbody as <- <-.
  unfold best_predecessor in Ha2. inv_bind Ha2. rename a into cands.
  apply max_tuple_spec in Ha2 as (Hin & Hmax).
  pose proof (candidates_states _ _ _ _ Ha4) as Hsnd.
  apply (index_nth _ _ "") in Ha1 as (Hobs & _).
  replace (S t - 1)%nat with t by lia.
  assert (Hbest : In best_state (states params)).
  { rewrite <- Hsnd. now apply (in_map snd) in Hin. }
  destruct (candidates_values _ _ _ _ _ _ Ha4 Hin)
    as (score & tr & em & Hscore & Htrb & Hemb & Hval).
  destruct (Hinv best_state Hbest)
    as (v & p & Hv & Hp & Hplen & Hpst & Hplast & Hpv & _).
  apply getitem_Ok in Ha3.
  assert (best_path = p) by congruence. subst best_path.
  assert (score = v) by congruence. subst score.
  exists max_prob', (p ++ [s]).
  rewrite (get_map_values fst), (get_map_values snd), Hrow. simpl.
  split; [reflexivity|]. split; [reflexivity|].
  split; [rewrite length_app; simpl; lia|].
  split; [apply Forall_app; split; [assumption | now repeat constructor]|].
  assert (Hnth : nth t (p ++ [s]) "" = s).
  { rewrite app_nth2 by lia. now replace (t - List.length p)%nat with 0%nat by lia. }
  split; [assumption|]. subst t.
  split.
  - cbn [path_probability]. rewrite Hnth.
    rewrite path_probability_prefix by lia.
    rewrite app_nth1 by lia. rewrite Hplast, Hobs.
    unfold transition_value, emission_value. rewrite Htrb, Hemb.
    now rewrite Hval, Hpv.
  - intros p' Hst' Hlen' Hlast'. cbn [path_probability].
    rewrite Hlast', Hobs.
    set (prev := nth t' p' "").
    assert (Hprev : In prev (states params)).
    { apply (@Forall_nth_In (fun x => In x (states params))); [assumption | lia]. }
    destruct (Hinv prev Hprev) as (v' & q & Hv' & _ & _ & _ & _ & _ & Hopt).
    assert (Hqb : (path_probability params observations p' t' <= v')%Q).
    { apply Hopt; [assumption | lia | reflexivity]. }
    assert (Hc : exists c, In (c, prev) cands).
    { rewrite <- Hsnd in Hprev. apply in_map_iff in Hprev as ([c x] & E & Hc).
      simpl in E. subst x. now exists c. }
    destruct Hc as (c & Hc).
    destruct (candidates_values _ _ _ _ _ _ Ha4 Hc)
      as (score' & tr' & em' & Hscore' & Htr' & Hem' & Hval').
    assert (score' = v') by congruence. subst score'.
    destruct (tuple_gt_false _ _ (Hmax _ Hc)) as (Hle & _). simpl in Hle.
    pose proof (Htr prev s Hprev Hs) as Htr0.
    pose proof (Hem s obs_t Hs) as Hem0.
    unfold transition_value, emission_value in *.
    rewrite Htr' in *. rewrite Hem' in *.
    apply Qle_trans with (y := c); [|assumption]. rewrite Hval'.
    apply Qmult_le_compat_r; [|assumption].
    apply Qmult_le_compat_r; assumption.
Qed.

Lemma viterbi_optimal (self : MathConceptHMM) (observations : list string)
      (prob : Q) (path : list string) :
  hmm_params self = params ->
  viterbi self observations = Ok (prob, path) ->
  observations <> []
  /\ List.length path = List.length observations
  /\ Forall (fun x => In x (states params)) path
  /\ prob = path_probability params observations path
                             (List.length observations - 1)
  /\ forall path',
       List.length path' = List.length observations ->
       Forall (fun x => In x (states params)) path' ->
       (path_probability params observations path'
                         (List.length observations - 1) <= prob)%Q.
Proof.
  intros Hself H. unfold viterbi in H. rewrite Hself in H.
  pose proof Hwf as (Hnd & _).
  inv_bind H. rename a into V0.
  inv_bind H. destruct a as [V paths].
  inv_bind H. rename a into V_last.
  inv_bind H. rename a into finals.
  inv_bind H. destruct a as [prob' best].
  inv_bind H. rename a into best_path. injection H as <- <-.
  assert (Hstates : states params <> []).
  { intros E. apply max_tuple_spec in Ha3 as (Hin & _).
    apply mapM_Ok in Ha2. rewrite E in Ha2. inversion Ha2; subst.
    destruct Hin. }
  assert (Hobs : observations <> []).
  { intros ->.
    assert (Hex : exists s, In s (states params)).
    { clear -Hstates. destruct (states params) as [|s l];
        [congruence | exists s; now left]. }
    destruct Hex as (s & Hs).
    destruct (dict_for_get _ s Hnd Ha Hs) as (v & _ & Hbody).
    inv_bind Hbody. inv_bind Hbody. inv_bind Hbody. discriminate. }
  split; [assumption|].
  assert (Hn : (1 + (List.length observations - 1) = List.length observations)%nat).
  { destruct observations; [congruence | simpl; lia]. }
  assert (Hinv : optimal_invariant params observations (V, paths)
                   (1 + (List.length observations - 1))).
  { apply (@foldM_seq_inversion _ (viterbi_step params observations)
             (optimal_invariant params observations)
             (List.length observations - 1) 1
             ([V0], map (fun state => (state, [state])) (states params))).
    - now apply optimal_init.
    - intros t a a' Ht. apply optimal_step. lia.
    - assumption. }
  rewrite Hn in Hinv. destruct Hinv as (Hlen & V_prev & HVp & Hinv).
  simpl in Hlen, HVp, Hinv.
  assert (V_last = V_prev).
  { unfold index_last in Ha1. destruct V; [discriminate|].
    rewrite Hlen in Ha1. congruence. }
  subst V_last.
  apply max_tuple_spec in Ha3 as (Hin & Hmax).
  apply mapM_Ok in Ha2.
  destruct (Forall2_In_r _ Ha2 Hin) as (s & Hs & Hbody).
  inv_bind Hbody. injection Hbody as -> ->.
  destruct (Hinv best Hs) as (v & p & Hv & Hp & Hplen & Hpst & Hplast & Hpv & _).
  apply getitem_Ok in Ha3, Ha4.
  assert (best_path = p) by congruence. subst best_path.
  assert (prob' = v) by congruence. subst prob'.
  split; [assumption|]. split; [assumption|]. split; [assumption|].
  intros path' Hlen' Hst'.
  set (s' := nth (List.length observations - 1) path' "").
  assert (Hs' : In s' (states params)).
  { apply (@Forall_nth_In (fun x => In x (states params))); [assumption | lia]. }
  destruct (Hinv s' Hs') as (v' & q & Hv' & _ & _ & _ & _ & _ & Hopt).
  apply Qle_trans with (y := v'); [apply Hopt; [assumption | lia | reflexivity]|].
  destruct (Forall2_In_l _ Ha2 Hs') as ([c x] & Hc & Hbody).
  inv_bind Hbody. injection Hbody as <- <-. apply getitem_Ok in Ha5.
  assert (a = v') by congruence. subst a.
  destruct (tuple_gt_false _ _ (Hmax _ Hc)) as (Hle & _). exact Hle.
Qed.

End Optimality.

(** ** The entries of a built model, as values *)

Lemma built_transition_value (env : PyEnv) (table : dict Concept)
      (h : MathConceptHMM) (A B : string) :
  NoDup (keys table) ->
  MathKnowledgeBase_init env table = Ok h ->
  In A (keys table) -> In B (keys table) ->
  transition (hmm_params h) A B = Ok (transition_value (hmm_params h) A B)
  /\ (0 < transition_value (hmm_params h) A B)%Q.
Proof.
  intros Hnd Hinit HA HB.
  destruct (@built_model_well_built env table h Hnd Hinit) as (Hst & Hwb).
  destruct (@transition_total _ Hwb A B) as (v & Hv); try now rewrite Hst.
  unfold transition_value. rewrite Hv. split; [reflexivity|].
  exact (@transition_positive env table h A B v Hnd Hinit HA HB Hv).
Qed.

Lemma built_emission_value (env : PyEnv) (table : dict Concept)
      (h : MathConceptHMM) (c o : string) (concept : Concept) :
  NoDup (keys table) ->
  MathKnowledgeBase_init env table = Ok h ->
  get table c = Some concept ->
  NoDup (keywords concept) ->
  emission (hmm_params h) c o = Ok (emission_value (hmm_params h) c o)
  /\ (0 < emission_value (hmm_params h) c o)%Q.
Proof.
  intros Hnd Hinit Hc Hkw.
  destruct (@emission_entries env table h c concept Hnd Hinit Hc) as (row & Hrow & _).
  unfold emission_value, emission, getitem. rewrite Hrow. simpl.
  split; [reflexivity|].
  exact (@emission_positive env table h c concept row o Hnd Hinit Hc Hkw Hrow).
Qed.

(** X12.  On a model built from a table whose keyword lists have no
    repetition, [viterbi] returns, for every non-empty observation list, a
    state sequence with one state per observation, together with its joint
    probability; no sequence of states of that length is more probable. *)
Theorem viterbi_most_probable_path
        (env : PyEnv) (table : dict Concept) (h : MathConceptHMM)
        (observations : list string) :
  table <> [] ->
  NoDup (keys table) ->
  (forall c concept, get table c = Some concept -> NoDup (keywords concept)) ->
  MathKnowledgeBase_init env table = Ok h ->
  observations <> [] ->
  exists prob path,
    viterbi h observations = Ok (prob, path)
    /\ List.length path = List.length observations
    /\ Forall (fun s => In s (keys table)) path
    /\ prob = path_probability (hmm_params h) observations path
                               (List.length observations - 1)
    /\ forall path',
         List.length path' = List.length observations ->
         Forall (fun s => In s (keys table)) path' ->
         (path_probability (hmm_params h) observations path'
                           (List.length observations - 1) <= prob)%Q.
Proof.
  intros Hne Hnd Hkw Hinit Hobs.
  destruct (@built_model_well_built env table h Hnd Hinit) as (Hst & Hwb).
  assert (Hstates : states (hmm_params h) <> []).
  { rewrite Hst. destruct table; [congruence | discriminate]. }
  destruct (@viterbi_total _ Hwb Hstates h observations eq_refl Hobs)
    as (prob & path & Hv & _).
  exists prob, path. split; [assumption|].
  assert (Htr : forall a b, In a (states (hmm_params h)) ->
                            In b (states (hmm_params h)) ->
                            (0 <= transition_value (hmm_params h) a b)%Q).
  { intros a b Ha Hb. rewrite Hst in Ha, Hb. apply Qlt_le_weak.
    now apply (@built_transition_value env table h a b Hnd Hinit). }
  assert (Hem : forall s o, In s (states (hmm_params h)) ->
                            (0 <= emission_value (hmm_params h) s o)%Q).
  { intros s o Hs. rewrite Hst in Hs.
    destruct (In_keys_get table s Hs) as (concept & Hc).
    apply Qlt_le_weak.
    apply (@built_emission_value env table h s o concept); eauto. }
  destruct (@viterbi_optimal _ Hwb Htr Hem h observations prob path eq_refl Hv)
    as (_ & Hlen & Hpath & Hprob & Hopt).
  rewrite Hst in Hpath, Hopt. auto.
Qed.

(** ** Bounds on the parameters of a built model *)





Lemma built_observations (env : PyEnv) (table : dict Concept) (h : MathConceptHMM) :
  MathKnowledgeBase_init env table = Ok h ->
  observations (hmm_params h) = vocabulary env table.
Proof.
  intros H. apply MathKnowledgeBase_init_Ok in H as (net & _ & Hkb & Hinit & _).
  apply _initialize_hmm_observations in Hinit. now rewrite Hkb in Hinit.
Qed.

(** X8.  A symbol outside the vocabulary (every composite pattern name that
    is not also a keyword, such as [equation] on the reference table) has
    the floor emission [1e-10] in every state, however the concepts differ. *)
Theorem emission_floor
        (env : PyEnv) (table : dict Concept) (h : MathConceptHMM)
        (c o : string) :
  NoDup (keys table) ->
  MathKnowledgeBase_init env table = Ok h ->
  In c (keys table) ->
  ~ In o (vocabulary env table) ->
  emission (hmm_params h) c o = Ok 1e-10.
Proof.
  intros Hnd Hinit Hc Ho.
  destruct (In_keys_get table c Hc) as (concept & Hconcept).
  destruct (@emission_entries env table h c concept Hnd Hinit Hconcept)
    as (row & Hrow & Hkeys & _).
  unfold emission, getitem. rewrite Hrow. simpl. unfold get_default.
  rewrite <- (@built_observations env table h Hinit), <- Hkeys in Ho.
  apply get_None in Ho. now rewrite Ho.
Qed.


Lemma Qdiv_le_unit (a b : Q) : (0 <= a -> 1 <= b -> a / b <= a)%Q.
Proof.
  intros Ha Hb. apply Qle_shift_div_r; [lra|].
  assert (H : (0 <= a * (b - 1))%Q) by (apply Qmult_le_0_compat; lra).
  lra.
Qed.



Lemma inject_Z_ge_1 (z : Z) : (1 <= z)%Z -> (1 <= inject_Z z)%Q.
Proof. intros H. change 1%Q with (inject_Z 1). now rewrite <- Zle_Qle. Qed.

Lemma transition_upper (env : PyEnv) (table : dict Concept) (h : MathConceptHMM)
      (A B : string) (concept_A concept_B : Concept) :
  NoDup (keys table) ->
  MathKnowledgeBase_init env table = Ok h ->
  get table A = Some concept_A ->
  get table B = Some concept_B ->
  exists v,
    transition (hmm_params h) A B = Ok v
    /\ (0 < v)%Q
    /\ (B = A -> v = 0.7 * eff_prob concept_B)
    /\ (B <> A -> v <= 0.27 * eff_prob concept_B)%Q.
Proof.
  intros Hnd Hinit HA HB.
  destruct (@transition_entry env table h A B concept_A concept_B Hnd Hinit HA HB)
    as (node & _ & _ & Hz & Hentry).
  eexists. split; [exact Hentry|].
  split.
  { exact (@transition_positive env table h A B _ Hnd Hinit
             (@In_keys_table _ table A concept_A HA)
             (@In_keys_table _ table B concept_B HB) Hentry). }
  pose proof (eff_prob_pos concept_B) as Heff.
  assert (Hlen : (1 <= len (keys table) - 1)%Z).
  { apply Qeq_bool_neq in Hz.
    assert (len (keys table) - 1 <> 0)%Z
      by (intros E; apply Hz; rewrite E; reflexivity).
    apply In_keys_table in HA.
    unfold len in *. destruct (keys table); [destruct HA|].
    simpl List.length in *. lia. }
  destruct (String.eqb_spec B A) as [E | E]; split; try congruence; intros _.
  destruct (str_in B (connected_states node)).
  - apply Qmult_le_compat_r; [|lra].
    assert (H : (0.9 / inject_Z (Z.max (len (connected_states node)) 1) <= 0.9)%Q).
    { apply Qdiv_le_unit; [lra|]. apply inject_Z_ge_1. lia. }
    lra.
  - apply Qmult_le_compat_r; [|lra].
    assert (H : (0.1 / inject_Z (len (keys table) - 1) <= 0.1)%Q).
    { apply Qdiv_le_unit; [lra|]. now apply inject_Z_ge_1. }
    lra.
Qed.

(** X10.  Staying in a concept is always more probable than entering it:
    for every concept [B], the self-transition is [0.7 * effProb(B)], and
    the transition from any other concept into [B] is positive and at most
    [0.27 * effProb(B)], whatever the prerequisite graph. *)
Theorem self_transition_dominates
        (env : PyEnv) (table : dict Concept) (h : MathConceptHMM)
        (A B : string) (concept_B : Concept) :
  NoDup (keys table) ->
  MathKnowledgeBase_init env table = Ok h ->
  In A (keys table) ->
  get table B = Some concept_B ->
  A <> B ->
  exists v w,
    transition (hmm_params h) A B = Ok v
    /\ transition (hmm_params h) B B = Ok w
    /\ w = 0.7 * eff_prob concept_B
    /\ (0 < v)%Q /\ (v <= 0.27 * eff_prob concept_B)%Q /\ (v < w)%Q.
Proof.
  intros Hnd Hinit HA HB Hne.
  destruct (In_keys_get table A HA) as (concept_A & HcA).
  destruct (@transition_upper env table h A B concept_A concept_B
              Hnd Hinit HcA HB) as (v & Hv & Hpos & _ & Hle).
  destruct (@transition_upper env table h B B concept_B concept_B
              Hnd Hinit HB HB) as (w & Hw & _ & Heq & _).
  exists v, w. specialize (Heq eq_refl).
  assert (Hle' : (v <= 0.27 * eff_prob concept_B)%Q) by (apply Hle; congruence).
  pose proof (eff_prob_pos concept_B).
  repeat split; try assumption. rewrite Heq. lra.
Qed.


(** ** What [analyze_question] returns on the decoding path *)





(** X13.  [viterbi] has no guard for its two degenerate inputs: on a model
    with at least one state an empty observation list raises [IndexError]
    (at [observations[0]]), and on a model without states every observation
    list raises [ValueError] (the final [max] ranges over nothing). *)
Theorem viterbi_errors (self : MathConceptHMM) :
  well_built (hmm_params self) ->
  (states (hmm_params self) <> [] -> viterbi self [] = Raise IndexError)
  /\ (states (hmm_params self) = [] ->
      forall observations, viterbi self observations = Raise ValueError).
Proof.
  intros (Hnd & Hstart & _ & _ & Hem). split.
  - intros Hne. unfold viterbi, viterbi_init, dict_for.
    destruct (states (hmm_params self)) as [|s l]; [congruence|].
    destruct (getitem_total (start_probabilities (hmm_params self)) s)
      as (v & Hv); [rewrite Hstart; now left|].
    destruct (getitem_total (emission_matrix (hmm_params self)) s)
      as (row & Hrow); [rewrite Hem; now left|].
    simpl. rewrite Hv, Hrow. reflexivity.
  - intros Hempty observations.
    assert (Hinit : viterbi_init (hmm_params self) observations = Ok []).
    { unfold viterbi_init, dict_for. now rewrite Hempty. }
    unfold viterbi. cbv zeta. rewrite Hinit, Hempty. cbn [bind map].
    assert (Hloop : forall l V, V <> [] ->
              exists V', foldM (viterbi_step (hmm_params self) observations) l
                               (V, []) = Ok (V', []) /\ V' <> []).
    { induction l as [|t l IH]; intros V HV; [now exists V|].
      assert (Hstep : viterbi_step (hmm_params self) observations (V, []) t
                      = Ok (V ++ [[]], [])).
      { unfold viterbi_step, dict_for. rewrite Hempty. reflexivity. }
      cbn [foldM]. rewrite Hstep. cbn [bind].
      apply IH. now destruct V. }
    destruct (Hloop (seq 1 (List.length observations - 1)) [[]])
      as (V' & HV & HV'); [discriminate|].
    unfold dict in *. rewrite HV. cbn [bind]. destruct (index_last_Ok HV') as (V_last & -> & _). reflexivity.
Qed.

(** ** A single symbol outside the vocabulary *)





(** ** The mass of an emission row *)

Lemma filter_partition_length {A} (p : A -> bool) (l : list A) :
  (List.length (filter p l) + List.length (filter (fun x => negb (p x)) l)
   = List.length l)%nat.
Proof.
  induction l as [|x l IH]; [reflexivity|]. simpl.
  destruct (p x); simpl; lia.
Qed.

Lemma sum_two_valued {A} (p : A -> bool) (a b : Q) (l : list A) :
  sum (map (fun x => if p x then a else b) l)
  == a * inject_Z (len (filter p l))
     + b * inject_Z (len (filter (fun x => negb (p x)) l)).
Proof.
  induction l as [|x l IH]; [unfold sum, len; simpl; ring|].
  simpl map. rewrite sum_cons, IH. unfold len. simpl filter.
  destruct (p x); simpl negb; cbn [List.length];
    rewrite Nat2Z.inj_succ, <- Z.add_1_r, inject_Z_plus; simpl inject_Z; ring.
Qed.

Lemma values_by_keys {V} (d : dict V) (default : V) :
  NoDup (keys d) ->
  values d = map (fun k => get_default d k default) (keys d).
Proof.
  intros Hnd. unfold values, keys. rewrite map_map. apply map_ext_in.
  intros [k v] Hin. simpl. unfold get_default.
  now rewrite (In_get _ _ _ Hnd Hin).
Qed.

Lemma keyword_count (env : PyEnv) (table : dict Concept) (c : string)
      (concept : Concept) :
  get table c = Some concept ->
  NoDup (keywords concept) ->
  List.length (filter (fun o => str_in o (keywords concept))
                      (vocabulary env table))
  = List.length (keywords concept).
Proof.
  intros Hc Hkw. apply Permutation_length, NoDup_Permutation.
  - apply NoDup_filter, set_iter_NoDup.
  - assumption.
  - intros x. rewrite filter_In, str_in_In. split; [tauto|].
    intros Hx. split; [|assumption]. eapply keyword_in_vocabulary; eauto.
Qed.

(** X9.  An emission row is not a distribution: for a concept with at least
    one keyword and at least one vocabulary symbol that is not its keyword,
    the entries of its row sum to the concept's effective probability
    ([0.8] of it on the keywords, [0.2] on the other symbols); when the
    keywords span the vocabulary the row sums to [0.8] of it. *)
Theorem emission_row_mass
        (env : PyEnv) (table : dict Concept) (h : MathConceptHMM)
        (c : string) (concept : Concept) (row : dict Q) :
  NoDup (keys table) ->
  MathKnowledgeBase_init env table = Ok h ->
  get table c = Some concept ->
  NoDup (keywords concept) ->
  keywords concept <> [] ->
  get (emission_matrix (hmm_params h)) c = Some row ->
  ((exists o, In o (vocabulary env table) /\ ~ In o (keywords concept)) ->
   sum (values row) == eff_prob concept)
  /\ (covers_vocabulary env table concept ->
      sum (values row) == 0.8 * eff_prob concept).
Proof.
  intros Hnd Hinit Hc Hkw Hne Hrow.
  destruct (@emission_entries env table h c concept Hnd Hinit Hc)
    as (row' & Hrow' & Hkeys & Hentries).
  assert (row' = row) by congruence. subst row'.
  pose proof (@built_observations env table h Hinit) as Hobs.
  rewrite Hobs in Hkeys, Hentries.
  set (n := len (vocabulary env table)) in *.
  set (k := len (keywords concept)) in *.
  set (a := 0.8 / inject_Z k * eff_prob concept).
  set (b := 0.2 / inject_Z (n - k) * eff_prob concept).
  assert (Hvalues : values row
                    = map (fun o => if str_in o (keywords concept) then a else b)
                          (vocabulary env table)).
  { rewrite (values_by_keys row 0); [|rewrite Hkeys; apply set_iter_NoDup].
    rewrite Hkeys. apply map_ext_in. intros o Ho.
    destruct (Hentries o Ho) as (Hin & Hout). unfold get_default.
    destruct (str_in o (keywords concept)) eqn:E.
    - apply str_in_In in E. now rewrite (Hin E).
    - apply str_in_false in E. destruct (Hout E) as (-> & _). reflexivity. }
  assert (Hcount : len (filter (fun o => str_in o (keywords concept))
                               (vocabulary env table)) = k).
  { unfold len, k. now rewrite (@keyword_count env table c concept Hc Hkw). }
  assert (Hrest : len (filter (fun o => negb (str_in o (keywords concept)))
                              (vocabulary env table)) = (n - k)%Z).
  { pose proof (filter_partition_length
                  (fun o => str_in o (keywords concept)) (vocabulary env table))
      as Hp.
    rewrite (@keyword_count env table c concept Hc Hkw) in Hp.
    unfold n, k, len. lia. }
  assert (Hk : (0 < k)%Z).
  { unfold k, len. destruct (keywords concept); [congruence|].
    simpl List.length. lia. }
  assert (Hk' : ~ inject_Z k == 0).
  { apply inject_Z_nonzero. lia. }
  rewrite Hvalues, sum_two_valued, Hcount, Hrest.
  split.
  - intros (o & Ho & Hnot).
    destruct (Hentries o Ho) as (_ & Hout). destruct (Hout Hnot) as (_ & Hz).
    fold n k in Hz. unfold a, b. field. split; assumption.
  - intros Hcover.
    assert (Hnk : (n - k = 0)%Z).
    { rewrite <- Hrest. unfold len.
      assert (E : filter (fun o => negb (str_in o (keywords concept)))
                         (vocabulary env table) = []).
      { rewrite (filter_ext_in (fun o => negb (str_in o (keywords concept)))
                               (fun _ => false)).
        - apply filter_false.
        - intros o Ho. apply negb_false_iff. now apply str_in_In, Hcover. }
      now rewrite E. }
    rewrite Hnk. unfold a. simpl inject_Z at 2. field. assumption.
Qed.

(** ** Extraction in terms of the concept table *)

Lemma patterns_built (env : PyEnv) (table : dict Concept) (h : MathConceptHMM) :
  MathKnowledgeBase_init env table = Ok h ->
  patterns h = map (fun k => (k, keyword_pattern k)) (vocabulary env table)
  /\ special_patterns h = the_special_patterns.
Proof.
  intros H. apply MathKnowledgeBase_init_Ok in H as (net & _ & Hkb & Hinit & Hp & Hs).
  apply _initialize_hmm_observations in Hinit. rewrite Hkb in Hinit. simpl in Hinit.
  split; [|assumption]. rewrite Hp. simpl. rewrite Hinit.
  rewrite fill_pure_NoDup; [reflexivity|apply set_iter_NoDup|auto].
Qed.

Lemma hits_keywords (env : PyEnv) (l : list string) (question : string) :
  hits env (map (fun k => (k, keyword_pattern k)) l) question
  = filter (fun k => re_search env (keyword_pattern k) question) l.
Proof.
  unfold hits. induction l as [|k l IH]; [reflexivity|]. simpl.
  destruct (re_search env (keyword_pattern k) question); simpl; now rewrite IH.
Qed.

(** X4.  The extracted list is made of the vocabulary keywords whose
    whole-word pattern is found, in the order of the vocabulary, followed by
    the names of the composite patterns found, in the order of the source
    literal; [operand] is produced only when neither part has an element and
    the question holds a number. *)
Theorem extraction_characterization
        (env : PyEnv) (table : dict Concept) (h : MathConceptHMM)
        (question : string) :
  MathKnowledgeBase_init env table = Ok h ->
  let found :=
    filter (fun k => re_search env (keyword_pattern k) question)
           (vocabulary env table)
    ++ hits env the_special_patterns question in
  (found <> [] -> _extract_observations env h question = found)
  /\ (found = [] ->
      _extract_observations env h question
      = if re_search env number_pattern question then ["operand"] else [])
  /\ (forall s,
         In s found
         <-> (In s (vocabulary env table)
              /\ re_search env (keyword_pattern s) question = true)
             \/ (exists p, In (s, p) the_special_patterns
                           /\ re_search env p question = true)).
Proof.
  intros H found. destruct (@patterns_built env table h H) as (HK & HS).
  assert (E : _extract_observations env h question
              = match found with
                | [] => if re_search env number_pattern question
                        then ["operand"] else []
                | _ => found
                end).
  { unfold _extract_observations. rewrite HK, HS, hits_keywords. reflexivity. }
  split; [|split].
  - intros Hne. rewrite E. now destruct found.
  - intros Hnil. rewrite E. now rewrite Hnil.
  - intros s. unfold found. rewrite in_app_iff, filter_In. split.
    + intros [Hk | Hs]; [now left|]. right. now apply hits_sub.
    + intros [Hk | (p & Hin & Hm)]; [now left|]. right.
      unfold hits. apply in_map_iff. exists (s, p). split; [reflexivity|].
      apply filter_In. now split.
Qed.

Lemma filter_Permutation {A} (f : A -> bool) (l l' : list A) :
  Permutation l l' -> Permutation (filter f l) (filter f l').
Proof.
  induction 1 as [|x l l' _ IH|x y l|l l' l'' _ IH1 _ IH2]; simpl.
  - constructor.
  - destruct (f x); [now constructor | assumption].
  - destruct (f x), (f y); try apply Permutation_refl.
    apply perm_swap.
  - now apply Permutation_trans with (l' := filter f l').
Qed.

Lemma vocabulary_Permutation (env env' : PyEnv) (table : dict Concept) :
  Permutation (vocabulary env table) (vocabulary env' table).
Proof.
  apply NoDup_Permutation; try apply set_iter_NoDup.
  intros x. unfold vocabulary. now rewrite !set_iter_In.
Qed.

(** X5.  The order in which the interpreter iterates the keyword set changes
    the order of the extracted symbols only: two interpreters with the same
    regular-expression engine extract permutations of one another. *)
Theorem extraction_up_to_set_order
        (env env' : PyEnv) (table : dict Concept) (h h' : MathConceptHMM)
        (question : string) :
  re_search env = re_search env' ->
  MathKnowledgeBase_init env table = Ok h ->
  MathKnowledgeBase_init env' table = Ok h' ->
  Permutation (_extract_observations env h question)
              (_extract_observations env' h' question).
Proof.
  intros Hre H H'.
  destruct (@patterns_built env table h H) as (HK & HS).
  destruct (@patterns_built env' table h' H') as (HK' & HS').
  unfold _extract_observations.
  rewrite HK, HS, HK', HS', !hits_keywords. unfold hits. rewrite <- Hre.
  set (K := filter (fun k => re_search env (keyword_pattern k) question)
                   (vocabulary env table)).
  set (K' := filter (fun k => re_search env (keyword_pattern k) question)
                    (vocabulary env' table)).
  set (S := map fst (filter (fun '(_, pattern) => re_search env pattern question)
                            the_special_patterns)).
  assert (HP : Permutation (K ++ S) (K' ++ S)).
  { apply Permutation_app_tail, filter_Permutation, vocabulary_Permutation. }
  destruct (K ++ S) as [|x l] eqn:E, (K' ++ S) as [|x' l'] eqn:E'.
  - apply Permutation_refl.
  - apply Permutation_nil in HP. discriminate.
  - apply Permutation_sym, Permutation_nil in HP. discriminate.
  - assumption.
Qed.

(** X17.  The analysis itself is not independent of that order: on the
    reference table, the question [add the roots] is classified as
    [quadratic_equations] when the keyword set is iterated in insertion
    order and as [derivatives] when it is iterated in the reverse order. *)
Theorem analysis_depends_on_set_order :
  exists env env' h h' question,
    re_search env = re_search env'
    /\ str_lower env = str_lower env'
    /\ MathKnowledgeBase_init env _initialize_concepts = Ok h
    /\ MathKnowledgeBase_init env' _initialize_concepts = Ok h'
    /\ main_concept_of (analyze_question env h question)
       = Some "quadratic_equations"
    /\ main_concept_of (analyze_question env' h' question)
       = Some "derivatives".
Proof.
  exists ascii_env, rev_env, reference_model, reversed_model, "add the roots".
  split; [reflexivity|]. split; [reflexivity|].
  split; [vm_compute; reflexivity|]. split; [vm_compute; reflexivity|].
  split; vm_compute; reflexivity.
Qed.

(** ** The whole-word patterns of the keywords *)

Lemma matches_escape (k : string) (prev : option ascii) (s : list ascii)
      (K : option ascii -> list ascii -> bool) :
  Re.matches true (Re.escape k) prev s K = true
  <-> exists m rest,
        s = m ++ rest
        /\ Forall2 (fun a c => same_letter a c = true) m (list_ascii_of_string k)
        /\ K (last_char prev m) rest = true.
Proof.
  revert prev s. induction k as [|c k IH]; intros prev s; simpl.
  - split.
    + intros H. exists [], s. repeat split; [constructor | assumption].
    + intros (m & rest & -> & Hm & HK). inversion Hm; subst. assumption.
  - destruct s as [|a s].
    + split; [discriminate|].
      intros (m & rest & E & Hm & _). inversion Hm; subst. discriminate.
    + fold (same_letter a c). destruct (same_letter a c) eqn:Eac.
      * rewrite IH. split.
        -- intros (m & rest & -> & Hm & HK). exists (a :: m), rest.
           repeat split; [now constructor | assumption].
        -- intros (m & rest & E & Hm & HK). inversion Hm; subst.
           injection E as <- ->. eauto.
      * split; [discriminate|].
        intros (m & rest & E & Hm & _). inversion Hm; subst.
        injection E as <- ->. congruence.
Qed.

Lemma search_from_spec (ic : bool) (r : Re.regex) (prev : option ascii)
      (s : list ascii) :
  Re.search_from ic r prev s = true
  <-> exists pre post,
        s = pre ++ post
        /\ Re.matches ic r (last_char prev pre) post (fun _ _ => true) = true.
Proof.
  revert prev. induction s as [|a s IH]; intros prev; simpl.
  - rewrite orb_false_r. split.
    + intros H. now exists [], [].
    + intros (pre & post & E & H). symmetry in E.
      apply app_eq_nil in E as (-> & ->). assumption.
  - rewrite orb_true_iff, IH. split.
    + intros [H | (pre & post & -> & H)].
      * now exists [], (a :: s).
      * now exists (a :: pre), post.
    + intros (pre & post & E & H). destruct pre as [|a' pre].
      * left. simpl in E, H. now subst.
      * right. injection E as <- ->. now exists pre, post.
Qed.

(** X6.  A keyword is found in a text exactly when it occurs there as a whole
    word, letters compared without case: the occurrence is preceded and
    followed by a word boundary. *)
Theorem keyword_pattern_whole_word (k text : string) :
  Re.search (keyword_pattern k) text = true <-> whole_word k text.
Proof.
  unfold Re.search, keyword_pattern, whole_word. simpl Re.expr.
  simpl Re.ignorecase. rewrite search_from_spec. split.
  - intros (pre & post & E & H). cbn [re_seq fold_right Re.matches] in H.
    fold (word_boundary (last_char None pre) (hd_error post)) in H.
    destruct (word_boundary (last_char None pre) (hd_error post)) eqn:Eb;
      [|discriminate].
    apply matches_escape in H as (m & rest & -> & Hm & H).
    fold (word_boundary (last_char (last_char None pre) m) (hd_error rest)) in H.
    destruct (word_boundary (last_char (last_char None pre) m) (hd_error rest))
      eqn:Eb'; [|discriminate].
    exists pre, m, rest. unfold last_char in *. rewrite fold_left_app. auto.
  - intros (pre & m & post & E & Hm & Hb & Hb').
    exists pre, (m ++ post). split; [assumption|].
    cbn [re_seq fold_right Re.matches].
    fold (word_boundary (last_char None pre) (hd_error (m ++ post))).
    rewrite Hb. apply matches_escape. exists m, post.
    split; [reflexivity|]. split; [assumption|].
    fold (word_boundary (last_char (last_char None pre) m) (hd_error post)).
    unfold last_char in *. rewrite fold_left_app in Hb'. now rewrite Hb'.
Qed.





(** X15.  The empty question has no observation, whatever the concept table:
    [analyze_question] returns its error result. *)
Theorem analyze_empty_question_any_table
        (env : PyEnv) (table : dict Concept) (h : MathConceptHMM) :
  re_search env = Re.search ->
  str_lower env = Re.lower ->
  MathKnowledgeBase_init env table = Ok h ->
  analyze_question env h ""
  = Ok (NoMatch "No relevant patterns found in question" []).
Proof.
  intros Hre Hlow H. destruct (@patterns_built env table h H) as (HK & HS).
  unfold analyze_question, _extract_observations.
  rewrite HK, HS, hits_keywords, Hlow. unfold hits. rewrite Hre. simpl Re.lower.
  assert (Hk : forall l, filter (fun k => Re.search (keyword_pattern k) "") l
                         = []).
  { induction l as [|k l IH]; [reflexivity|].
    cbn [filter]. destruct (Re.search (keyword_pattern k) "") eqn:E; [|assumption].
    apply keyword_pattern_whole_word in E
      as (pre & m & post & E & _ & Hb & _).
    simpl in E. symmetry in E. apply app_eq_nil in E as (-> & E).
    apply app_eq_nil in E as (-> & ->). discriminate. }
  rewrite Hk. reflexivity.
Qed.

(** ** The plan of a practice test *)

Lemma sum_Z_acc (l : list Z) (a : Z) : fold_left Z.add l a = (a + sum_Z l)%Z.
Proof.
  unfold sum_Z. revert a. induction l as [|x l IH]; intros a; simpl; [lia|].
  rewrite IH, (IH x). lia.
Qed.

Lemma sum_Z_cons (x : Z) (l : list Z) : sum_Z (x :: l) = (x + sum_Z l)%Z.
Proof. unfold sum_Z. simpl. now rewrite sum_Z_acc. Qed.

Lemma sum_Z_constant (l : list string) (v : Z) :
  sum_Z (map (fun _ => v) l) = (len l * v)%Z.
Proof.
  unfold len. induction l as [|x l IH]; [reflexivity|].
  simpl map. rewrite sum_Z_cons, IH. simpl List.length. lia.
Qed.

Lemma sum_Z_values_set (d : dict Z) (k : string) (old v : Z) :
  get d k = Some old ->
  NoDup (keys d) ->
  sum_Z (values (set d k v)) = (sum_Z (values d) - old + v)%Z.
Proof.
  induction d as [|[k' v'] d IH]; simpl; [discriminate|].
  intros Hget Hnd. inversion Hnd as [|? ? Hk Hnd']; subst.
  destruct (String.eqb_spec k' k) as [->|Hne].
  - injection Hget as ->. unfold values. simpl. rewrite !sum_Z_cons. lia.
  - unfold values in *. simpl. rewrite !sum_Z_cons, (IH Hget Hnd'). lia.
Qed.

Lemma constant_dict (ks : list string) (v : Z) (f : string -> result Z) :
  NoDup ks ->
  (forall k, In k ks -> f k = Ok v) ->
  dict_for ks f = Ok (map (fun k => (k, v)) ks).
Proof.
  intros Hnd Hf. rewrite dict_for_NoDup by assumption.
  assert (E : mapM f ks = Ok (map (fun _ => v) ks)).
  { clear Hnd. induction ks as [|k ks IH]; [reflexivity|]. simpl.
    rewrite (Hf k) by now left. simpl. rewrite IH; [reflexivity|].
    intros k' Hk'. apply Hf. now right. }
  rewrite E. simpl. f_equal. clear. induction ks as [|k ks IH]; [reflexivity|].
  simpl. now rewrite IH.
Qed.

(** X18.  The numbers of questions planned for the concepts to cover always
    add up to [num_questions]: every concept other than the main one gets
    [max(2, num_questions // k)] for [k] concepts, and the main concept gets
    what is left, [num_questions - (k - 1) * max(2, num_questions // k)],
    which is zero or negative when [num_questions] is small. *)
Theorem question_counts
        (concept : string) (num_questions : Z) (concepts_to_cover : list string) :
  NoDup concepts_to_cover ->
  In concept concepts_to_cover ->
  exists counts,
    questions_per_concept concept num_questions concepts_to_cover = Ok counts
    /\ keys counts = concepts_to_cover
    /\ sum_Z (values counts) = num_questions
    /\ get counts concept
       = Some (num_questions
               - (len concepts_to_cover - 1)
                 * share num_questions concepts_to_cover)%Z
    /\ forall c, In c concepts_to_cover -> c <> concept ->
                 get counts c = Some (share num_questions concepts_to_cover).
Proof.
  intros Hnd Hin. unfold questions_per_concept.
  set (per := share num_questions concepts_to_cover).
  set (d := map (fun k => (k, per)) concepts_to_cover).
  assert (Hlen : (len concepts_to_cover =? 0)%Z = false).
  { apply Z.eqb_neq. unfold len. destruct concepts_to_cover; [destruct Hin|].
    simpl List.length. lia. }
  rewrite (@constant_dict concepts_to_cover per); [|assumption|].
  2: { intros k _. now rewrite Hlen. }
  fold d. cbn [bind].
  assert (Hkeys : keys d = concepts_to_cover).
  { unfold d, keys. rewrite map_map. simpl. apply map_id. }
  assert (Hget : forall c, In c concepts_to_cover -> get d c = Some per).
  { intros c Hc. apply In_get; [now rewrite Hkeys|].
    unfold d. apply in_map_iff. now exists c. }
  assert (Hsum : sum_Z (values d) = (len concepts_to_cover * per)%Z).
  { unfold d, values. rewrite map_map. simpl. apply sum_Z_constant. }
  rewrite (@getitem_Some _ _ _ _ (Hget concept Hin)). cbn [bind].
  eexists. split; [reflexivity|]. split; [|split; [|split]].
  - rewrite keys_set. unfold contains. now rewrite (Hget concept Hin).
  - rewrite (@sum_Z_values_set d concept per _ (Hget concept Hin)) by now rewrite Hkeys.
    lia.
  - rewrite get_set, String.eqb_refl, Hsum. f_equal. lia.
  - intros c Hc Hne. rewrite get_set.
    destruct (String.eqb_spec concept c) as [E | _]; [congruence|].
    now apply Hget.
Qed.


(** ** The prerequisite loop *)

Lemma add_prerequisites_spec (cover prereqs : list string) :
  NoDup cover ->
  NoDup (add_prerequisites cover prereqs)
  /\ (forall x, In x (add_prerequisites cover prereqs)
                <-> In x cover \/ In x prereqs)
  /\ exists l, add_prerequisites cover prereqs = cover ++ l.
Proof.
  unfold add_prerequisites. revert cover.
  induction prereqs as [|p prereqs IH]; intros cover Hnd; simpl.
  - split; [assumption|]. split; [tauto|]. exists []. now rewrite app_nil_r.
  - destruct (str_in p cover) eqn:E.
    + apply str_in_In in E. destruct (IH cover Hnd) as (H1 & H2 & H3).
      split; [assumption|]. split; [|assumption].
      intros x. rewrite H2. split; [tauto|]. intros [H | [<- | H]]; auto.
    + apply str_in_false in E.
      assert (Hnd' : NoDup (cover ++ [p])).
      { apply NoDup_app; [assumption | repeat constructor; simpl; tauto |].
        intros x Hx [<- | []]. contradiction. }
      destruct (IH (cover ++ [p]) Hnd') as (H1 & H2 & l & H3).
      split; [assumption|]. split.
      * intros x. rewrite H2, in_app_iff. simpl. tauto.
      * exists (p :: l). now rewrite H3, <- app_assoc.
Qed.

Lemma prerequisites_first_app (pre post : dict Concept) :
  prerequisites_first (pre ++ post) -> prerequisites_first post.
Proof.
  induction pre as [|[c concept] pre IH]; simpl; [trivial|].
  intros (_ & H). auto.
Qed.

Lemma In_split_table {V} (d : dict V) (k : string) (v : V) :
  In (k, v) d -> exists pre post, d = pre ++ (k, v) :: post.
Proof. apply in_split. Qed.

Lemma earlier_prerequisites (pre post : dict Concept) (c : string)
      (concept : Concept) (p : string) :
  prerequisites_first (pre ++ (c, concept) :: post) ->
  closed (pre ++ (c, concept) :: post) ->
  NoDup (keys (pre ++ (c, concept) :: post)) ->
  In p (prerequisites concept) ->
  In p (keys pre).
Proof.
  intros Hpf Hclosed Hnd Hp.
  assert (Hget : get (pre ++ (c, concept) :: post) c = Some concept).
  { apply In_get; [assumption|]. rewrite in_app_iff. right. now left. }
  pose proof (Hclosed c concept p Hget Hp) as Hin.
  apply prerequisites_first_app in Hpf. destruct Hpf as (Hhead & _).
  specialize (Hhead p Hp).
  unfold keys in Hin. rewrite map_app, in_app_iff in Hin.
  destruct Hin as [Hin | Hin]; [assumption | contradiction].
Qed.

Lemma collect_prerequisites_terminates (table : dict Concept) :
  prerequisites_first table ->
  closed table ->
  NoDup (keys table) ->
  forall (n : nat) (pre post : dict Concept) (c : string) (concept : Concept)
         (cover : list string) (fuel : nat),
    table = pre ++ (c, concept) :: post ->
    (List.length pre <= n)%nat ->
    (n <= fuel)%nat ->
    NoDup cover ->
    (forall x, In x cover -> In x (keys table)) ->
    exists cover',
      collect_prerequisites fuel table c cover = Ok (Some cover')
      /\ NoDup cover'
      /\ (forall x, In x cover' -> In x (keys table))
      /\ exists l, cover' = cover ++ l.
Proof.
  intros Hpf Hclosed Hnd.
  induction n as [|n IH]; intros pre post c concept cover fuel E Hlen Hfuel
                                 Hcover Hsub.
  - (* the first concept of the table has no prerequisite *)
    destruct pre; [|simpl in Hlen; lia]. simpl in E.
    assert (Hget : get table c = Some concept).
    { apply In_get; [assumption|]. rewrite E. now left. }
    assert (Hnone : prerequisites concept = []).
    { destruct (prerequisites concept) as [|p l] eqn:Ep; [reflexivity|].
      exfalso. rewrite E in Hpf, Hclosed, Hnd.
      apply (@earlier_prerequisites [] post c concept p Hpf Hclosed Hnd).
      rewrite Ep. now left. }
    exists cover. destruct fuel; simpl; rewrite (@getitem_Some _ _ _ _ Hget);
      simpl; rewrite Hnone; (split; [reflexivity|]);
      (split; [assumption|]); (split; [assumption|]);
      exists []; now rewrite app_nil_r.
  - assert (Hget : get table c = Some concept).
    { apply In_get; [assumption|]. rewrite E, in_app_iff. right. now left. }
    destruct (prerequisites concept) as [|first rest] eqn:Ep.
    + exists cover. destruct fuel; simpl; rewrite (@getitem_Some _ _ _ _ Hget);
        simpl; rewrite Ep; (split; [reflexivity|]);
        (split; [assumption|]); (split; [assumption|]);
        exists []; now rewrite app_nil_r.
    + destruct fuel as [|fuel]; [lia|].
      simpl. rewrite (@getitem_Some _ _ _ _ Hget). simpl. rewrite Ep.
      assert (Hfirst : In first (keys pre)).
      { rewrite E in Hpf, Hclosed, Hnd.
        apply (@earlier_prerequisites pre post c concept first Hpf Hclosed Hnd).
        rewrite Ep. now left. }
      apply in_map_iff in Hfirst as ([first' cfirst] & Efirst & Hin).
      simpl in Efirst. subst first'.
      destruct (in_split _ _ Hin) as (pre1 & pre2 & Epre).
      destruct (@add_prerequisites_spec cover (first :: rest) Hcover)
        as (Hnd' & Hmem & l & Hl).
      destruct (IH pre1 (pre2 ++ (c, concept) :: post) first cfirst
                   (add_prerequisites cover (first :: rest)) fuel)
        as (cover' & Hrun & Hnd'' & Hsub' & l' & Hl').
      * rewrite E, Epre, <- app_assoc. reflexivity.
      * rewrite Epre, length_app in Hlen. simpl in Hlen. lia.
      * lia.
      * assumption.
      * intros x Hx. apply Hmem in Hx as [Hx | Hx]; [now apply Hsub|].
        apply (Hclosed c concept x Hget). now rewrite Ep.
      * exists cover'. split; [assumption|]. split; [assumption|].
        split; [assumption|]. exists (l ++ l'). now rewrite Hl', Hl, app_assoc.
Qed.

(** X19.  When the table is closed (every prerequisite is a concept) and
    lists prerequisites before the concepts that need them, as the built-in
    table does, the prerequisite loop ends within as many iterations as the
    table has concepts: it returns a duplicate-free list of concepts that
    starts with the requested concept. *)
Theorem collect_prerequisites_ends
        (table : dict Concept) (concept : string) :
  prerequisites_first table ->
  closed table ->
  NoDup (keys table) ->
  In concept (keys table) ->
  exists cover,
    collect_prerequisites (List.length table) table concept [concept]
    = Ok (Some (concept :: cover))
    /\ NoDup (concept :: cover)
    /\ forall x, In x cover -> In x (keys table).
Proof.
  intros Hpf Hclosed Hnd Hin.
  destruct (In_keys_get table concept Hin) as (c & Hc).
  apply get_Some_In in Hc. destruct (in_split _ _ Hc) as (pre & post & E).
  destruct (@collect_prerequisites_terminates table Hpf Hclosed Hnd
              (List.length pre) pre post concept c [concept]
              (List.length table) E)
    as (cover' & Hrun & Hnd' & Hsub & l & Hl).
  - lia.
  - rewrite E, length_app. lia.
  - repeat constructor. simpl. tauto.
  - intros x [<- | []]. assumption.
  - subst cover'. exists l. simpl in *. split; [assumption|].
    split; [assumption|]. intros x Hx. apply Hsub. now right.
Qed.

(** X20.  The prerequisite loop can fail to end, and can fail: when every
    concept of a closed table has a prerequisite (so the prerequisites form
    a cycle), no number of iterations ends the loop; when the first
    prerequisite of the requested concept is not a concept, the loop raises
    [KeyError], as it does when the requested concept is unknown. *)
Theorem collect_prerequisites_fails
        (table : dict Concept) (concept : string) (cover : list string) :
  (closed table ->
   (forall c data, get table c = Some data -> prerequisites data <> []) ->
   In concept (keys table) ->
   forall fuel, collect_prerequisites fuel table concept cover = Ok None)
  /\ (forall data first rest,
        get table concept = Some data ->
        prerequisites data = first :: rest ->
        ~ In first (keys table) ->
        forall fuel,
          collect_prerequisites (S fuel) table concept cover = Raise KeyError)
  /\ (~ In concept (keys table) ->
      forall fuel, collect_prerequisites fuel table concept cover
                   = Raise KeyError).
Proof.
  split; [|split].
  - intros Hclosed Hall Hin fuel. revert concept cover Hin.
    induction fuel as [|fuel IH]; intros concept cover Hin;
      destruct (In_keys_get table concept Hin) as (data & Hdata);
      simpl; rewrite (@getitem_Some _ _ _ _ Hdata); simpl;
      destruct (prerequisites data) as [|first rest] eqn:Ep;
      try (exfalso; now apply (Hall concept data Hdata)).
    + reflexivity.
    + apply IH. apply (Hclosed concept data first Hdata). rewrite Ep. now left.
  - intros data first rest Hdata Ep Hfirst fuel. simpl.
    rewrite (@getitem_Some _ _ _ _ Hdata). simpl. rewrite Ep.
    apply get_None in Hfirst.
    destruct fuel; simpl; unfold getitem; now rewrite Hfirst.
  - intros Hnot fuel. apply get_None in Hnot.
    destruct fuel; simpl; unfold getitem; now rewrite Hnot.
Qed.

(** ** Generated parameters *)

Lemma contains_set {V} (d : dict V) (k k' : string) (v : V) :
  contains (set d k v) k' = String.eqb k k' || contains d k'.
Proof.
  unfold contains. rewrite get_set. now destruct (String.eqb k k').
Qed.

Lemma randint_spec (lib : PyLib) (lo hi v : Z) (i i' : nat) :
  randint lib lo hi i = Ok (v, i') ->
  (lo <= v <= hi)%Z /\ i' = S i.
Proof.
  unfold randint. destruct (Z.ltb_spec hi lo) as [Hlt | Hle]; [discriminate|].
  intros [= <- <-]. split; [|reflexivity].
  pose proof (Z.mod_pos_bound (Z.of_nat (draws lib i)) (hi - lo + 1)). lia.
Qed.

Lemma numbers_loop (lib : PyLib) (ranges : dict (list Z)) :
  forall (acc : dict Z) (i : nat) (numbers : dict Z) (i' : nat),
    foldM (fun '(numbers, i) '(param, range_vals) =>
             match range_vals with
             | [min_val; max_val] =>
                 '(v, i) <- randint lib min_val max_val i ;;
                 Ok (set numbers param v, i)
             | _ => Raise ValueError
             end) ranges (acc, i) = Ok (numbers, i') ->
    (forall k, contains numbers k = str_in k (keys ranges) || contains acc k)
    /\ (forall k v, get numbers k = Some v ->
          get acc k = Some v
          \/ exists lo hi, In (k, [lo; hi]) ranges /\ (lo <= v <= hi)%Z)
    /\ i' = (i + List.length ranges)%nat.
Proof.
  induction ranges as [|[param range_vals] ranges IH];
    intros acc i numbers i' H.
  - simpl in H. injection H as <- <-. split; [reflexivity|].
    split; [auto | simpl; lia].
  - cbn [foldM] in H. inv_bind H. destruct a as [acc' j].
    destruct range_vals as [|lo [|hi [|x l]]]; try discriminate.
    inv_bind Ha. destruct a as [v j']. injection Ha as <- <-.
    apply randint_spec in Ha0 as (Hv & ->).
    destruct (IH _ _ _ _ H) as (Hkeys & Hvals & ->).
    split; [|split].
    + intros k. rewrite Hkeys, contains_set. unfold str_in, keys.
      cbn [map fst existsb]. rewrite (String.eqb_sym k param).
      destruct (String.eqb param k), (existsb (String.eqb k) (map fst ranges)),
        (contains acc k); reflexivity.
    + intros k w Hk. destruct (Hvals k w Hk) as [Hacc | (lo' & hi' & Hin & Hw)].
      * rewrite get_set in Hacc.
        destruct (String.eqb_spec param k) as [-> | _]; [|now left].
        injection Hacc as <-. right. exists lo, hi. split; [now left | assumption].
      * right. exists lo', hi'. split; [now right | assumption].
    + simpl. lia.
Qed.

(** X21.  The parameters generated for a concept are exactly the names of its
    [template_params], each with an integer inside its declared range, plus
    the operator for [basic_arithmetic]; the call consumes one random draw
    per parameter (and one for the operator). *)
Theorem generated_parameters
        (lib : PyLib) (table : dict Concept) (concept : string)
        (i i' : nat) (params : Params) :
  _generate_parameters lib table concept i = Ok (params, i') ->
  exists data,
    get table concept = Some data
    /\ (forall k, contains (numbers params) k
                  = str_in k (keys (template_params data)))
    /\ (forall k v, get (numbers params) k = Some v ->
          exists lo hi, In (k, [lo; hi]) (template_params data)
                        /\ (lo <= v <= hi)%Z)
    /\ (concept = "basic_arithmetic" ->
        (exists o, op params = Some o /\ In o ["+"; "-"; "*"; "/"])
        /\ i' = S (i + List.length (template_params data)))
    /\ (concept <> "basic_arithmetic" ->
        op params = None /\ i' = (i + List.length (template_params data))%nat).
Proof.
  unfold _generate_parameters. intros H.
  inv_bind H. rename a into data. apply getitem_Ok in Ha.
  inv_bind H. destruct a as [numbers j].
  destruct (@numbers_loop lib (template_params data) [] i numbers j Ha0)
    as (Hkeys & Hvals & ->).
  exists data. split; [assumption|].
  destruct (String.eqb_spec concept "basic_arithmetic") as [E | E].
  - inv_bind H. destruct a as [o j']. injection H as <- <-. simpl.
    unfold choice in Ha1.
    destruct (nth_error ["+"; "-"; "*"; "/"] _) as [o'|] eqn:En; [|discriminate].
    injection Ha1 as <- <-. apply nth_error_In in En.
    split; [|split; [|split]].
    + intros k. rewrite Hkeys. apply orb_false_r.
    + intros k v Hk. destruct (Hvals k v Hk) as [Hacc | Hr];
        [discriminate | assumption].
    + intros _. split; [now exists o' | reflexivity].
    + congruence.
  - injection H as <- <-. simpl. split; [|split; [|split]].
    + intros k. rewrite Hkeys. apply orb_false_r.
    + intros k v Hk. destruct (Hvals k v Hk) as [Hacc | Hr];
        [discriminate | assumption].
    + congruence.
    + intros _. split; reflexivity.
Qed.

Lemma generated_parameter_names
      (lib : PyLib) (table : dict Concept) (concept : string)
      (i i' : nat) (params : Params) (data : Concept) :
  get table concept = Some data ->
  _generate_parameters lib table concept i = Ok (params, i') ->
  forall k,
    param_in params k
    = str_in k (keys (template_params data))
      || (String.eqb k "op" && String.eqb concept "basic_arithmetic").
Proof.
  unfold _generate_parameters. intros Hdata H.
  rewrite (@getitem_Some _ _ _ _ Hdata) in H. cbn [bind] in H.
  inv_bind H. destruct a as [numbers j].
  destruct (@numbers_loop lib (template_params data) [] i numbers j Ha)
    as (Hkeys & _ & _).
  intros k. unfold param_in.
  destruct (String.eqb concept "basic_arithmetic").
  - inv_bind H. destruct a as [o j']. injection H as <- <-. simpl.
    rewrite Hkeys. unfold contains at 1. simpl. now rewrite orb_false_r.
  - injection H as <- <-. simpl. rewrite Hkeys. unfold contains at 1. simpl.
    now rewrite !andb_false_r, !orb_false_r.
Qed.

(** ** Formatting *)

Lemma param_str_spec (params : Params) (k : string) :
  if param_in params k
  then exists s, param_str params k = Ok s
  else param_str params k = Raise KeyError.
Proof.
  unfold param_in, param_str, contains, getitem.
  destruct (String.eqb k "op"), (op params) as [o|],
    (get (numbers params) k) as [z|]; simpl; eauto.
Qed.

Lemma format_from_outcome (template : string) (params : Params) :
  forall field,
    match format_outcome template field (param_in params) with
    | None => exists s, format_from template field params = Ok s
    | Some e => format_from template field params = Raise e
    end.
Proof.
  induction template as [|c rest IH]; intros field; simpl.
  - destruct field; eauto.
  - destruct field as [name|].
    + destruct (Ascii.eqb c "}").
      * pose proof (param_str_spec params name) as Hp.
        destruct (param_in params name).
        -- destruct Hp as (v & ->). simpl. specialize (IH None).
           destruct (format_outcome rest None (param_in params)).
           ++ now rewrite IH.
           ++ destruct IH as (s & ->). simpl. eauto.
        -- now rewrite Hp.
      * apply IH.
    + destruct (Ascii.eqb c "{"); [apply IH|].
      destruct (Ascii.eqb c "}"); [reflexivity|].
      specialize (IH None).
      destruct (format_outcome rest None (param_in params)).
      * now rewrite IH.
      * destruct IH as (s & ->). simpl. eauto.
Qed.

Lemma format_outcome_ext (template : string) (a1 a2 : string -> bool) :
  (forall k, a1 k = a2 k) ->
  forall field, format_outcome template field a1
                = format_outcome template field a2.
Proof.
  intros Hext. induction template as [|c rest IH]; intros field; simpl;
    [reflexivity|].
  destruct field as [name|].
  - destruct (Ascii.eqb c "}"); [|apply IH]. rewrite Hext.
    destruct (a2 name); [apply IH | reflexivity].
  - destruct (Ascii.eqb c "{"); [apply IH|].
    destruct (Ascii.eqb c "}"); [reflexivity | apply IH].
Qed.

(** X22.  Two templates of the source can never produce a question: the third
    template of [quadratic_equations] names a parameter [-c] and the second
    template of [trigonometry] a parameter [c], which their concepts do not
    have, so formatting them raises [KeyError] and the attempt is skipped,
    whatever the random draws.  Every other template of the seven concepts
    is formatted without error. *)
Theorem skipped_templates
        (lib : PyLib) (c template : string) (i i' : nat) (params : Params) :
  _generate_parameters lib _initialize_concepts c i = Ok (params, i') ->
  In template (get_default _initialize_templates c []) ->
  (In (c, template) dead_templates -> format template params = Raise KeyError)
  /\ (~ In (c, template) dead_templates ->
      exists question, format template params = Ok question).
Proof.
  intros Hgen Htemplate.
  assert (Hc : In c (keys _initialize_concepts)).
  { unfold _generate_parameters in Hgen. inv_bind Hgen.
    apply getitem_Ok in Ha. eapply In_keys_table; eauto. }
  assert (Hall :
    forallb (fun '(c, data) =>
      forallb (fun template =>
        match format_outcome template None
                (fun k => str_in k (keys (template_params data))
                          || (String.eqb k "op"
                              && String.eqb c "basic_arithmetic")) with
        | None => negb (existsb (fun '(c', t) => String.eqb c' c
                                                 && String.eqb t template)
                                dead_templates)
        | Some KeyError => existsb (fun '(c', t) => String.eqb c' c
                                                    && String.eqb t template)
                                   dead_templates
        | Some _ => false
        end) (get_default _initialize_templates c []))
      _initialize_concepts = true) by (vm_compute; reflexivity).
  rewrite forallb_forall in Hall.
  destruct (In_keys_get _ c Hc) as (data & Hdata).
  specialize (Hall (c, data) (get_Some_In _ _ Hdata)). cbn beta iota in Hall.
  rewrite forallb_forall in Hall. specialize (Hall template Htemplate).
  rewrite <- (@format_outcome_ext template (param_in params)) in Hall
    by (intros k; apply (@generated_parameter_names lib _initialize_concepts
                           c i i' params data Hdata Hgen)).
  pose proof (format_from_outcome template params None) as Hfmt.
  fold (format template params) in Hfmt.
  assert (Hdead : existsb (fun '(c', t) => String.eqb c' c
                                           && String.eqb t template)
                          dead_templates = true
                  <-> In (c, template) dead_templates).
  { rewrite existsb_exists. split.
    - intros ([c' t] & Hin & E). apply andb_prop in E as (E1 & E2).
      apply String.eqb_eq in E1, E2. now subst.
    - intros Hin. exists (c, template). split; [assumption|].
      now rewrite !String.eqb_refl. }
  destruct (format_outcome template None (param_in params)) as [[| | |]|];
    try discriminate.
  - split; [intros _; assumption|]. intros Hnot. exfalso.
    now apply Hnot, Hdead.
  - split; [|intros _; assumption]. intros Hin. apply Hdead in Hin.
    now rewrite Hin in Hall.
Qed.

(** ** One attempt, and the whole test *)

Lemma generate_question_spec
      (lib : PyLib) (table : dict Concept) (templates : dict (list string))
      (c : string) (i i' : nat) (q : option TestQuestion) :
  generate_question lib table templates c i = Ok (q, i') ->
  exists data,
    get table c = Some data
    /\ match q with
       | Some q =>
           tq_concept q = c
           /\ tq_prerequisites q = prerequisites data
           /\ In (tq_template_used q) (get_default templates c [])
       | None => True
       end.
Proof.
  unfold generate_question. intros H.
  inv_bind H. rename a into choices. apply getitem_Ok in Ha.
  inv_bind H. destruct a as [template j].
  inv_bind H. destruct a as [params j'].
  assert (Hdata : exists data, get table c = Some data).
  { unfold _generate_parameters in Ha1. inv_bind Ha1.
    apply getitem_Ok in Ha2. eauto. }
  destruct Hdata as (data & Hdata). exists data. split; [assumption|].
  assert (Hin : In template (get_default templates c [])).
  { unfold get_default. rewrite Ha. unfold choice in Ha0.
    destruct (nth_error choices _) eqn:E; [|discriminate].
    injection Ha0 as <- <-. eapply nth_error_In; eauto. }
  destruct (format template params) as [question | e].
  - inv_bind H. inv_bind H. apply getitem_Ok in Ha3.
    injection H as <- <-. simpl.
    assert (a0 = data) by congruence. subst a0. auto.
  - destruct e; try discriminate. injection H as <- <-. exact I.
Qed.

Lemma attempts_loop
      (lib : PyLib) (table : dict Concept) (templates : dict (list string))
      (c : string) (data : Concept) (l : list nat) :
  get table c = Some data ->
  forall (acc : list TestQuestion) (i : nat) (qs : list TestQuestion) (i' : nat),
    foldM (fun '(test_questions, i) _ =>
             '(q, i) <- generate_question lib table templates c i ;;
             match q with
             | Some q => Ok (test_questions ++ [q], i)
             | None => Ok (test_questions, i)
             end) l (acc, i) = Ok (qs, i') ->
    exists new,
      qs = acc ++ new
      /\ (List.length new <= List.length l)%nat
      /\ Forall (fun q => tq_concept q = c
                          /\ tq_prerequisites q = prerequisites data) new.
Proof.
  intros Hdata. induction l as [|x l IH]; intros acc i qs i' H.
  - simpl in H. injection H as <- <-. exists []. rewrite app_nil_r.
    split; [reflexivity|]. split; [simpl; lia | constructor].
  - cbn [foldM] in H. inv_bind H. destruct a as [acc' j].
    inv_bind Ha. destruct a as [q j'].
    destruct (generate_question_spec _ _ _ _ _ Ha0) as (data' & Hdata' & Hq).
    assert (data' = data) by congruence. subst data'.
    destruct q as [q|]; injection Ha as <- <-;
      destruct (IH _ _ _ _ H) as (new & -> & Hlen & Hall).
    + exists (q :: new). rewrite <- app_assoc. split; [reflexivity|].
      split; [simpl; lia|]. constructor; [tauto | assumption].
    + exists new. split; [reflexivity|]. split; [simpl; lia | assumption].
Qed.

Lemma single_concept_count (c : string) (num_questions : Z) :
  questions_per_concept c num_questions [c] = Ok [(c, num_questions)].
Proof.
  unfold questions_per_concept, dict_for.
  change (len [c]) with 1%Z. cbn [foldM bind Z.eqb set].
  unfold getitem. cbn [get]. rewrite !(String.eqb_refl c). cbn [bind].
  do 2 f_equal. f_equal. unfold sum_Z, values. simpl. lia.
Qed.

(** X23.  [MathKnowledgeBase.generate_practice_test] rejects an empty list
    with [ValueError] and otherwise looks at the first concept only.  When it
    returns, the single test holds at most [max(num_questions, 0)]
    questions, all of them on that concept; [total_questions] is their
    number; and [concepts_covered] lists the concept followed by its
    prerequisites, although no question is generated for a prerequisite. *)
Theorem practice_test_result
        (lib : PyLib) (table : dict Concept) (templates : dict (list string))
        (top : string) (rest : list string) (num_questions : Z) (i : nat) :
  kb_generate_practice_test lib table templates [] num_questions i
  = Raise ValueError
  /\ kb_generate_practice_test lib table templates (top :: rest) num_questions i
     = kb_generate_practice_test lib table templates [top] num_questions i
  /\ forall r,
       kb_generate_practice_test lib table templates (top :: rest)
                                 num_questions i = Ok r ->
       exists test i' data,
         r = Some ({| tests := [test];
                      total_questions := len (pt_questions test);
                      concepts_covered := top :: prerequisites data |}, i')
         /\ get table top = Some data
         /\ pt_concept test = top
         /\ pt_concepts_covered test = [top]
         /\ pt_includes_prerequisites test = false
         /\ pt_num_questions test = len (pt_questions test)
         /\ (len (pt_questions test) <= Z.max num_questions 0)%Z
         /\ Forall (fun q => qd_concept q = top
                             /\ qd_prerequisites q = prerequisites data)
                   (pt_questions test).
Proof.
  split; [reflexivity|]. split; [reflexivity|].
  intros r H. unfold kb_generate_practice_test in H.
  inv_bind H. rename a into t. unfold generate_practice_test in Ha.
  cbn [bind] in Ha. inv_bind Ha. rename a into counts.
  inv_bind Ha. destruct a as [test_questions j]. injection Ha as <-.
  inv_bind H. rename a into data. apply getitem_Ok in Ha. injection H as <-.
  assert (Hcount : get counts top = Some num_questions)
    by (rewrite single_concept_count in Ha0; now injection Ha0 as <-;
        cbn [get]; rewrite String.eqb_refl).
  unfold generate_questions in Ha1. cbn [foldM] in Ha1.
  inv_bind Ha1. destruct a as [qs j'']. injection Ha1 as <- <-.
  inv_bind Ha2. rename a into num. apply getitem_Ok in Ha1.
  assert (num = num_questions) by congruence. subst num.
  destruct (@attempts_loop lib table templates top data
              (seq 0 (Z.to_nat num_questions)) Ha [] i qs j'' Ha2)
    as (new & -> & Hlen & Hall).
  simpl app in *. rewrite length_seq in Hlen.
  exists {| pt_concept := top;
            pt_num_questions := len new;
            pt_includes_prerequisites := false;
            pt_questions :=
              map (fun q => {| qd_question := tq_question q;
                               qd_concept := tq_concept q;
                               qd_prerequisites := tq_prerequisites q;
                               qd_expected_answer := tq_expected_answer q |})
                  new;
            pt_concepts_covered := [top] |}, j'', data.
  cbn [pt_concept pt_concepts_covered pt_includes_prerequisites
       pt_num_questions pt_questions].
  unfold len. rewrite length_map.
  split; [reflexivity|]. split; [assumption|].
  split; [reflexivity|]. split; [reflexivity|]. split; [reflexivity|].
  split; [reflexivity|]. split; [lia|].
  apply Forall_map. cbn [qd_concept qd_prerequisites]. assumption.
Qed.

(** ** Requests that fail, and answers that do not fit the question *)

Lemma choice_In {A} (lib : PyLib) (seq : list A) (i : nat) :
  seq <> [] ->
  exists x, choice lib seq i = Ok (x, S i)
            /\ nth_error seq (draws lib i mod List.length seq) = Some x
            /\ In x seq.
Proof.
  intros Hne. unfold choice.
  destruct (nth_error seq (draws lib i mod List.length seq)) as [x|] eqn:E.
  - exists x. split; [reflexivity|]. split; [reflexivity|].
    eapply nth_error_In; eauto.
  - exfalso. apply nth_error_None in E.
    assert (List.length seq <> 0)%nat by (destruct seq; [congruence | discriminate]).
    pose proof (Nat.mod_upper_bound (draws lib i) (List.length seq)). lia.
Qed.

Lemma linear_parameters (lib : PyLib) (i : nat) :
  _generate_parameters lib _initialize_concepts "linear_equations" i
  = Ok ({| numbers :=
             [ ("a", (-10 + Z.of_nat (draws lib i) mod 21)%Z);
               ("b", (-20 + Z.of_nat (draws lib (S i)) mod 41)%Z);
               ("c", (-50 + Z.of_nat (draws lib (S (S i))) mod 101)%Z) ];
           op := None |}, S (S (S i))).
Proof. reflexivity. Qed.

Lemma quadratic_parameters (lib : PyLib) (i : nat) :
  _generate_parameters lib _initialize_concepts "quadratic_equations" i
  = Ok ({| numbers :=
             [ ("a", (-5 + Z.of_nat (draws lib i) mod 11)%Z);
               ("b", (-10 + Z.of_nat (draws lib (S i)) mod 21)%Z);
               ("c", (-15 + Z.of_nat (draws lib (S (S i))) mod 31)%Z) ];
           op := None |}, S (S (S i))).
Proof. reflexivity. Qed.


Lemma draw_value (d m : nat) (r mz : Z) :
  mz = Z.of_nat m ->
  (d mod m = Z.to_nat r)%nat -> (0 <= r)%Z ->
  (Z.of_nat d mod mz = r)%Z.
Proof.
  intros -> H Hr. rewrite <- Nat2Z.inj_mod, H. now apply Z2Nat.id.
Qed.

Lemma zero_coefficient (lib : PyLib) (concept template : string)
      (params : Params) (b c : Z) :
  concept = "linear_equations" \/ concept = "quadratic_equations" ->
  In template (get_default _initialize_templates concept []) ->
  get (numbers params) "a" = Some 0%Z ->
  get (numbers params) "b" = Some b ->
  get (numbers params) "c" = Some c ->
  _generate_answer lib template params concept = Raise ZeroDivisionError.
Proof.
  intros Hconcept Htemplate Ha Hb Hc.
  cbv beta zeta delta [_generate_answer getitem]. rewrite Ha, Hb, Hc.
  destruct Hconcept as [-> | ->].
  - simpl in Htemplate.
    destruct Htemplate as [<- | [<- | [<- | []]]]; vm_compute; reflexivity.
  - cbn [String.eqb Ascii.eqb Bool.eqb andb bind].
    replace (b ^ 2 - 4 * 0 * c)%Z with (b * b)%Z by lia.
    destruct (Z.ltb_spec (b * b) 0) as [Hneg | _]; [nia|].
    destruct (Z.eqb_spec (b * b) 0); reflexivity.
Qed.

Lemma first_attempt_fails
      (lib : PyLib) (table : dict Concept) (templates : dict (list string))
      (top : string) (rest : list string) (num_questions : Z) (i : nat)
      (e : exn) :
  (1 <= num_questions)%Z ->
  generate_question lib table templates top i = Raise e ->
  kb_generate_practice_test lib table templates (top :: rest) num_questions i
  = Raise e.
Proof.
  intros Hn Hq. unfold kb_generate_practice_test, generate_practice_test.
  cbn [bind]. rewrite single_concept_count. cbn [bind].
  unfold generate_questions. cbn [foldM]. unfold getitem at 1. cbn [get].
  rewrite (String.eqb_refl top). cbn [bind].
  destruct (Z.to_nat num_questions) as [|n] eqn:E; [lia|].
  cbn [seq foldM]. rewrite Hq. reflexivity.
Qed.

(** X24.  A request for a practice test can fail with [ZeroDivisionError]:
    on the built-in table, a request for at least one question on
    [linear_equations] fails whenever the first coefficient [a] drawn is
    zero, and a request on [quadratic_equations] whenever it is zero and the
    template drawn is one of the two that can be formatted. *)
Theorem request_division_by_zero
        (lib : PyLib) (rest : list string) (num_questions : Z) (i : nat) :
  (1 <= num_questions)%Z ->
  ((draws lib (S i) mod 21 = 10)%nat ->
   kb_generate_practice_test lib _initialize_concepts _initialize_templates
                             ("linear_equations" :: rest) num_questions i
   = Raise ZeroDivisionError)
  /\ ((draws lib i mod 3 <> 2)%nat ->
      (draws lib (S i) mod 11 = 5)%nat ->
      kb_generate_practice_test lib _initialize_concepts _initialize_templates
                                ("quadratic_equations" :: rest) num_questions i
      = Raise ZeroDivisionError).
Proof.
  intros Hn. split.
  - intros Hdraw. apply first_attempt_fails; [assumption|].
    unfold generate_question.
    change (getitem _initialize_templates "linear_equations")
      with (Ok (get_default _initialize_templates "linear_equations" [])).
    cbn [bind].
    destruct (@choice_In _ lib
                (get_default _initialize_templates "linear_equations" []) i)
      as (template & -> & _ & Hin); [discriminate|].
    cbn [bind]. rewrite linear_parameters. cbn [bind].
    rewrite (@draw_value (draws lib (S i)) 21 10 21 eq_refl Hdraw) by lia.
    change (-10 + 10)%Z with 0%Z.
    set (params := {| numbers := _; op := None |}).
    pose proof (format_from_outcome template params None) as Hfmt.
    fold (format template params) in Hfmt.
    assert (Hout : format_outcome template None (param_in params) = None).
    { simpl in Hin. destruct Hin as [<- | [<- | [<- | []]]];
        vm_compute; reflexivity. }
    rewrite Hout in Hfmt. destruct Hfmt as (question & ->).
    rewrite (@zero_coefficient lib "linear_equations" template params
               (-20 + Z.of_nat (draws lib (S (S i))) mod 41)
               (-50 + Z.of_nat (draws lib (S (S (S i)))) mod 101));
      auto.
  - intros Htemplate Hdraw. apply first_attempt_fails; [assumption|].
    unfold generate_question.
    change (getitem _initialize_templates "quadratic_equations")
      with (Ok (get_default _initialize_templates "quadratic_equations" [])).
    cbn [bind].
    destruct (@choice_In _ lib
                (get_default _initialize_templates "quadratic_equations" []) i)
      as (template & -> & Hnth & Hin); [discriminate|].
    cbn [bind]. rewrite quadratic_parameters. cbn [bind].
    rewrite (@draw_value (draws lib (S i)) 11 5 11 eq_refl Hdraw) by lia.
    change (-5 + 5)%Z with 0%Z.
    set (params := {| numbers := _; op := None |}).
    pose proof (format_from_outcome template params None) as Hfmt.
    fold (format template params) in Hfmt.
    assert (Hout : format_outcome template None (param_in params) = None).
    { change (List.length (get_default _initialize_templates
                                       "quadratic_equations" []))
        with 3%nat in Hnth.
      pose proof (Nat.mod_upper_bound (draws lib i) 3) as Hlt.
      destruct (draws lib i mod 3)%nat as [|[|[|m]]]; try lia;
        simpl in Hnth; injection Hnth as <-; vm_compute; reflexivity. }
    rewrite Hout in Hfmt. destruct Hfmt as (question & ->).
    rewrite (@zero_coefficient lib "quadratic_equations" template params
               (-10 + Z.of_nat (draws lib (S (S i))) mod 21)
               (-15 + Z.of_nat (draws lib (S (S (S i)))) mod 31));
      auto.
Qed.


(** ** Questions against the plan *)

Lemma attempts_concept
      (lib : PyLib) (table : dict Concept) (templates : dict (list string))
      (c : string) (l : list nat) :
  forall (acc : list TestQuestion) (i : nat) (qs : list TestQuestion) (i' : nat),
    foldM (fun '(test_questions, i) _ =>
             '(q, i) <- generate_question lib table templates c i ;;
             match q with
             | Some q => Ok (test_questions ++ [q], i)
             | None => Ok (test_questions, i)
             end) l (acc, i) = Ok (qs, i') ->
    exists new,
      qs = acc ++ new
      /\ (List.length new <= List.length l)%nat
      /\ Forall (fun q => tq_concept q = c) new.
Proof.
  induction l as [|x l IH]; intros acc i qs i' H.
  - simpl in H. injection H as <- <-. exists []. rewrite app_nil_r.
    split; [reflexivity|]. split; [simpl; lia | constructor].
  - cbn [foldM] in H. inv_bind H. destruct a as [acc' j].
    inv_bind Ha. destruct a as [q j'].
    destruct (generate_question_spec _ _ _ _ _ Ha0) as (data & _ & Hq).
    destruct q as [q|]; injection Ha as <- <-;
      apply IH in H as (new & -> & Hlen & Hall).
    + exists (q :: new). rewrite <- app_assoc. split; [reflexivity|].
      split; [simpl; lia|]. constructor; [tauto | assumption].
    + exists new. split; [reflexivity|]. split; [simpl; lia | assumption].
Qed.

Lemma generate_questions_planned
      (lib : PyLib) (table : dict Concept) (templates : dict (list string))
      (counts : dict Z) (cover : list string) :
  forall (acc : list TestQuestion) (i : nat) (qs : list TestQuestion) (i' : nat),
    foldM (fun '(test_questions, i) c =>
             num <- getitem counts c ;;
             foldM (fun '(test_questions, i) _ =>
                      '(q, i) <- generate_question lib table templates c i ;;
                      match q with
                      | Some q => Ok (test_questions ++ [q], i)
                      | None => Ok (test_questions, i)
                      end)
                   (seq 0 (Z.to_nat num)) (test_questions, i))
          cover (acc, i) = Ok (qs, i') ->
    exists new,
      qs = acc ++ new
      /\ Forall (fun q => exists num,
                   get counts (tq_concept q) = Some num /\ (0 < num)%Z) new.
Proof.
  induction cover as [|c cover IH]; intros acc i qs i' H.
  - simpl in H. injection H as <- <-. exists []. rewrite app_nil_r.
    split; [reflexivity | constructor].
  - cbn [foldM] in H. inv_bind H. destruct a as [acc' j].
    inv_bind Ha. rename a into num. apply getitem_Ok in Ha0.
    apply attempts_concept in Ha as (new & -> & Hlen & Hall).
    apply IH in H as (new' & -> & Hall').
    exists (new ++ new'). rewrite app_assoc. split; [reflexivity|].
    apply Forall_app. split; [|assumption].
    rewrite length_seq in Hlen.
    apply Forall_forall. intros q Hq.
    rewrite Forall_forall in Hall. rewrite (Hall q Hq).
    exists num. split; [assumption|].
    destruct new; [destruct Hq | simpl in Hlen; lia].
Qed.

(** X26.  Every question of a generated test is on a concept whose planned
    count is positive.  The main concept is therefore left out when its
    count is zero or negative: with the defaults (ten questions,
    prerequisites included) a test on [integrals] covers six concepts, two
    questions are planned for each prerequisite, none for [integrals], and
    the test has no question on [integrals], whatever the random draws. *)
Theorem main_concept_left_out
        (fuel : nat) (lib : PyLib) (table : dict Concept)
        (templates : dict (list string)) (concept : string) (num_questions : Z)
        (include_prerequisites : bool) (i i' : nat) (test : PracticeTest) :
  generate_practice_test fuel lib table templates concept num_questions
                         include_prerequisites i = Ok (Some (test, i')) ->
  (exists counts,
      questions_per_concept concept num_questions (pt_concepts_covered test)
      = Ok counts
      /\ Forall (fun q => exists num,
                   get counts (qd_concept q) = Some num /\ (0 < num)%Z)
                (pt_questions test))
  /\ (table = _initialize_concepts -> concept = "integrals" ->
      num_questions = 10%Z -> include_prerequisites = true ->
      fuel = List.length _initialize_concepts ->
      pt_concepts_covered test
      = ["integrals"; "derivatives"; "quadratic_equations"; "trigonometry";
         "linear_equations"; "basic_arithmetic"]
      /\ Forall (fun q => qd_concept q <> "integrals") (pt_questions test)).
Proof.
  intros H.
  assert (Hgen : exists counts,
             questions_per_concept concept num_questions
                                   (pt_concepts_covered test) = Ok counts
             /\ Forall (fun q => exists num,
                          get counts (qd_concept q) = Some num /\ (0 < num)%Z)
                       (pt_questions test)).
  { unfold generate_practice_test in H. inv_bind H.
    destruct a as [cover|]; [|discriminate].
    inv_bind H. rename a into counts. inv_bind H.
    destruct a as [test_questions j]. injection H as <- <-.
    cbn [pt_concepts_covered pt_questions].
    exists counts. split; [assumption|].
    unfold generate_questions in Ha1.
    apply generate_questions_planned in Ha1 as (new & -> & Hall).
    simpl app. apply Forall_map. cbn [qd_concept]. assumption. }
  split; [assumption|].
  intros -> -> -> -> ->. destruct Hgen as (counts & Hcounts & Hall).
  assert (Hcover : pt_concepts_covered test
                   = ["integrals"; "derivatives"; "quadratic_equations";
                      "trigonometry"; "linear_equations"; "basic_arithmetic"]).
  { unfold generate_practice_test in H.
    change (collect_prerequisites (List.length _initialize_concepts)
              _initialize_concepts "integrals" ["integrals"])
      with (Ok (Some ["integrals"; "derivatives"; "quadratic_equations";
                      "trigonometry"; "linear_equations"; "basic_arithmetic"]))
      in H.
    cbn [bind] in H. inv_bind H. inv_bind H. destruct a0 as [qs j].
    injection H as <- <-. reflexivity. }
  split; [assumption|].
  rewrite Hcover in Hcounts.
  assert (Hplan : get counts "integrals" = Some 0%Z).
  { vm_compute in Hcounts. injection Hcounts as <-. reflexivity. }
  apply Forall_forall. intros q Hq E.
  rewrite Forall_forall in Hall. destruct (Hall q Hq) as (num & Hnum & Hpos).
  rewrite E, Hplan in Hnum. injection Hnum as <-. lia.
Qed.


(** ** The further properties on concrete inputs *)

Lemma prerequisites_firstb_spec (table : dict Concept) :
  prerequisites_firstb table = true -> prerequisites_first table.
Proof.
  induction table as [|[c concept] table IH];
    cbn [prerequisites_firstb prerequisites_first]; [trivial|].
  intros H. apply andb_prop in H as (Hhead & Htail). split; [|auto].
  intros p Hp Hin. rewrite forallb_forall in Hhead.
  specialize (Hhead p Hp). apply negb_true_iff in Hhead.
  apply (proj1 (str_in_false _ _)) in Hhead. now apply Hhead.
Qed.

Lemma reference_well_built : well_built (hmm_params reference_model).
Proof.
  apply (@built_model_well_built ascii_env _initialize_concepts reference_model).
  - apply nodupb_NoDup. by_computation.
  - by_computation.
Qed.

Lemma network_children_of_concept_witness :
  exists node,
    get (fold_left network_step cyclic_table []) "b" = Some node
    /\ parents node = prerequisites (concept_of cyclic_table "b")
    /\ (forall d, In d (children node)
                  <-> exists cd, In (d, cd) [("b", concept_of cyclic_table "b")]
                                 /\ In "b" (prerequisites cd))
    /\ (forall d, In d (keys [("a", concept_of cyclic_table "a")]) ->
                  ~ In d (children node)).
Proof.
  apply (@network_children_of_concept
           [("a", concept_of cyclic_table "a")] []
           "b" (concept_of cyclic_table "b")
           (fold_left network_step cyclic_table [])).
  - apply nodupb_NoDup. by_computation.
  - reflexivity.
Defined.

Lemma network_placeholders_witness :
  (forall p, In p (keys (fold_left network_step dangling_table []))
             <-> In p (keys dangling_table)
                 \/ exists d, requires dangling_table d p)
  /\ (forall p node,
         ~ In p (keys dangling_table) ->
         get (fold_left network_step dangling_table []) p = Some node ->
         parents node = []
         /\ forall d, In d (children node) <-> requires dangling_table d p).
Proof.
  apply (@network_placeholders dangling_table
           (fold_left network_step dangling_table [])).
  - apply nodupb_NoDup. by_computation.
  - reflexivity.
Defined.

Lemma network_reverse_edges_witness :
  (exists node,
      get (fold_left network_step _initialize_concepts []) "basic_arithmetic"
      = Some node
      /\ In "geometry_basics" (children node))
  <-> requires _initialize_concepts "geometry_basics" "basic_arithmetic".
Proof.
  apply (@network_reverse_edges _initialize_concepts
           (fold_left network_step _initialize_concepts [])
           "basic_arithmetic" "geometry_basics").
  - apply nodupb_NoDup. by_computation.
  - apply prerequisites_firstb_spec. by_computation.
  - reflexivity.
Defined.

Lemma extraction_characterization_witness :
  _extract_observations ascii_env reference_model "add the roots of f(x)"
  = filter (fun k => re_search ascii_env (keyword_pattern k)
                               "add the roots of f(x)")
           (vocabulary ascii_env _initialize_concepts)
    ++ hits ascii_env the_special_patterns "add the roots of f(x)".
Proof.
  apply (proj1 (@extraction_characterization ascii_env _initialize_concepts
                  reference_model "add the roots of f(x)"
                  reference_model_built)).
  vm_compute. discriminate.
Defined.

Lemma extraction_up_to_set_order_witness :
  Permutation (_extract_observations ascii_env reference_model "add the roots")
              (_extract_observations rev_env reversed_model "add the roots").
Proof.
  apply (@extraction_up_to_set_order ascii_env rev_env _initialize_concepts
           reference_model reversed_model "add the roots").
  - reflexivity.
  - by_computation.
  - by_computation.
Defined.


Lemma emission_floor_witness :
  emission (hmm_params reference_model) "basic_arithmetic" "equation"
  = Ok 1e-10.
Proof.
  apply (@emission_floor ascii_env _initialize_concepts reference_model
           "basic_arithmetic" "equation").
  - apply nodupb_NoDup. by_computation.
  - by_computation.
  - apply (proj1 (str_in_In _ _)). by_computation.
  - apply (proj1 (str_in_false _ _)). by_computation.
Defined.

Lemma emission_row_mass_witness :
  sum (values arithmetic_row)
  == eff_prob (concept_of _initialize_concepts "basic_arithmetic").
Proof.
  destruct (@emission_row_mass ascii_env _initialize_concepts reference_model
              "basic_arithmetic"
              (concept_of _initialize_concepts "basic_arithmetic")
              arithmetic_row) as (Hmass & _).
  - apply nodupb_NoDup. by_computation.
  - by_computation.
  - reflexivity.
  - apply nodupb_NoDup. by_computation.
  - discriminate.
  - by_computation.
  - apply Hmass. exists "linear". split.
    + apply (proj1 (str_in_In _ _)). by_computation.
    + apply (proj1 (str_in_false _ _)). by_computation.
Defined.

Lemma self_transition_dominates_witness :
  exists v w,
    transition (hmm_params reference_model) "basic_arithmetic" "integrals"
    = Ok v
    /\ transition (hmm_params reference_model) "integrals" "integrals" = Ok w
    /\ w = 0.7 * eff_prob (concept_of _initialize_concepts "integrals")
    /\ (0 < v)%Q
    /\ (v <= 0.27 * eff_prob (concept_of _initialize_concepts "integrals"))%Q
    /\ (v < w)%Q.
Proof.
  apply (@self_transition_dominates ascii_env _initialize_concepts
           reference_model "basic_arithmetic" "integrals"
           (concept_of _initialize_concepts "integrals")).
  - apply nodupb_NoDup. by_computation.
  - by_computation.
  - apply (proj1 (str_in_In _ _)). by_computation.
  - reflexivity.
  - discriminate.
Defined.


Lemma viterbi_most_probable_path_witness :
  exists prob path,
    viterbi reference_model ["sum"; "x"] = Ok (prob, path)
    /\ List.length path = List.length ["sum"; "x"]
    /\ Forall (fun s => In s (keys _initialize_concepts)) path
    /\ prob = path_probability (hmm_params reference_model) ["sum"; "x"] path
                               (List.length ["sum"; "x"] - 1)
    /\ forall path',
         List.length path' = List.length ["sum"; "x"] ->
         Forall (fun s => In s (keys _initialize_concepts)) path' ->
         (path_probability (hmm_params reference_model) ["sum"; "x"] path'
                           (List.length ["sum"; "x"] - 1) <= prob)%Q.
Proof.
  apply (@viterbi_most_probable_path ascii_env _initialize_concepts
           reference_model ["sum"; "x"]).
  - discriminate.
  - apply nodupb_NoDup. by_computation.
  - intros c concept Hc.
    apply (@well_formedb_spec _initialize_concepts) in Hc;
      [exact (proj1 Hc) | by_computation].
  - by_computation.
  - discriminate.
Defined.

Lemma viterbi_errors_witness :
  viterbi reference_model [] = Raise IndexError
  /\ viterbi empty_model ["equation"] = Raise ValueError.
Proof.
  split.
  - apply (proj1 (viterbi_errors reference_model reference_well_built)).
    vm_compute. discriminate.
  - apply (proj2 (viterbi_errors empty_model
                    (proj2 (@built_model_well_built ascii_env [] empty_model
                              (NoDup_nil _) eq_refl)))).
    reflexivity.
Defined.


Lemma analyze_empty_question_any_table_witness :
  analyze_question ascii_env tie_model ""
  = Ok (NoMatch "No relevant patterns found in question" []).
Proof.
  apply (@analyze_empty_question_any_table ascii_env tie_table tie_model).
  - reflexivity.
  - reflexivity.
  - by_computation.
Defined.


(** ** The generator on concrete inputs *)

Lemma closedb_spec (table : dict Concept) :
  closedb table = true -> closed table.
Proof.
  unfold closedb, closed. intros H c concept p Hc Hp.
  rewrite forallb_forall in H.
  assert (Hin : In concept (values table)).
  { apply get_Some_In in Hc. now apply (in_map snd) in Hc. }
  specialize (H concept Hin). rewrite forallb_forall in H.
  apply str_in_In. now apply H.
Qed.

Lemma question_counts_witness :
  exists counts,
    questions_per_concept "derivatives" 3
      ["derivatives"; "quadratic_equations"; "trigonometry"] = Ok counts
    /\ keys counts = ["derivatives"; "quadratic_equations"; "trigonometry"]
    /\ sum_Z (values counts) = 3%Z
    /\ get counts "derivatives"
       = Some (3 - (len ["derivatives"; "quadratic_equations"; "trigonometry"] - 1)
                   * share 3 ["derivatives"; "quadratic_equations"; "trigonometry"])%Z
    /\ forall c,
         In c ["derivatives"; "quadratic_equations"; "trigonometry"] ->
         c <> "derivatives" ->
         get counts c
         = Some (share 3 ["derivatives"; "quadratic_equations"; "trigonometry"]).
Proof.
  apply (@question_counts "derivatives" 3
           ["derivatives"; "quadratic_equations"; "trigonometry"]).
  - apply nodupb_NoDup. by_computation.
  - apply (proj1 (str_in_In _ _)). by_computation.
Defined.

Lemma collect_prerequisites_ends_witness :
  exists cover,
    collect_prerequisites (List.length _initialize_concepts)
                          _initialize_concepts "integrals" ["integrals"]
    = Ok (Some ("integrals" :: cover))
    /\ NoDup ("integrals" :: cover)
    /\ forall x, In x cover -> In x (keys _initialize_concepts).
Proof.
  apply (@collect_prerequisites_ends _initialize_concepts "integrals").
  - apply prerequisites_firstb_spec. by_computation.
  - apply closedb_spec. by_computation.
  - apply nodupb_NoDup. by_computation.
  - apply (proj1 (str_in_In _ _)). by_computation.
Defined.

Lemma collect_prerequisites_fails_witness :
  (forall fuel, collect_prerequisites fuel cyclic_table "a" ["a"] = Ok None)
  /\ (forall fuel,
        collect_prerequisites (S fuel) dangling_table "a" ["a"]
        = Raise KeyError)
  /\ (forall fuel,
        collect_prerequisites fuel dangling_table "ghost" ["ghost"]
        = Raise KeyError).
Proof.
  split; [|split].
  - apply (proj1 (collect_prerequisites_fails cyclic_table "a" ["a"])).
    + apply closedb_spec. by_computation.
    + intros c data Hc. apply get_Some_In in Hc.
      destruct Hc as [[= <- <-] | [[= <- <-] | []]]; discriminate.
    + apply (proj1 (str_in_In _ _)). by_computation.
  - apply (proj1 (proj2 (collect_prerequisites_fails dangling_table "a" ["a"]))
             (concept_of dangling_table "a") "ghost" []).
    + reflexivity.
    + reflexivity.
    + apply (proj1 (str_in_false _ _)). by_computation.
  - apply (proj2 (proj2 (collect_prerequisites_fails dangling_table "ghost"
                           ["ghost"]))).
    apply (proj1 (str_in_false _ _)). by_computation.
Defined.

Lemma generated_parameters_witness :
  exists data,
    get _initialize_concepts "basic_arithmetic" = Some data
    /\ (forall k, contains (numbers (fst arithmetic_parameters)) k
                  = str_in k (keys (template_params data)))
    /\ (forall k v, get (numbers (fst arithmetic_parameters)) k = Some v ->
          exists lo hi, In (k, [lo; hi]) (template_params data)
                        /\ (lo <= v <= hi)%Z)
    /\ ("basic_arithmetic" = "basic_arithmetic" ->
        (exists o, op (fst arithmetic_parameters) = Some o
                   /\ In o ["+"; "-"; "*"; "/"])
        /\ snd arithmetic_parameters
           = S (0 + List.length (template_params data)))
    /\ ("basic_arithmetic" <> "basic_arithmetic" ->
        op (fst arithmetic_parameters) = None
        /\ snd arithmetic_parameters
           = (0 + List.length (template_params data))%nat).
Proof.
  apply (@generated_parameters constant_lib _initialize_concepts
           "basic_arithmetic" 0 (snd arithmetic_parameters)
           (fst arithmetic_parameters)).
  by_computation.
Defined.

Lemma skipped_templates_witness :
  format "In a right triangle with hypotenuse {c} and angle {angle}°, find the opposite side"
         (fst trigonometry_parameters)
  = Raise KeyError.
Proof.
  destruct (@skipped_templates constant_lib "trigonometry"
              "In a right triangle with hypotenuse {c} and angle {angle}°, find the opposite side"
              0 (snd trigonometry_parameters) (fst trigonometry_parameters))
    as (Hdead & _).
  - by_computation.
  - apply (proj1 (str_in_In _ _)). by_computation.
  - apply Hdead. right. left. reflexivity.
Defined.

Lemma practice_test_result_witness :
  exists test i' data,
    derivatives_request
    = Ok (Some ({| tests := [test];
                   total_questions := len (pt_questions test);
                   concepts_covered := "derivatives" :: prerequisites data |}, i'))
    /\ get _initialize_concepts "derivatives" = Some data
    /\ pt_concepts_covered test = ["derivatives"]
    /\ (len (pt_questions test) <= Z.max 4 0)%Z.
Proof.
  destruct (proj2 (proj2 (practice_test_result constant_lib _initialize_concepts
                            _initialize_templates "derivatives" ["integrals"]
                            4 0))
              (match derivatives_request with
               | Ok r => r
               | Raise _ => None
               end))
    as (test & i' & data & Hr & Hdata & _ & Hcover & _ & _ & Hlen & _).
  - by_computation.
  - exists test, i', data. split; [|auto].
    unfold derivatives_request at 1. rewrite <- Hr. by_computation.
Defined.

Lemma request_division_by_zero_witness :
  kb_generate_practice_test constant_lib _initialize_concepts
                            _initialize_templates ["linear_equations"] 1 0
  = Raise ZeroDivisionError.
Proof.
  destruct (@request_division_by_zero constant_lib [] 1 0) as (Hlinear & _).
  - lia.
  - apply Hlinear. reflexivity.
Defined.


Lemma main_concept_left_out_witness :
  pt_concepts_covered (fst integrals_test)
  = ["integrals"; "derivatives"; "quadratic_equations"; "trigonometry";
     "linear_equations"; "basic_arithmetic"]
  /\ Forall (fun q => qd_concept q <> "integrals")
            (pt_questions (fst integrals_test)).
Proof.
  apply (proj2 (@main_concept_left_out
                  (List.length _initialize_concepts) zero_lib
                  _initialize_concepts _initialize_templates "integrals" 10
                  true 0 (snd integrals_test) (fst integrals_test)
                  ltac:(vm_compute; reflexivity)));
    reflexivity.
Defined.
